(** * The custom-transaction interpreter of the alien consensus engine

    A shallow embedding of [consensus/alien/custom_tx.go]: the command
    grammar ([dpos:1:<category>:<event>...]), the per-field validators of
    the proposal command, the balance check, the signer-set admin commands,
    the confirmation cross-check against a historical header, and the fold
    of [processCustomTx] over the transactions of a block.
    The last part embeds the fork scheduling of [params/config.go]
    ([CheckCompatible] and the functions it calls).

    Conventions.
    - A [uint64] or [int] is a [Z] with the conversions between the two
      written out ([uint64_of_int], [int_of_uint64], [wrap64]).
    - A [*big.Int] is the integer it holds.
    - A [common.Address] ([20]byte) and a [common.Hash] ([32]byte) are the
      160-bit and 256-bit numbers their bytes spell; two arrays are equal
      exactly when the numbers are.
    - The world state is a finite map from addresses to balances; an
      account absent from it has balance 0.
    - A Go [string] is a [string] (a list of bytes). *)

From Stdlib Require Import ZArith List String Ascii Lia Bool.
From Stdlib Require Import DecimalString.
From stdpp Require Import base option list gmap strings.

Local Open Scope string_scope.
Local Open Scope list_scope.
Local Open Scope Z_scope.

(** ** Library functions the file calls *)

Module Common.
(** [common.Address] and [common.Hash]. *)
Definition Address := N.
Definition Hash := N.

(** [common.Address{}] and [common.Hash{}]: all bytes zero. *)
Definition zeroAddress : Address := 0%N.
Definition zeroHash : Hash := 0%N.

(** [a.Str()] is [string(a[:])], the twenty raw bytes: it determines the
    address and is determined by it. *)
Definition Str (a : Address) : Address := a.
End Common.

Module Strings.
(** [strings.Split(s, sep)] for a separator of one byte: the pieces of
    [s] between the separators, [n + 1] pieces for [n] separators, a
    single empty piece for the empty string. *)
Fixpoint Split (sep : ascii) (s : string) : list string :=
  match s with
  | EmptyString => [EmptyString]
  | String c rest =>
      if Ascii.eqb c sep then EmptyString :: Split sep rest
      else match Split sep rest with
           | [] => [String c EmptyString]
           | piece :: pieces => String c piece :: pieces
           end
  end.
End Strings.

Module Strconv.
(** The value of a decimal digit, if the byte is one. *)
Definition digit (c : ascii) : option Z :=
  let n := Z.of_N (N_of_ascii c) in
  if (48 <=? n) && (n <=? 57) then Some (n - 48) else None.

(** One or more decimal digits, most significant first. *)
Fixpoint digits (acc : Z) (s : string) : option Z :=
  match s with
  | EmptyString => Some acc
  | String c rest =>
      match digit c with
      | Some d => digits (10 * acc + d) rest
      | None => None
      end
  end.

Definition unsigned (s : string) : option Z :=
  match s with
  | EmptyString => None
  | _ => digits 0 s
  end.

(** An optional sign followed by one or more decimal digits. *)
Definition signed (s : string) : option Z :=
  match s with
  | EmptyString => None
  | String c rest =>
      if Ascii.eqb c "-" then Z.opp <$> unsigned rest
      else if Ascii.eqb c "+" then unsigned rest
      else unsigned s
  end.

(** [strconv.Atoi]: base 10, optional sign, no underscores; a value
    outside the 64-bit [int] is an error ([ErrRange]). *)
Definition Atoi (s : string) : option Z :=
  match signed s with
  | Some n => if (- 2 ^ 63 <=? n) && (n <? 2 ^ 63) then Some n else None
  | None => None
  end.
End Strconv.

Module Big.
(** [x.Uint64()] of a [*big.Int]: the low 64 bits of the absolute
    value. *)
Definition Uint64 (x : Z) : Z := Z.abs x mod 2 ^ 64.

(** [new(big.Int).SetString(s, 10)]: as [Atoi] without the range. *)
Definition SetString10 (s : string) : option Z := Strconv.signed s.
End Big.

(** Conversions between [int] and [uint64], and [uint64] subtraction. *)
Definition uint64_of_int (n : Z) : Z := n mod 2 ^ 64.
Definition int_of_uint64 (n : Z) : Z := if n <? 2 ^ 63 then n else n - 2 ^ 64.
Definition wrap64 (n : Z) : Z := n mod 2 ^ 64.
Definition sub64 (a b : Z) : Z := wrap64 (a - b).

(** [len] of a slice and of a string, as an [int]. *)
Definition len {A} (l : list A) : Z := Z.of_nat (List.length l).
Definition strlen (s : string) : Z := Z.of_nat (String.length s).

(** ** Constants of [custom_tx.go] *)

Definition dposPrefix := "dpos".
Definition dposVersion := "1".
Definition dposCategoryEvent := "event".
Definition dposCategoryLog := "oplog".
Definition dposCategorySC := "sc".
Definition dposCategoryAdmin := "admin".

Definition dposEventVote := "vote".
Definition dposEventConfirm := "confirm".
Definition dposEventPorposal := "proposal".
Definition dposEventDeclare := "declare".
Definition dposEventSetCoinbase := "setcb".

Definition dposAdminAddSigner := "adds".
Definition dposAdminDelSigner := "dels".
Definition dposAdminModifyAdmin := "modadmin".
Definition dposAdminModifyMinerReward := "modreward".
Definition dposAdminModifyMinerRatio := "modratio".

Definition dposMinSplitLen : Z := 4.
Definition posPrefix : nat := 0.
Definition posVersion : nat := 1.
Definition posCategory : nat := 2.
Definition posEventVote : nat := 3.
Definition posEventConfirm : nat := 3.
Definition posEventProposal : nat := 3.
Definition posEventDeclare : nat := 3.
Definition posEventSetCoinbase : nat := 3.
Definition posEventConfirmNumber : nat := 4.
Definition posAdminEvent : nat := 3.
Definition posAdminEventBlockReward : nat := 4.
Definition posAdminEventMinerRatio : nat := 4.

Definition proposalTypeCandidateAdd : Z := 1.
Definition proposalTypeCandidateRemove : Z := 2.
Definition proposalTypeMinerRewardDistributionModify : Z := 3.
Definition proposalTypeSideChainAdd : Z := 4.
Definition proposalTypeSideChainRemove : Z := 5.
Definition proposalTypeMinVoterBalanceModify : Z := 6.
Definition proposalTypeProposalDepositModify : Z := 7.
Definition proposalTypeRentSideChain : Z := 8.

Definition maxValidationLoopCnt : Z := 50000.
Definition minValidationLoopCnt : Z := 4.
Definition defaultValidationLoopCnt : Z := 10000.
Definition maxProposalDeposit : Z := 100000.
Definition minSCRentFee : Z := 100.
Definition minSCRentLength : Z := 850000.
Definition defaultSCRentLength : Z := minSCRentLength * 3.
Definition maxSCRentLength : Z := defaultSCRentLength * 4.

(** [big.NewInt(1e+18)]. *)
Definition e18 : Z := 10 ^ 18.

(** ** Data model *)

Module Params.
(** [params.AlienConfig], the fields with a value of their own. *)
Record AlienConfig := {
  Period : Z;
  Epoch : Z;
  MaxSignerCount : Z;
  MinVoterBalance : Z;
  GenesisTimestamp : Z;
  MaxRewardOutBlock : Z;
  PerBlockReward : Z;
  MinerRewardRatio : Z;
  AdminAddress : Common.Address;
  LuckyDrawAddress : Common.Address;
  SelfVoteSigners : list Common.Address;
  SideChain : bool;
  PBFTEnable : bool
}.
End Params.

Module Types.
(** What the interpreter reads of a [*types.Transaction]. [Sender] is the
    result of [types.Sender(types.NewEIP155Signer(tx.ChainId()), tx)],
    [None] when the signature does not yield one; [To] is [None] for the
    nil recipient of a contract creation. *)
Record Transaction := {
  TxHash : Common.Hash;
  To : option Common.Address;
  Data : string;
  Value : Z;
  GasPrice : Z;
  Sender : option Common.Address
}.

(** What the interpreter reads of a [*types.Header]. *)
Record Header := {
  Number : Z;
  ParentHash : Common.Hash;
  Extra : list Byte.byte
}.
End Types.

(** [state.StateDB], as far as balances go. *)
Abbreviation StateDB := (gmap Common.Address Z).

Definition GetBalance (state : StateDB) (addr : Common.Address) : Z :=
  default 0 (state !! addr).

Definition SetBalance (state : StateDB) (addr : Common.Address) (amount : Z) : StateDB :=
  <[addr := amount]> state.

(** The two queries of [*Snapshot] the interpreter makes. *)
Record Snapshot := {
  isVoter : Common.Address -> bool;
  isSideChainExist : Common.Hash -> bool
}.

(** [consensus.ChainReader], as far as it is consulted. *)
Record ChainReader := {
  GetHeaderByNumber : Z -> option Types.Header
}.

Abbreviation RefundGas := (gmap Common.Address Z).

Record RefundPair := {
  Sender : Common.Address;
  GasPrice : Z
}.

Abbreviation RefundHash := (gmap Common.Hash RefundPair).

Record Vote := {
  Voter : Common.Address;
  Candidate : Common.Address;
  Stake : Z
}.

Record Confirmation := {
  Signer : Common.Address;
  BlockNumber : Z
}.

(** [Declare] of the source; the underscore keeps the name apart from the
    vernacular word. *)
Record Declare_ := {
  ProposalHash : Common.Hash;
  Declarer : Common.Address;
  Decision : bool
}.

Record Proposal := {
  Hash : Common.Hash;
  ReceivedNumber : Z;
  CurrentDeposit : Z;
  ValidationLoopCnt : Z;
  ProposalType : Z;
  Proposer : Common.Address;
  TargetAddress : Common.Address;
  MinerRewardPerThousand : Z;
  SCHash : Common.Hash;
  SCBlockCountPerPeriod : Z;
  SCBlockRewardPerPeriod : Z;
  Declares : list Declare_;
  MinVoterBalance : Z;
  ProposalDeposit : Z;
  SCRentFee : Z;
  SCRentRate : Z;
  SCRentLength : Z
}.

Record SCConfirmation := {
  SCC_Hash : Common.Hash;
  SCC_Coinbase : Common.Address;
  SCC_Number : Z;
  SCC_LoopInfo : list string
}.

Record SCSetCoinbase := {
  SSC_Hash : Common.Hash;
  SSC_Signer : Common.Address;
  SSC_Coinbase : Common.Address
}.

Record GasCharging := {
  GC_Target : Common.Address;
  GC_Volume : Z;
  GC_Hash : Common.Hash
}.

Record HeaderExtra := {
  CurrentBlockConfirmations : list Confirmation;
  CurrentBlockVotes : list Vote;
  CurrentBlockProposals : list Proposal;
  CurrentBlockDeclares : list Declare_;
  ModifyPredecessorVotes : list Vote;
  LoopStartTime : Z;
  SignerQueue : list Common.Address;
  CandidateSigners : list Common.Address;
  SignerAdmin : Common.Address;
  PerBlockReward : Z;
  MinerRewardRatio : Z;
  SignerMissing : list Common.Address;
  ConfirmedBlockNumber : Z;
  SideChainConfirmations : list SCConfirmation;
  SideChainSetCoinbases : list SCSetCoinbase;
  SideChainNoticeConfirmed : list SCConfirmation;
  SideChainCharging : list GasCharging
}.

(** Assignments to one field of the accumulator. *)
Definition set_CandidateSigners (h : HeaderExtra) (v : list Common.Address) : HeaderExtra :=
  {| CurrentBlockConfirmations := CurrentBlockConfirmations h;
     CurrentBlockVotes := CurrentBlockVotes h;
     CurrentBlockProposals := CurrentBlockProposals h;
     CurrentBlockDeclares := CurrentBlockDeclares h;
     ModifyPredecessorVotes := ModifyPredecessorVotes h;
     LoopStartTime := LoopStartTime h;
     SignerQueue := SignerQueue h;
     CandidateSigners := v;
     SignerAdmin := SignerAdmin h;
     PerBlockReward := PerBlockReward h;
     MinerRewardRatio := MinerRewardRatio h;
     SignerMissing := SignerMissing h;
     ConfirmedBlockNumber := ConfirmedBlockNumber h;
     SideChainConfirmations := SideChainConfirmations h;
     SideChainSetCoinbases := SideChainSetCoinbases h;
     SideChainNoticeConfirmed := SideChainNoticeConfirmed h;
     SideChainCharging := SideChainCharging h |}.

Definition set_SignerAdmin (h : HeaderExtra) (v : Common.Address) : HeaderExtra :=
  {| CurrentBlockConfirmations := CurrentBlockConfirmations h;
     CurrentBlockVotes := CurrentBlockVotes h;
     CurrentBlockProposals := CurrentBlockProposals h;
     CurrentBlockDeclares := CurrentBlockDeclares h;
     ModifyPredecessorVotes := ModifyPredecessorVotes h;
     LoopStartTime := LoopStartTime h;
     SignerQueue := SignerQueue h;
     CandidateSigners := CandidateSigners h;
     SignerAdmin := v;
     PerBlockReward := PerBlockReward h;
     MinerRewardRatio := MinerRewardRatio h;
     SignerMissing := SignerMissing h;
     ConfirmedBlockNumber := ConfirmedBlockNumber h;
     SideChainConfirmations := SideChainConfirmations h;
     SideChainSetCoinbases := SideChainSetCoinbases h;
     SideChainNoticeConfirmed := SideChainNoticeConfirmed h;
     SideChainCharging := SideChainCharging h |}.

Definition set_PerBlockReward (h : HeaderExtra) (v : Z) : HeaderExtra :=
  {| CurrentBlockConfirmations := CurrentBlockConfirmations h;
     CurrentBlockVotes := CurrentBlockVotes h;
     CurrentBlockProposals := CurrentBlockProposals h;
     CurrentBlockDeclares := CurrentBlockDeclares h;
     ModifyPredecessorVotes := ModifyPredecessorVotes h;
     LoopStartTime := LoopStartTime h;
     SignerQueue := SignerQueue h;
     CandidateSigners := CandidateSigners h;
     SignerAdmin := SignerAdmin h;
     PerBlockReward := v;
     MinerRewardRatio := MinerRewardRatio h;
     SignerMissing := SignerMissing h;
     ConfirmedBlockNumber := ConfirmedBlockNumber h;
     SideChainConfirmations := SideChainConfirmations h;
     SideChainSetCoinbases := SideChainSetCoinbases h;
     SideChainNoticeConfirmed := SideChainNoticeConfirmed h;
     SideChainCharging := SideChainCharging h |}.

Definition set_MinerRewardRatio (h : HeaderExtra) (v : Z) : HeaderExtra :=
  {| CurrentBlockConfirmations := CurrentBlockConfirmations h;
     CurrentBlockVotes := CurrentBlockVotes h;
     CurrentBlockProposals := CurrentBlockProposals h;
     CurrentBlockDeclares := CurrentBlockDeclares h;
     ModifyPredecessorVotes := ModifyPredecessorVotes h;
     LoopStartTime := LoopStartTime h;
     SignerQueue := SignerQueue h;
     CandidateSigners := CandidateSigners h;
     SignerAdmin := SignerAdmin h;
     PerBlockReward := PerBlockReward h;
     MinerRewardRatio := v;
     SignerMissing := SignerMissing h;
     ConfirmedBlockNumber := ConfirmedBlockNumber h;
     SideChainConfirmations := SideChainConfirmations h;
     SideChainSetCoinbases := SideChainSetCoinbases h;
     SideChainNoticeConfirmed := SideChainNoticeConfirmed h;
     SideChainCharging := SideChainCharging h |}.

Definition set_ModifyPredecessorVotes (h : HeaderExtra) (v : list Vote) : HeaderExtra :=
  {| CurrentBlockConfirmations := CurrentBlockConfirmations h;
     CurrentBlockVotes := CurrentBlockVotes h;
     CurrentBlockProposals := CurrentBlockProposals h;
     CurrentBlockDeclares := CurrentBlockDeclares h;
     ModifyPredecessorVotes := v;
     LoopStartTime := LoopStartTime h;
     SignerQueue := SignerQueue h;
     CandidateSigners := CandidateSigners h;
     SignerAdmin := SignerAdmin h;
     PerBlockReward := PerBlockReward h;
     MinerRewardRatio := MinerRewardRatio h;
     SignerMissing := SignerMissing h;
     ConfirmedBlockNumber := ConfirmedBlockNumber h;
     SideChainConfirmations := SideChainConfirmations h;
     SideChainSetCoinbases := SideChainSetCoinbases h;
     SideChainNoticeConfirmed := SideChainNoticeConfirmed h;
     SideChainCharging := SideChainCharging h |}.

(** Assignments to one field of a proposal draft. *)
Definition set_ValidationLoopCnt (p : Proposal) (v : Z) : Proposal :=
  {| Hash := Hash p; ReceivedNumber := ReceivedNumber p;
     CurrentDeposit := CurrentDeposit p; ValidationLoopCnt := v;
     ProposalType := ProposalType p; Proposer := Proposer p;
     TargetAddress := TargetAddress p;
     MinerRewardPerThousand := MinerRewardPerThousand p; SCHash := SCHash p;
     SCBlockCountPerPeriod := SCBlockCountPerPeriod p;
     SCBlockRewardPerPeriod := SCBlockRewardPerPeriod p; Declares := Declares p;
     MinVoterBalance := MinVoterBalance p; ProposalDeposit := ProposalDeposit p;
     SCRentFee := SCRentFee p; SCRentRate := SCRentRate p;
     SCRentLength := SCRentLength p |}.

Definition set_ProposalType (p : Proposal) (v : Z) : Proposal :=
  {| Hash := Hash p; ReceivedNumber := ReceivedNumber p;
     CurrentDeposit := CurrentDeposit p; ValidationLoopCnt := ValidationLoopCnt p;
     ProposalType := v; Proposer := Proposer p; TargetAddress := TargetAddress p;
     MinerRewardPerThousand := MinerRewardPerThousand p; SCHash := SCHash p;
     SCBlockCountPerPeriod := SCBlockCountPerPeriod p;
     SCBlockRewardPerPeriod := SCBlockRewardPerPeriod p; Declares := Declares p;
     MinVoterBalance := MinVoterBalance p; ProposalDeposit := ProposalDeposit p;
     SCRentFee := SCRentFee p; SCRentRate := SCRentRate p;
     SCRentLength := SCRentLength p |}.

Definition set_TargetAddress (p : Proposal) (v : Common.Address) : Proposal :=
  {| Hash := Hash p; ReceivedNumber := ReceivedNumber p;
     CurrentDeposit := CurrentDeposit p; ValidationLoopCnt := ValidationLoopCnt p;
     ProposalType := ProposalType p; Proposer := Proposer p; TargetAddress := v;
     MinerRewardPerThousand := MinerRewardPerThousand p; SCHash := SCHash p;
     SCBlockCountPerPeriod := SCBlockCountPerPeriod p;
     SCBlockRewardPerPeriod := SCBlockRewardPerPeriod p; Declares := Declares p;
     MinVoterBalance := MinVoterBalance p; ProposalDeposit := ProposalDeposit p;
     SCRentFee := SCRentFee p; SCRentRate := SCRentRate p;
     SCRentLength := SCRentLength p |}.

Definition set_MinerRewardPerThousand (p : Proposal) (v : Z) : Proposal :=
  {| Hash := Hash p; ReceivedNumber := ReceivedNumber p;
     CurrentDeposit := CurrentDeposit p; ValidationLoopCnt := ValidationLoopCnt p;
     ProposalType := ProposalType p; Proposer := Proposer p;
     TargetAddress := TargetAddress p; MinerRewardPerThousand := v;
     SCHash := SCHash p; SCBlockCountPerPeriod := SCBlockCountPerPeriod p;
     SCBlockRewardPerPeriod := SCBlockRewardPerPeriod p; Declares := Declares p;
     MinVoterBalance := MinVoterBalance p; ProposalDeposit := ProposalDeposit p;
     SCRentFee := SCRentFee p; SCRentRate := SCRentRate p;
     SCRentLength := SCRentLength p |}.

Definition set_SCHash (p : Proposal) (v : Common.Hash) : Proposal :=
  {| Hash := Hash p; ReceivedNumber := ReceivedNumber p;
     CurrentDeposit := CurrentDeposit p; ValidationLoopCnt := ValidationLoopCnt p;
     ProposalType := ProposalType p; Proposer := Proposer p;
     TargetAddress := TargetAddress p;
     MinerRewardPerThousand := MinerRewardPerThousand p; SCHash := v;
     SCBlockCountPerPeriod := SCBlockCountPerPeriod p;
     SCBlockRewardPerPeriod := SCBlockRewardPerPeriod p; Declares := Declares p;
     MinVoterBalance := MinVoterBalance p; ProposalDeposit := ProposalDeposit p;
     SCRentFee := SCRentFee p; SCRentRate := SCRentRate p;
     SCRentLength := SCRentLength p |}.

Definition set_SCBlockCountPerPeriod (p : Proposal) (v : Z) : Proposal :=
  {| Hash := Hash p; ReceivedNumber := ReceivedNumber p;
     CurrentDeposit := CurrentDeposit p; ValidationLoopCnt := ValidationLoopCnt p;
     ProposalType := ProposalType p; Proposer := Proposer p;
     TargetAddress := TargetAddress p;
     MinerRewardPerThousand := MinerRewardPerThousand p; SCHash := SCHash p;
     SCBlockCountPerPeriod := v; SCBlockRewardPerPeriod := SCBlockRewardPerPeriod p;
     Declares := Declares p; MinVoterBalance := MinVoterBalance p;
     ProposalDeposit := ProposalDeposit p; SCRentFee := SCRentFee p;
     SCRentRate := SCRentRate p; SCRentLength := SCRentLength p |}.

Definition set_SCBlockRewardPerPeriod (p : Proposal) (v : Z) : Proposal :=
  {| Hash := Hash p; ReceivedNumber := ReceivedNumber p;
     CurrentDeposit := CurrentDeposit p; ValidationLoopCnt := ValidationLoopCnt p;
     ProposalType := ProposalType p; Proposer := Proposer p;
     TargetAddress := TargetAddress p;
     MinerRewardPerThousand := MinerRewardPerThousand p; SCHash := SCHash p;
     SCBlockCountPerPeriod := SCBlockCountPerPeriod p; SCBlockRewardPerPeriod := v;
     Declares := Declares p; MinVoterBalance := MinVoterBalance p;
     ProposalDeposit := ProposalDeposit p; SCRentFee := SCRentFee p;
     SCRentRate := SCRentRate p; SCRentLength := SCRentLength p |}.

Definition set_MinVoterBalance (p : Proposal) (v : Z) : Proposal :=
  {| Hash := Hash p; ReceivedNumber := ReceivedNumber p;
     CurrentDeposit := CurrentDeposit p; ValidationLoopCnt := ValidationLoopCnt p;
     ProposalType := ProposalType p; Proposer := Proposer p;
     TargetAddress := TargetAddress p;
     MinerRewardPerThousand := MinerRewardPerThousand p; SCHash := SCHash p;
     SCBlockCountPerPeriod := SCBlockCountPerPeriod p;
     SCBlockRewardPerPeriod := SCBlockRewardPerPeriod p; Declares := Declares p;
     MinVoterBalance := v; ProposalDeposit := ProposalDeposit p;
     SCRentFee := SCRentFee p; SCRentRate := SCRentRate p;
     SCRentLength := SCRentLength p |}.

Definition set_ProposalDeposit (p : Proposal) (v : Z) : Proposal :=
  {| Hash := Hash p; ReceivedNumber := ReceivedNumber p;
     CurrentDeposit := CurrentDeposit p; ValidationLoopCnt := ValidationLoopCnt p;
     ProposalType := ProposalType p; Proposer := Proposer p;
     TargetAddress := TargetAddress p;
     MinerRewardPerThousand := MinerRewardPerThousand p; SCHash := SCHash p;
     SCBlockCountPerPeriod := SCBlockCountPerPeriod p;
     SCBlockRewardPerPeriod := SCBlockRewardPerPeriod p; Declares := Declares p;
     MinVoterBalance := MinVoterBalance p; ProposalDeposit := v;
     SCRentFee := SCRentFee p; SCRentRate := SCRentRate p;
     SCRentLength := SCRentLength p |}.

Definition set_SCRentFee (p : Proposal) (v : Z) : Proposal :=
  {| Hash := Hash p; ReceivedNumber := ReceivedNumber p;
     CurrentDeposit := CurrentDeposit p; ValidationLoopCnt := ValidationLoopCnt p;
     ProposalType := ProposalType p; Proposer := Proposer p;
     TargetAddress := TargetAddress p;
     MinerRewardPerThousand := MinerRewardPerThousand p; SCHash := SCHash p;
     SCBlockCountPerPeriod := SCBlockCountPerPeriod p;
     SCBlockRewardPerPeriod := SCBlockRewardPerPeriod p; Declares := Declares p;
     MinVoterBalance := MinVoterBalance p; ProposalDeposit := ProposalDeposit p;
     SCRentFee := v; SCRentRate := SCRentRate p; SCRentLength := SCRentLength p |}.

Definition set_SCRentRate (p : Proposal) (v : Z) : Proposal :=
  {| Hash := Hash p; ReceivedNumber := ReceivedNumber p;
     CurrentDeposit := CurrentDeposit p; ValidationLoopCnt := ValidationLoopCnt p;
     ProposalType := ProposalType p; Proposer := Proposer p;
     TargetAddress := TargetAddress p;
     MinerRewardPerThousand := MinerRewardPerThousand p; SCHash := SCHash p;
     SCBlockCountPerPeriod := SCBlockCountPerPeriod p;
     SCBlockRewardPerPeriod := SCBlockRewardPerPeriod p; Declares := Declares p;
     MinVoterBalance := MinVoterBalance p; ProposalDeposit := ProposalDeposit p;
     SCRentFee := SCRentFee p; SCRentRate := v; SCRentLength := SCRentLength p |}.

Definition set_SCRentLength (p : Proposal) (v : Z) : Proposal :=
  {| Hash := Hash p; ReceivedNumber := ReceivedNumber p;
     CurrentDeposit := CurrentDeposit p; ValidationLoopCnt := ValidationLoopCnt p;
     ProposalType := ProposalType p; Proposer := Proposer p;
     TargetAddress := TargetAddress p;
     MinerRewardPerThousand := MinerRewardPerThousand p; SCHash := SCHash p;
     SCBlockCountPerPeriod := SCBlockCountPerPeriod p;
     SCBlockRewardPerPeriod := SCBlockRewardPerPeriod p; Declares := Declares p;
     MinVoterBalance := MinVoterBalance p; ProposalDeposit := ProposalDeposit p;
     SCRentFee := SCRentFee p; SCRentRate := SCRentRate p; SCRentLength := v |}.

(** [l[i]] of a token list, read under a length guard in the source. *)
Definition tok (l : list string) (i : nat) : string := default "" (l !! i).

(** [a == b] on Go strings. *)
Definition streq (a b : string) : bool := String.eqb a b.

(** ** Sample data

    Three accounts (the admin [alice], [bob] and [carol]), a genesis-like
    accumulator whose only candidate signer and admin is [alice], and a
    few transactions, used by the closed statements at the end. *)

Definition alice : Common.Address := 1%N.
Definition bob : Common.Address := 2%N.
Definition carol : Common.Address := 3%N.

Definition sampleConfig (maxSignerCount : Z) : Params.AlienConfig :=
  {| Params.Period := 3;
     Params.Epoch := 30000;
     Params.MaxSignerCount := maxSignerCount;
     Params.MinVoterBalance := 10000 * e18;
     Params.GenesisTimestamp := 0;
     Params.MaxRewardOutBlock := 0;
     Params.PerBlockReward := 0;
     Params.MinerRewardRatio := 0;
     Params.AdminAddress := alice;
     Params.LuckyDrawAddress := Common.zeroAddress;
     Params.SelfVoteSigners := [];
     Params.SideChain := false;
     Params.PBFTEnable := false |}.

Definition sampleExtra (queue : list Common.Address) : HeaderExtra :=
  {| CurrentBlockConfirmations := [];
     CurrentBlockVotes := [];
     CurrentBlockProposals := [];
     CurrentBlockDeclares := [];
     ModifyPredecessorVotes := [];
     LoopStartTime := 0;
     SignerQueue := queue;
     CandidateSigners := [alice];
     SignerAdmin := alice;
     PerBlockReward := 8 * e18;
     MinerRewardRatio := 40;
     SignerMissing := [];
     ConfirmedBlockNumber := 0;
     SideChainConfirmations := [];
     SideChainSetCoinbases := [];
     SideChainNoticeConfirmed := [];
     SideChainCharging := [] |}.

Definition sampleTx (hash : Common.Hash) (sender : Common.Address)
    (to : option Common.Address) (data : string) : Types.Transaction :=
  {| Types.TxHash := hash; Types.To := to; Types.Data := data; Types.Value := 0;
     Types.GasPrice := 18; Types.Sender := Some sender |}.

(** Block 1: [processCustomTx] asks for no snapshot. *)
Definition firstHeader : Types.Header :=
  {| Types.Number := 1; Types.ParentHash := 0%N; Types.Extra := [] |}.

(** A header at number 3 whose payload, between 32 bytes of vanity and 65
    bytes of seal, is the single byte [x01]. *)
Definition thirdHeader : Types.Header :=
  {| Types.Number := 3; Types.ParentHash := 0%N;
     Types.Extra := repeat Byte.x00 32 ++ [Byte.x01] ++ repeat Byte.x00 65 |}.

Definition sampleChain : ChainReader :=
  {| GetHeaderByNumber := fun n => if n =? 3 then Some thirdHeader else None |}.

(** A decoder that knows the payload of [thirdHeader] only. *)
Definition sampleDecode (b : list Byte.byte) : option HeaderExtra :=
  match b with
  | [Byte.x01] => Some (sampleExtra [alice; bob])
  | _ => None
  end.

Definition sampleSnapshot : Snapshot :=
  {| isVoter := fun _ => false; isSideChainExist := fun _ => false |}.

(** A snapshot lookup that always fails, over errors of one kind. *)
Definition noSnapshot (chain : ChainReader) (number : Z) (hash : Common.Hash)
  : Snapshot + unit := inr tt.

(** Text that leaves a hash or an address as it was. *)
Definition keepHash (h : Common.Hash) (text : string) : Common.Hash := h.
Definition keepAddress (a : Common.Address) (text : string) : Common.Address := a.

(** The world state in which [alice] owns 50 and [bob] 100. *)
Definition sampleState : StateDB := {[ alice := 50; bob := 100 ]}.

(** A rent-side-chain command: the text of side chain 7 and of [carol],
    readers that know these two texts and leave the receiver as it was on
    any other, a snapshot in which side chain 7 is registered, and a state
    in which [alice] owns 150 units of 1e18. *)
Definition chainText : string :=
  "0x0000000000000000000000000000000000000000000000000000000000000007".
Definition carolText : string := "0x0000000000000000000000000000000000000003".
Definition readHash (h : Common.Hash) (text : string) : Common.Hash :=
  if String.eqb text chainText then 7%N else h.
Definition readAddress (a : Common.Address) (text : string) : Common.Address :=
  if String.eqb text carolText then carol else a.
Definition rentSnapshot : Snapshot :=
  {| isVoter := fun _ => false; isSideChainExist := fun h => (h =? 7)%N |}.
Definition rentState : StateDB := {[ alice := 150 * e18 ]}.
Definition rentCommand : list string :=
  ["dpos"; "1"; "event"; "proposal"; "proposal_type"; "8"; "schash"; chainText;
   "scrt"; carolText; "scrf"; "100"].
Definition rentTx : Types.Transaction :=
  sampleTx 9%N alice (Some alice)
    ("dpos:1:event:proposal:proposal_type:8:schash:" ++ chainText ++ ":scrt:" ++ carolText
     ++ ":scrf:100")%string.

(** ** The interpreter *)

Section Alien.

(** The engine's configuration, [a.config]. *)
Variable config : Params.AlienConfig.

(** Package variables and constants of the engine that [custom_tx.go]
    reads and does not declare: the proposal deposit, the default reward
    share and voter balance, and the vanity and seal lengths that frame
    the extra-data payload of a header. *)
Variable proposalDeposit : Z.
Variable minerRewardPerThousand : Z.
Variable minVoterBalance : Z.
Variable extraVanity : nat.
Variable extraSeal : nat.

(** Library calls left open.
    - [h.UnmarshalText(text)] on a hash or an address: the value the
      receiver holds afterwards, given the one it held (the source
      discards the error).
    - [x.UnmarshalText(text)] on a [*big.Int]: the integer, or an error.
    - [rlp.EncodeToBytes] and [rlp.DecodeBytes] at type [HeaderExtra].
    - [a.snapshot(chain, number, hash, ...)]: a snapshot or an error. *)
Variable Hash_UnmarshalText : Common.Hash -> string -> Common.Hash.
Variable Address_UnmarshalText : Common.Address -> string -> Common.Address.
Variable BigInt_UnmarshalText : string -> option Z.
Variable rlp_EncodeToBytes : HeaderExtra -> option (list Byte.byte).
Variable rlp_DecodeBytes : list Byte.byte -> option HeaderExtra.
Variable error : Type.
Variable snapshot : ChainReader -> Z -> Common.Hash -> Snapshot + error.

(** *** Encoder and decoder: one codec whatever the block number *)

Definition encodeHeaderExtra (cfg : Params.AlienConfig) (number : Z) (val : HeaderExtra)
  : option (list Byte.byte) :=
  rlp_EncodeToBytes val.

Definition decodeHeaderExtra (cfg : Params.AlienConfig) (number : Z) (b : list Byte.byte)
  : option HeaderExtra :=
  rlp_DecodeBytes b.

(** *** Side-chain records *)

Definition processSCEventNoticeConfirm (scEventNoticeConfirm : list SCConfirmation)
    (hash : Common.Hash) (number : Z) (chargingInfo : string) (txSender : Common.Address)
  : list SCConfirmation :=
  if negb (streq chargingInfo "") then
    scEventNoticeConfirm ++
      [{| SCC_Hash := hash; SCC_Coinbase := txSender; SCC_Number := number;
          SCC_LoopInfo := Strings.Split "#" chargingInfo |}]
  else scEventNoticeConfirm.

Definition processSCEventConfirm (scEventConfirmaions : list SCConfirmation)
    (hash : Common.Hash) (number : Z) (loopInfo : string) (tx : Types.Transaction)
    (txSender : Common.Address) (refundHash : RefundHash)
  : list SCConfirmation * RefundHash :=
  (scEventConfirmaions ++
     [{| SCC_Hash := hash; SCC_Coinbase := txSender; SCC_Number := number;
         SCC_LoopInfo := Strings.Split "#" loopInfo |}],
   <[Types.TxHash tx := {| Sender := txSender; GasPrice := Types.GasPrice tx |}]> refundHash).

Definition processSCEventSetCoinbase (scEventSetCoinbases : list SCSetCoinbase)
    (hash : Common.Hash) (signer coinbase : Common.Address) : list SCSetCoinbase :=
  scEventSetCoinbases ++ [{| SSC_Hash := hash; SSC_Signer := signer; SSC_Coinbase := coinbase |}].

(** *** Proposals *)

(** The draft a proposal command starts from. *)
Definition newProposal (tx : Types.Transaction) (proposer : Common.Address) : Proposal :=
  {| Hash := Types.TxHash tx;
     ReceivedNumber := 0;
     CurrentDeposit := proposalDeposit;
     ValidationLoopCnt := defaultValidationLoopCnt;
     ProposalType := proposalTypeCandidateAdd;
     Proposer := proposer;
     TargetAddress := Common.zeroAddress;
     MinerRewardPerThousand := minerRewardPerThousand;
     SCHash := Common.zeroHash;
     SCBlockCountPerPeriod := 1;
     SCBlockRewardPerPeriod := 0;
     Declares := [];
     MinVoterBalance := Big.Uint64 (minVoterBalance / e18);
     ProposalDeposit := Big.Uint64 (proposalDeposit / e18);
     SCRentFee := 0;
     SCRentRate := 1;
     SCRentLength := defaultSCRentLength |}.

(** One turn of the key/value loop: the draft after the key, or [None]
    where the source returns [currentBlockProposals] at once. *)
Definition proposalField (p : Proposal) (k v : string) : option Proposal :=
  if streq k "vlcnt" then
    match Strconv.Atoi v with
    | Some validationLoopCnt =>
        if (validationLoopCnt <? minValidationLoopCnt)
           || (validationLoopCnt >? maxValidationLoopCnt)
        then None
        else Some (set_ValidationLoopCnt p (uint64_of_int validationLoopCnt))
    | None => None
    end
  else if streq k "schash" then
    Some (set_SCHash p (Hash_UnmarshalText (SCHash p) v))
  else if streq k "sccount" then
    match Strconv.Atoi v with
    | Some scBlockCountPerPeriod =>
        Some (set_SCBlockCountPerPeriod p (uint64_of_int scBlockCountPerPeriod))
    | None => None
    end
  else if streq k "screward" then
    match Strconv.Atoi v with
    | Some scBlockRewardPerPeriod =>
        Some (set_SCBlockRewardPerPeriod p (uint64_of_int scBlockRewardPerPeriod))
    | None => None
    end
  else if streq k "proposal_type" then
    match Strconv.Atoi v with
    | Some proposalType => Some (set_ProposalType p (uint64_of_int proposalType))
    | None => None
    end
  else if streq k "candidate" then
    Some (set_TargetAddress p (Address_UnmarshalText (TargetAddress p) v))
  else if streq k "mrpt" then
    match Strconv.Atoi v with
    | Some mrpt =>
        if (mrpt <=? 0) || (mrpt >? 1000) then None
        else Some (set_MinerRewardPerThousand p (uint64_of_int mrpt))
    | None => None
    end
  else if streq k "mvb" then
    match Strconv.Atoi v with
    | Some mvb =>
        if mvb <=? 0 then None else Some (set_MinVoterBalance p (uint64_of_int mvb))
    | None => None
    end
  else if streq k "mpd" then
    match Strconv.Atoi v with
    | Some mpd =>
        if (mpd <=? 0) || (mpd >? maxProposalDeposit) then None
        else Some (set_ProposalDeposit p (uint64_of_int mpd))
    | None => None
    end
  else if streq k "scrt" then
    Some (set_TargetAddress p (Address_UnmarshalText (TargetAddress p) v))
  else if streq k "scrf" then
    match Strconv.Atoi v with
    | Some scrf =>
        if scrf <? minSCRentFee then None else Some (set_SCRentFee p (uint64_of_int scrf))
    | None => None
    end
  else if streq k "scrr" then
    match Strconv.Atoi v with
    | Some scrr =>
        if scrr <=? 0 then None else Some (set_SCRentRate p (uint64_of_int scrr))
    | None => None
    end
  else if streq k "scrl" then
    match Strconv.Atoi v with
    | Some scrl =>
        if (scrl <? minSCRentLength) || (scrl >? maxSCRentLength) then None
        else Some (set_SCRentLength p (uint64_of_int scrl))
    | None => None
    end
  else Some p.

(** The tokens after the event name, two by two: turn [i] of the loop
    reads [txDataInfo[4+2i]] and [txDataInfo[5+2i]], and a last token
    without a partner is not read. *)
Fixpoint keyValues (l : list string) : list (string * string) :=
  match l with
  | k :: v :: rest => (k, v) :: keyValues rest
  | _ => []
  end.

Fixpoint proposalLoop (p : Proposal) (kvs : list (string * string)) : option Proposal :=
  match kvs with
  | [] => Some p
  | (k, v) :: rest =>
      match proposalField p k v with
      | Some p' => proposalLoop p' rest
      | None => None
      end
  end.

(** What the built proposal costs, or [None] where a rent-side-chain
    proposal names no registered side chain or no target. *)
Definition proposalPay (proposal : Proposal) (snap : Snapshot) : option Z :=
  let currentProposalPay := proposalDeposit in
  if ProposalType proposal =? proposalTypeRentSideChain then
    if negb (isSideChainExist snap (SCHash proposal)) then None
    else if bool_decide (TargetAddress proposal = Common.zeroAddress) then None
    else Some (currentProposalPay + SCRentFee proposal * e18)
  else Some currentProposalPay.

Definition processEventProposal (currentBlockProposals : list Proposal)
    (txDataInfo : list string) (state : StateDB) (tx : Types.Transaction)
    (proposer : Common.Address) (snap : Snapshot) : list Proposal * StateDB :=
  if len txDataInfo <=? Z.of_nat posEventProposal + 2 then (currentBlockProposals, state)
  else
    match proposalLoop (newProposal tx proposer)
                       (keyValues (drop (posEventProposal + 1) txDataInfo)) with
    | None => (currentBlockProposals, state)
    | Some proposal =>
        match proposalPay proposal snap with
        | None => (currentBlockProposals, state)
        | Some currentProposalPay =>
            if GetBalance state proposer <? currentProposalPay
            then (currentBlockProposals, state)
            else (currentBlockProposals ++ [proposal],
                  SetBalance state proposer (GetBalance state proposer - currentProposalPay))
        end
    end.

(** *** Declares and votes *)

Definition declareField (d : Declare_) (k v : string) : option Declare_ :=
  if streq k "hash" then
    Some {| ProposalHash := Hash_UnmarshalText (ProposalHash d) v;
            Declarer := Declarer d; Decision := Decision d |}
  else if streq k "decision" then
    if streq v "yes" then
      Some {| ProposalHash := ProposalHash d; Declarer := Declarer d; Decision := true |}
    else if streq v "no" then
      Some {| ProposalHash := ProposalHash d; Declarer := Declarer d; Decision := false |}
    else None
  else Some d.

Fixpoint declareLoop (d : Declare_) (kvs : list (string * string)) : option Declare_ :=
  match kvs with
  | [] => Some d
  | (k, v) :: rest =>
      match declareField d k v with
      | Some d' => declareLoop d' rest
      | None => None
      end
  end.

Definition processEventDeclare (currentBlockDeclares : list Declare_)
    (txDataInfo : list string) (tx : Types.Transaction) (declarer : Common.Address)
  : list Declare_ :=
  if len txDataInfo <=? Z.of_nat posEventDeclare + 2 then currentBlockDeclares
  else
    match declareLoop {| ProposalHash := Common.zeroHash; Declarer := declarer;
                         Decision := true |}
                      (keyValues (drop (posEventDeclare + 1) txDataInfo)) with
    | None => currentBlockDeclares
    | Some declare => currentBlockDeclares ++ [declare]
    end.

(** [*tx.To()] of a transaction without recipient is a nil dereference:
    the function has no result then. *)
Definition processEventVote (currentBlockVotes : list Vote) (state : StateDB)
    (tx : Types.Transaction) (voter : Common.Address) : option (list Vote) :=
  let stake := GetBalance state voter in
  match Types.To tx with
  | Some to =>
      Some (currentBlockVotes ++ [{| Voter := voter; Candidate := to; Stake := stake |}])
  | None => None
  end.

(** *** Admin commands *)

Definition processAdminPerBlockReward (txDataInfo : list string) : option Z :=
  if len txDataInfo <=? dposMinSplitLen then None
  else Big.SetString10 (tok txDataInfo posAdminEventBlockReward).

Definition processAdminMinerRatio (txDataInfo : list string) : Z :=
  if len txDataInfo <=? dposMinSplitLen then -1
  else
    match Strconv.Atoi (tok txDataInfo posAdminEventMinerRatio) with
    | Some newMinerRatio => if newMinerRatio <? 0 then -1 else newMinerRatio
    | None => -1
    end.

(** The loop of [processAdminSigner] over the signers left to visit;
    [n] is [len(signers)] of the whole slice. *)
Fixpoint adminSignerLoop (n : Z) (op : string) (to : Common.Address)
    (rest newSigners : list Common.Address) (repeated : bool)
  : list Common.Address * bool :=
  match rest with
  | [] => (newSigners, repeated)
  | s :: rest' =>
      if bool_decide (Common.Str s = Common.Str to) then
        if streq op dposAdminDelSigner && (n >? 1)
        then adminSignerLoop n op to rest' newSigners repeated
        else
          adminSignerLoop n op to rest' (newSigners ++ [s])
            (if streq op dposAdminAddSigner then true else repeated)
      else adminSignerLoop n op to rest' (newSigners ++ [s]) repeated
  end.

Definition processAdminSigner (signers : list Common.Address) (op : string)
    (to : Common.Address) : list Common.Address :=
  let '(newSigners, repeated) := adminSignerLoop (len signers) op to signers [] false in
  if negb repeated && streq op dposAdminAddSigner
     && (len newSigners <? int_of_uint64 (Params.MaxSignerCount config))
  then newSigners ++ [to]
  else newSigners.

(** *** Confirmations *)

(** The scan of the recorded signer queue, left at the first match. *)
Fixpoint confirmLoop (queue : list Common.Address)
    (currentBlockConfirmations : list Confirmation) (confirmedBlockNumber : Z)
    (tx : Types.Transaction) (confirmer : Common.Address) (refundHash : RefundHash)
  : list Confirmation * RefundHash :=
  match queue with
  | [] => (currentBlockConfirmations, refundHash)
  | s :: queue' =>
      if bool_decide (s = confirmer) then
        (currentBlockConfirmations ++
           [{| Signer := confirmer; BlockNumber := confirmedBlockNumber |}],
         <[Types.TxHash tx := {| Sender := confirmer; GasPrice := Types.GasPrice tx |}]>
           refundHash)
      else confirmLoop queue' currentBlockConfirmations confirmedBlockNumber tx confirmer
             refundHash
  end.

(** [confirmedHeader.Extra[extraVanity : len(confirmedHeader.Extra)-extraSeal]]. *)
Definition extraPayload (extra : list Byte.byte) : list Byte.byte :=
  take (List.length extra - extraSeal - extraVanity) (drop extraVanity extra).

Definition processEventConfirm (currentBlockConfirmations : list Confirmation)
    (chain : ChainReader) (txDataInfo : list string) (number : Z)
    (tx : Types.Transaction) (confirmer : Common.Address) (refundHash : RefundHash)
  : list Confirmation * RefundHash :=
  if len txDataInfo >? Z.of_nat posEventConfirmNumber then
    match BigInt_UnmarshalText (tok txDataInfo posEventConfirmNumber) with
    | None => (currentBlockConfirmations, refundHash)
    | Some confirmedBlockNumber =>
        if (sub64 number (Big.Uint64 confirmedBlockNumber) >? Params.MaxSignerCount config)
           || (sub64 number (Big.Uint64 confirmedBlockNumber) <? 0)
        then (currentBlockConfirmations, refundHash)
        else
          match GetHeaderByNumber chain (Big.Uint64 confirmedBlockNumber) with
          | None => (currentBlockConfirmations, refundHash)
          | Some confirmedHeader =>
              if Z.of_nat extraVanity + Z.of_nat extraSeal
                 >? len (Types.Extra confirmedHeader)
              then (currentBlockConfirmations, refundHash)
              else
                match decodeHeaderExtra config confirmedBlockNumber
                        (extraPayload (Types.Extra confirmedHeader)) with
                | None => (currentBlockConfirmations, refundHash)
                | Some confirmedHeaderExtra =>
                    confirmLoop (SignerQueue confirmedHeaderExtra)
                      currentBlockConfirmations confirmedBlockNumber tx confirmer
                      refundHash
                end
          end
    end
  else (currentBlockConfirmations, refundHash).

(** *** Stake re-assertion of known voters *)

Definition processPredecessorVoter (modifyPredecessorVotes : list Vote)
    (state : StateDB) (tx : Types.Transaction) (voter : Common.Address)
    (snap : Snapshot) : list Vote :=
  match Types.To tx with
  | Some to =>
      if Types.Value tx >? 0 then
        let votes1 :=
          if isVoter snap voter then
            modifyPredecessorVotes ++
              [{| Voter := voter; Candidate := Common.zeroAddress;
                  Stake := GetBalance state voter |}]
          else modifyPredecessorVotes in
        if isVoter snap to then
          votes1 ++ [{| Voter := to; Candidate := Common.zeroAddress;
                        Stake := GetBalance state to |}]
        else votes1
      else modifyPredecessorVotes
  | None => modifyPredecessorVotes
  end.

(** *** The fold over the transactions of a block *)

(** The body of [if txDataInfo[posCategory] == dposCategoryAdmin]. *)
Definition processAdmin (headerExtra : HeaderExtra) (txDataInfo : list string)
    (tx : Types.Transaction) (txSender : Common.Address) : HeaderExtra :=
  match bool_decide (Common.Str txSender = Common.Str (SignerAdmin headerExtra)),
        Types.To tx with
  | true, Some to =>
      if streq (tok txDataInfo posAdminEvent) dposAdminAddSigner
         || streq (tok txDataInfo posAdminEvent) dposAdminDelSigner
      then
        set_CandidateSigners headerExtra
          (processAdminSigner (CandidateSigners headerExtra)
             (tok txDataInfo posAdminEvent) to)
      else if streq (tok txDataInfo posAdminEvent) dposAdminModifyAdmin then
        if negb (bool_decide (SignerAdmin headerExtra = to))
        then set_SignerAdmin headerExtra to
        else headerExtra
      else if streq (tok txDataInfo posAdminEvent) dposAdminModifyMinerReward then
        match processAdminPerBlockReward txDataInfo with
        | Some newPerBlockReward => set_PerBlockReward headerExtra newPerBlockReward
        | None => headerExtra
        end
      else if streq (tok txDataInfo posAdminEvent) dposAdminModifyMinerRatio then
        let newMinerRatio := processAdminMinerRatio txDataInfo in
        if newMinerRatio >=? 0
        then set_MinerRewardRatio headerExtra (uint64_of_int newMinerRatio)
        else headerExtra
      else headerExtra
  | _, _ => headerExtra
  end.

(** The command dispatch on the payload of one transaction. *)
Definition processData (headerExtra : HeaderExtra) (tx : Types.Transaction)
    (txSender : Common.Address) : HeaderExtra :=
  if strlen (Types.Data tx) >=? strlen dposPrefix then
    let txDataInfo := Strings.Split ":" (Types.Data tx) in
    if len txDataInfo >=? dposMinSplitLen then
      if streq (tok txDataInfo posPrefix) dposPrefix then
        if streq (tok txDataInfo posVersion) dposVersion then
          if streq (tok txDataInfo posCategory) dposCategoryAdmin
          then processAdmin headerExtra txDataInfo tx txSender
          else headerExtra
        else headerExtra
      else headerExtra
    else headerExtra
  else headerExtra.

(** One turn of [for _, tx := range txs]; [snap] is set when
    [number > 1]. *)
Definition processTx (number : Z) (snap : option Snapshot) (state : StateDB)
    (headerExtra : HeaderExtra) (tx : Types.Transaction) : HeaderExtra :=
  match Types.Sender tx with
  | None => headerExtra
  | Some txSender =>
      let headerExtra' := processData headerExtra tx txSender in
      if number >? 1 then
        match snap with
        | Some snap =>
            set_ModifyPredecessorVotes headerExtra'
              (processPredecessorVoter (ModifyPredecessorVotes headerExtra') state tx
                 txSender snap)
        | None => headerExtra'
        end
      else headerExtra'
  end.

(** [processCustomTx]: the accumulator, the refund map ([None] for the
    nil map returned with an error) and the error, if any. The receipts
    the source takes as last argument are not read. *)
Definition processCustomTx (headerExtra : HeaderExtra) (chain : ChainReader)
    (header : Types.Header) (state : StateDB) (txs : list Types.Transaction)
  : HeaderExtra * option RefundGas * option error :=
  let refundGas : RefundGas := ∅ in
  let number := Big.Uint64 (Types.Number header) in
  if number >? 1 then
    match snapshot chain (number - 1) (Types.ParentHash header) with
    | inr err => (headerExtra, None, Some err)
    | inl snap =>
        (fold_left (processTx number (Some snap) state) txs headerExtra,
         Some refundGas, None)
    end
  else (fold_left (processTx number None state) txs headerExtra, Some refundGas, None).

(** ** Vocabulary of the statements *)

(** The accumulator a call of [processCustomTx] returns. *)
Definition accumulator (r : HeaderExtra * option RefundGas * option error) : HeaderExtra :=
  r.1.1.

(** The four fields the admin commands write. *)
Definition adminFields (h : HeaderExtra)
  : list Common.Address * Common.Address * Z * Z :=
  (CandidateSigners h, SignerAdmin h, PerBlockReward h, MinerRewardRatio h).

(** The four record lists the event commands are meant for. *)
Definition eventLists (h : HeaderExtra)
  : list Vote * list Confirmation * list Proposal * list Declare_ :=
  (CurrentBlockVotes h, CurrentBlockConfirmations h, CurrentBlockProposals h,
   CurrentBlockDeclares h).

(** The validator of a proposal key, stated apart from the loop: the
    value of a numeric key is a base-10 integer within the range of that
    key (closed ranges for [vlcnt], [mpd] and [scrl], (0, 1000] for
    [mrpt], a lower bound for [mvb], [scrf] and [scrr], any integer for
    [sccount], [screward] and [proposal_type]); every other key passes. *)
Definition inRange (v : string) (ok : Z -> bool) : bool :=
  match Strconv.Atoi v with
  | Some n => ok n
  | None => false
  end.

Definition fieldValid (k v : string) : bool :=
  if streq k "vlcnt" then
    inRange v (fun n => (minValidationLoopCnt <=? n) && (n <=? maxValidationLoopCnt))
  else if streq k "sccount" then inRange v (fun _ => true)
  else if streq k "screward" then inRange v (fun _ => true)
  else if streq k "proposal_type" then inRange v (fun _ => true)
  else if streq k "mrpt" then inRange v (fun n => (0 <? n) && (n <=? 1000))
  else if streq k "mvb" then inRange v (fun n => 0 <? n)
  else if streq k "mpd" then inRange v (fun n => (0 <? n) && (n <=? maxProposalDeposit))
  else if streq k "scrf" then inRange v (fun n => minSCRentFee <=? n)
  else if streq k "scrr" then inRange v (fun n => 0 <? n)
  else if streq k "scrl" then
    inRange v (fun n => (minSCRentLength <=? n) && (n <=? maxSCRentLength))
  else true.

(** Every key/value pair the loop reads passes its validator. *)
Definition fieldsValid (txDataInfo : list string) : Prop :=
  forall i : nat,
    (5 + 2 * i < List.length txDataInfo)%nat ->
    fieldValid (tok txDataInfo (4 + 2 * i)) (tok txDataInfo (5 + 2 * i)) = true.

(** A confirm command is acceptable for the block number [confirmed]:
    the positional number parses to it, its age in [uint64] arithmetic is
    at most [MaxSignerCount], the header at that number exists, its
    extra-data holds a payload that decodes, and the confirmer is in the
    signer queue recorded there. *)
Definition confirmAcceptable (chain : ChainReader) (txDataInfo : list string)
    (number : Z) (confirmer : Common.Address) (confirmed : Z) : Prop :=
  exists text confirmedHeader confirmedHeaderExtra,
    txDataInfo !! posEventConfirmNumber = Some text /\
    BigInt_UnmarshalText text = Some confirmed /\
    sub64 number (Big.Uint64 confirmed) <= Params.MaxSignerCount config /\
    GetHeaderByNumber chain (Big.Uint64 confirmed) = Some confirmedHeader /\
    (extraVanity + extraSeal <= List.length (Types.Extra confirmedHeader))%nat /\
    decodeHeaderExtra config confirmed (extraPayload (Types.Extra confirmedHeader))
      = Some confirmedHeaderExtra /\
    confirmer ∈ SignerQueue confirmedHeaderExtra.

(** What no key of a proposal command can change. *)
Definition proposalFixed (p : Proposal) : Common.Hash * Z * Z * Common.Address * list Declare_ :=
  (Hash p, ReceivedNumber p, CurrentDeposit p, Proposer p, Declares p).

(** The cost of a proposal in the words of the specification: the fixed
    deposit, and for a rent-side-chain proposal the rent fee in base
    units on top. *)
Definition proposalCost (proposal : Proposal) : Z :=
  if ProposalType proposal =? proposalTypeRentSideChain
  then proposalDeposit + SCRentFee proposal * e18
  else proposalDeposit.

(** A rent-side-chain proposal names a registered side chain and a target
    other than the zero address; other proposals need neither. *)
Definition rentTargetKnown (proposal : Proposal) (snap : Snapshot) : Prop :=
  ProposalType proposal = proposalTypeRentSideChain ->
  isSideChainExist snap (SCHash proposal) = true /\
  TargetAddress proposal <> Common.zeroAddress.

(** ** Frame lemmas of the fold *)

Lemma processAdmin_eventLists headerExtra txDataInfo tx txSender :
  eventLists (processAdmin headerExtra txDataInfo tx txSender) = eventLists headerExtra.
Proof.
  unfold processAdmin.
  destruct (bool_decide _); [| reflexivity].
  destruct (Types.To tx); [| reflexivity].
  repeat match goal with
         | |- context [if ?b then _ else _] => destruct b
         | |- context [match ?o with Some _ => _ | None => _ end] => destruct o
         end; reflexivity.
Qed.

Lemma processData_eventLists headerExtra tx txSender :
  eventLists (processData headerExtra tx txSender) = eventLists headerExtra.
Proof.
  unfold processData.
  repeat match goal with
         | |- context [if ?b then _ else _] => destruct b
         end; auto using processAdmin_eventLists.
Qed.

Lemma processTx_eventLists number snap state headerExtra tx :
  eventLists (processTx number snap state headerExtra tx) = eventLists headerExtra.
Proof.
  unfold processTx.
  destruct (Types.Sender tx); [| reflexivity].
  destruct (number >? 1); [destruct snap |]; apply processData_eventLists.
Qed.

Lemma fold_processTx_eventLists number snap state txs headerExtra :
  eventLists (fold_left (processTx number snap state) txs headerExtra)
  = eventLists headerExtra.
Proof.
  revert headerExtra.
  induction txs as [| tx txs IH]; intros headerExtra; simpl; [reflexivity |].
  rewrite IH. apply processTx_eventLists.
Qed.

Lemma processTx_adminFields_after_data number snap state headerExtra tx txSender :
  Types.Sender tx = Some txSender ->
  adminFields (processTx number snap state headerExtra tx)
  = adminFields (processData headerExtra tx txSender).
Proof.
  intros Hs. unfold processTx. rewrite Hs.
  destruct (number >? 1); [destruct snap |]; reflexivity.
Qed.

Lemma processData_not_admin headerExtra tx txSender :
  Common.Str txSender <> Common.Str (SignerAdmin headerExtra) ->
  processData headerExtra tx txSender = headerExtra.
Proof.
  intros Hne. unfold processData, processAdmin.
  rewrite bool_decide_eq_false_2 by exact Hne.
  repeat match goal with
         | |- context [if ?b then _ else _] => destruct b
         end; reflexivity.
Qed.

Lemma processData_nil_To headerExtra tx txSender :
  Types.To tx = None ->
  processData headerExtra tx txSender = headerExtra.
Proof.
  intros Hto. unfold processData, processAdmin. rewrite Hto.
  repeat match goal with
         | |- context [if ?b then _ else _] => destruct b
         end; reflexivity.
Qed.

(** The accumulator of a block extended by one transaction is one more
    turn of the loop on the accumulator of the block. *)
Lemma processCustomTx_snoc headerExtra chain header state txs tx :
  exists number snap,
    accumulator (processCustomTx headerExtra chain header state (txs ++ [tx]))
    = processTx number snap state
        (accumulator (processCustomTx headerExtra chain header state txs)) tx
    \/ (accumulator (processCustomTx headerExtra chain header state (txs ++ [tx]))
        = headerExtra /\
        accumulator (processCustomTx headerExtra chain header state txs) = headerExtra).
Proof.
  unfold processCustomTx.
  exists (Big.Uint64 (Types.Number header)).
  destruct (Big.Uint64 (Types.Number header) >? 1).
  - destruct (snapshot _ _ _) as [snap | err].
    + exists (Some snap). left. unfold accumulator. simpl.
      rewrite fold_left_app. reflexivity.
    + exists None. right. split; reflexivity.
  - exists None. left. unfold accumulator. simpl.
    rewrite fold_left_app. reflexivity.
Qed.

(** ** The fold leaves the event lists alone *)

(** C3, what the code does where its comments promise the merge ("Calculate
    Votes from transaction in this block, write into header.Extra"; "vote
    come from custom tx", and the same for confirmation, proposal and
    declare): whatever the transactions of a block carry,
    well-formed [event] commands ([vote], [confirm], [proposal],
    [declare]) included, [processCustomTx] returns the vote, confirmation,
    proposal and declare lists of the accumulator it was given, and a
    refund map, when it returns one, without entry; the dispatch knows the
    [admin] category only, and the four event handlers have no caller. *)
Theorem processCustomTx_keeps_event_lists headerExtra chain header state txs :
  eventLists (accumulator (processCustomTx headerExtra chain header state txs))
  = eventLists headerExtra
  /\ forall refundGas : RefundGas,
       snd (fst (processCustomTx headerExtra chain header state txs)) = Some refundGas ->
       refundGas = ∅.
Proof.
  unfold processCustomTx, accumulator.
  destruct (Big.Uint64 (Types.Number header) >? 1).
  - destruct (snapshot _ _ _) as [snap | err]; simpl.
    + split; [apply fold_processTx_eventLists |].
      intros refundGas Hr. injection Hr as <-. reflexivity.
    + split; [reflexivity |]. intros refundGas Hr. discriminate Hr.
  - simpl. split; [apply fold_processTx_eventLists |].
    intros refundGas Hr. injection Hr as <-. reflexivity.
Qed.

(** C9: when [processCustomTx] returns without error, the refund map it
    returns is the empty map. *)
Theorem processCustomTx_refund_empty headerExtra chain header state txs
    headerExtra' refundGas :
  processCustomTx headerExtra chain header state txs = (headerExtra', refundGas, None) ->
  refundGas = Some ∅ /\ (forall m : RefundGas, refundGas = Some m -> size m = 0%nat).
Proof.
  unfold processCustomTx. intros H.
  assert (refundGas = Some ∅) as ->.
  { destruct (Big.Uint64 (Types.Number header) >? 1).
    - destruct (snapshot _ _ _) as [snap | err]; inversion H; reflexivity.
    - inversion H; reflexivity. }
  split; [reflexivity |].
  intros m Hm. inversion Hm. apply map_size_empty.
Qed.

(** ** Admin commands need the admin and a recipient *)

(** C5: a transaction whose recovered sender is not, byte for byte, the
    [SignerAdmin] of the accumulator built so far leaves the candidate
    signers, the admin, the block reward and the miner ratio as they
    were, whatever command it carries ([adds], [dels], [modadmin],
    [modreward], [modratio] among them). *)
Theorem processCustomTx_foreign_sender_frame headerExtra chain header state txs tx :
  (forall txSender,
      Types.Sender tx = Some txSender ->
      Common.Str txSender
      <> Common.Str
           (SignerAdmin (accumulator (processCustomTx headerExtra chain header state txs)))) ->
  adminFields (accumulator (processCustomTx headerExtra chain header state (txs ++ [tx])))
  = adminFields (accumulator (processCustomTx headerExtra chain header state txs)).
Proof.
  intros Hne.
  destruct (processCustomTx_snoc headerExtra chain header state txs tx)
    as (number & snap & [Hstep | [H1 H2]]).
  - rewrite Hstep.
    destruct (Types.Sender tx) as [txSender |] eqn:Hs.
    + rewrite (processTx_adminFields_after_data _ _ _ _ _ _ Hs).
      rewrite processData_not_admin; [reflexivity | apply Hne; reflexivity].
    + unfold processTx. rewrite Hs. reflexivity.
  - rewrite H1, H2. reflexivity.
Qed.

(** C10: a transaction without recipient ([tx.To()] nil) leaves the
    candidate signers, the admin, the block reward and the miner ratio as
    they were, also when its sender is the admin and the command is
    [modreward] or [modratio], which carry their value in the payload. *)
Theorem processCustomTx_nil_recipient_frame headerExtra chain header state txs tx :
  Types.To tx = None ->
  adminFields (accumulator (processCustomTx headerExtra chain header state (txs ++ [tx])))
  = adminFields (accumulator (processCustomTx headerExtra chain header state txs)).
Proof.
  intros Hto.
  destruct (processCustomTx_snoc headerExtra chain header state txs tx)
    as (number & snap & [Hstep | [H1 H2]]).
  - rewrite Hstep.
    destruct (Types.Sender tx) as [txSender |] eqn:Hs.
    + rewrite (processTx_adminFields_after_data _ _ _ _ _ _ Hs).
      rewrite processData_nil_To by exact Hto. reflexivity.
    + unfold processTx. rewrite Hs. reflexivity.
  - rewrite H1, H2. reflexivity.
Qed.

(** ** Votes *)

(** C8: on a transaction with a recipient, [processEventVote] returns the
    votes it was given followed by one more, whose voter is the sender,
    whose candidate is the recipient and whose stake is the sender's
    balance in the state at that moment. *)
Theorem processEventVote_appends_one currentBlockVotes state tx voter to :
  Types.To tx = Some to ->
  processEventVote currentBlockVotes state tx voter
  = Some (currentBlockVotes ++
            [{| Voter := voter; Candidate := to; Stake := GetBalance state voter |}]).
Proof.
  intros Hto. unfold processEventVote. rewrite Hto. reflexivity.
Qed.

(** ** Proposals: validators *)

(** The pairs of [keyValues] are the tokens at even and odd positions. *)
Lemma keyValues_lookup (l : list string) (i : nat) :
  keyValues l !! i
  = match l !! (2 * i)%nat, l !! (2 * i + 1)%nat with
    | Some k, Some v => Some (k, v)
    | _, _ => None
    end.
Proof.
  revert l. induction i as [| i IH]; intros [| k [| v rest]]; try reflexivity.
  - simpl keyValues. rewrite lookup_cons_ne_0 by lia. simpl pred. rewrite IH.
    replace (2 * S i)%nat with (S (S (2 * i))) by lia.
    replace (S (S (2 * i)) + 1)%nat with (S (S (2 * i + 1))) by lia.
    reflexivity.
Qed.

(** Turn [i] of the loop of [processEventProposal] exists exactly when
    tokens [4+2i] and [5+2i] do, and reads those two. *)
Lemma keyValues_tokens (txDataInfo : list string) (i : nat) :
  keyValues (drop (posEventProposal + 1) txDataInfo) !! i
  = if decide (5 + 2 * i < List.length txDataInfo)%nat
    then Some (tok txDataInfo (4 + 2 * i), tok txDataInfo (5 + 2 * i))
    else None.
Proof.
  rewrite keyValues_lookup, !lookup_drop. unfold posEventProposal, tok.
  replace (3 + 1 + 2 * i)%nat with (4 + 2 * i)%nat by lia.
  replace (3 + 1 + (2 * i + 1))%nat with (5 + 2 * i)%nat by lia.
  destruct (decide _) as [Hlt | Hge].
  - destruct (lookup_lt_is_Some_2 txDataInfo (4 + 2 * i)%nat ltac:(lia)) as [k ->].
    destruct (lookup_lt_is_Some_2 txDataInfo (5 + 2 * i)%nat ltac:(lia)) as [v ->].
    reflexivity.
  - rewrite (lookup_ge_None_2 txDataInfo (5 + 2 * i)%nat) by lia.
    destruct (txDataInfo !! _); reflexivity.
Qed.

Ltac split_field k v :=
  unfold streq;
  repeat match goal with
         | |- context [String.eqb k ?s] =>
             let E := fresh "E" in
             destruct (String.eqb k s) eqn:E;
             [apply String.eqb_eq in E; subst k; simpl |]
         end;
  try (destruct (Strconv.Atoi v) as [n |]; simpl).

Ltac compare_bounds :=
  unfold minValidationLoopCnt, maxValidationLoopCnt, maxProposalDeposit, minSCRentFee,
    maxSCRentLength, defaultSCRentLength, minSCRentLength in *;
  repeat match goal with
         | |- context [Z.ltb ?a ?b] => destruct (Z.ltb_spec a b)
         | |- context [Z.leb ?a ?b] => destruct (Z.leb_spec a b)
         | |- context [Z.gtb ?a ?b] => destruct (Z.gtb_spec a b)
         end;
  simpl.

(** The loop leaves at a key exactly when the validator of the
    specification fails on it. *)
Lemma proposalField_None_iff p k v :
  proposalField p k v = None <-> fieldValid k v = false.
Proof.
  unfold proposalField, fieldValid, inRange.
  split_field k v; compare_bounds;
    split; intros Hgoal; try discriminate Hgoal; try reflexivity; try lia.
Qed.

Lemma proposalLoop_None p kvs i k v :
  kvs !! i = Some (k, v) ->
  fieldValid k v = false ->
  proposalLoop p kvs = None.
Proof.
  revert p i. induction kvs as [| [k0 v0] kvs IH]; intros p i Hi Hbad.
  - discriminate Hi.
  - simpl. destruct i as [| i].
    + inversion Hi; subst.
      apply (proj2 (proposalField_None_iff p k v)) in Hbad. rewrite Hbad. reflexivity.
    + destruct (proposalField p k0 v0); [| reflexivity].
      eapply IH; eauto.
Qed.

Lemma proposalLoop_Some p kvs :
  (forall i k v, kvs !! i = Some (k, v) -> fieldValid k v = true) ->
  exists p', proposalLoop p kvs = Some p'.
Proof.
  revert p. induction kvs as [| [k0 v0] kvs IH]; intros p Hok.
  - exists p. reflexivity.
  - simpl. destruct (proposalField p k0 v0) as [p' |] eqn:Hf.
    + apply IH. intros i k v Hi. apply (Hok (S i)). exact Hi.
    + apply (proj1 (proposalField_None_iff p k0 v0)) in Hf.
      rewrite (Hok 0%nat k0 v0 eq_refl) in Hf. discriminate Hf.
Qed.

Lemma proposalField_fixed p k v p' :
  proposalField p k v = Some p' -> proposalFixed p' = proposalFixed p.
Proof.
  unfold proposalField.
  split_field k v;
    repeat match goal with
           | |- context [if ?b then _ else _] => destruct b
           end;
    intros Hgoal; inversion Hgoal; reflexivity.
Qed.

Lemma proposalLoop_fixed kvs p p' :
  proposalLoop p kvs = Some p' -> proposalFixed p' = proposalFixed p.
Proof.
  revert p. induction kvs as [| [k v] kvs IH]; intros p H; simpl in H.
  - inversion H. reflexivity.
  - destruct (proposalField p k v) as [q |] eqn:Hf; [| discriminate H].
    rewrite (IH _ H). eapply proposalField_fixed; eauto.
Qed.

(** ** Proposals: rejection and the balance check *)

(** C1: when a key/value pair the loop reads fails the validator of its
    key ([vlcnt], [sccount], [screward], [proposal_type], [mrpt], [mvb],
    [mpd], [scrf], [scrr], [scrl]), [processEventProposal] returns the
    proposal list and the state it was given: nothing is appended and the
    proposer is not debited. *)
Theorem processEventProposal_rejects_invalid_field currentBlockProposals txDataInfo
    state tx proposer snap (i : nat) :
  (5 + 2 * i < List.length txDataInfo)%nat ->
  fieldValid (tok txDataInfo (4 + 2 * i)) (tok txDataInfo (5 + 2 * i)) = false ->
  processEventProposal currentBlockProposals txDataInfo state tx proposer snap
  = (currentBlockProposals, state)
  /\ GetBalance
       (snd (processEventProposal currentBlockProposals txDataInfo state tx proposer snap))
       proposer
     = GetBalance state proposer.
Proof.
  intros Hi Hbad.
  assert (processEventProposal currentBlockProposals txDataInfo state tx proposer snap
          = (currentBlockProposals, state)) as ->; [| split; reflexivity].
  unfold processEventProposal.
  destruct (len txDataInfo <=? Z.of_nat posEventProposal + 2); [reflexivity |].
  erewrite proposalLoop_None; [reflexivity | | exact Hbad].
  rewrite keyValues_tokens. rewrite decide_True by exact Hi. reflexivity.
Qed.

Lemma proposalPay_spec proposal snap :
  proposalPay proposal snap
  = if decide (rentTargetKnown proposal snap) then Some (proposalCost proposal) else None.
Proof.
  unfold proposalPay, proposalCost, rentTargetKnown.
  destruct (Z.eqb_spec (ProposalType proposal) proposalTypeRentSideChain) as [Heq | Hne].
  - destruct (isSideChainExist snap (SCHash proposal)); simpl.
    + case_bool_decide as Hz.
      * rewrite decide_False; [reflexivity |]. intros H. destruct (H Heq) as [_ Hnz]. auto.
      * rewrite decide_True; [reflexivity |]. auto.
    + rewrite decide_False; [reflexivity |]. intros H. destruct (H Heq) as [Hf _].
      discriminate Hf.
  - rewrite decide_True; [reflexivity |]. intros Heq. contradiction.
Qed.

(** C2, as the code has it. A proposal command of five tokens or fewer
    (one without a key/value pair) is dropped whatever the balance: list
    and state come back as given. A proposal command with at least one
    key/value pair (more than five tokens) whose pairs all pass
    their validators builds a proposal carrying the transaction hash, the
    proposer and the fixed deposit; its cost is the fixed deposit, plus
    the rent fee times 1e18 for a rent-side-chain proposal; it is
    appended, and the proposer debited by exactly the cost (the balance
    staying non-negative), when a rent-side-chain proposal names a
    registered side chain and a non-zero target and the balance is at
    least the cost; otherwise list and state come back as given. *)
Theorem processEventProposal_deposit_check currentBlockProposals txDataInfo state tx
    proposer snap :
  ((List.length txDataInfo <= 5)%nat ->
   processEventProposal currentBlockProposals txDataInfo state tx proposer snap
   = (currentBlockProposals, state))
  /\
  ((5 < List.length txDataInfo)%nat ->
   fieldsValid txDataInfo ->
   exists proposal,
     proposalLoop (newProposal tx proposer)
       (keyValues (drop (posEventProposal + 1) txDataInfo)) = Some proposal /\
     Hash proposal = Types.TxHash tx /\
     Proposer proposal = proposer /\
     CurrentDeposit proposal = proposalDeposit /\
     (rentTargetKnown proposal snap /\ proposalCost proposal <= GetBalance state proposer ->
      processEventProposal currentBlockProposals txDataInfo state tx proposer snap
      = (currentBlockProposals ++ [proposal],
         SetBalance state proposer (GetBalance state proposer - proposalCost proposal))
      /\ GetBalance
           (snd (processEventProposal currentBlockProposals txDataInfo state tx proposer
                   snap))
           proposer
         = GetBalance state proposer - proposalCost proposal
      /\ 0 <= GetBalance state proposer - proposalCost proposal) /\
     (~ (rentTargetKnown proposal snap
         /\ proposalCost proposal <= GetBalance state proposer) ->
      processEventProposal currentBlockProposals txDataInfo state tx proposer snap
      = (currentBlockProposals, state))).
Proof.
  split.
  { intros Hshort. unfold processEventProposal.
    replace (len txDataInfo <=? Z.of_nat posEventProposal + 2) with true
      by (symmetry; apply Z.leb_le; unfold len, posEventProposal; lia).
    reflexivity. }
  intros Hlen Hvalid.
  destruct (proposalLoop_Some (newProposal tx proposer)
              (keyValues (drop (posEventProposal + 1) txDataInfo))) as [proposal Hloop].
  { intros i k v Hi. rewrite keyValues_tokens in Hi.
    destruct (decide _) as [Hlt |]; [| discriminate Hi].
    inversion Hi; subst. apply Hvalid. exact Hlt. }
  exists proposal.
  pose proof (proposalLoop_fixed _ _ _ Hloop) as Hfix.
  unfold proposalFixed in Hfix. simpl in Hfix.
  injection Hfix as Hh Hr Hd Hp Hdecl.
  assert ((len txDataInfo <=? Z.of_nat posEventProposal + 2) = false) as Hguard
    by (apply Z.leb_gt; unfold len, posEventProposal; lia).
  split; [exact Hloop |]. split; [exact Hh |]. split; [exact Hp |].
  split; [exact Hd |].
  unfold processEventProposal. rewrite Hguard, Hloop, proposalPay_spec.
  split.
  - intros [Hknown Hcost].
    rewrite decide_True by exact Hknown.
    replace (GetBalance state proposer <? proposalCost proposal) with false
      by (symmetry; apply Z.ltb_ge; lia).
    split; [reflexivity |]. split; [| lia].
    simpl. unfold GetBalance, SetBalance. rewrite lookup_insert_eq. reflexivity.
  - intros Hno.
    destruct (decide (rentTargetKnown proposal snap)) as [Hknown |]; [| reflexivity].
    destruct (Z.ltb_spec (GetBalance state proposer) (proposalCost proposal)); [reflexivity |].
    exfalso. apply Hno. split; assumption.
Qed.

(** ** Confirmations *)

Lemma confirmLoop_spec queue currentBlockConfirmations confirmed tx confirmer
    (refundHash : RefundHash) :
  confirmLoop queue currentBlockConfirmations confirmed tx confirmer refundHash
  = if decide (confirmer ∈ queue)
    then (currentBlockConfirmations ++ [{| Signer := confirmer; BlockNumber := confirmed |}],
          <[Types.TxHash tx := {| Sender := confirmer; GasPrice := Types.GasPrice tx |}]>
            refundHash)
    else (currentBlockConfirmations, refundHash).
Proof.
  induction queue as [| s queue IH]; cbn [confirmLoop].
  - rewrite decide_False; [reflexivity | apply not_elem_of_nil].
  - case_bool_decide as Hs.
    + subst s. rewrite decide_True; [reflexivity | apply elem_of_cons; left; reflexivity].
    + rewrite IH. destruct (decide (confirmer ∈ queue)) as [Hin | Hout].
      * rewrite decide_True; [reflexivity | apply elem_of_cons; right; exact Hin].
      * rewrite decide_False; [reflexivity |].
        intros Hc. apply elem_of_cons in Hc as [-> | Hc]; [apply Hs; reflexivity | auto].
Qed.

Lemma sub64_nonneg a b : 0 <= sub64 a b.
Proof. unfold sub64, wrap64. apply Z.mod_pos_bound. lia. Qed.

(** The two ways out of [processEventConfirm]. *)
Lemma processEventConfirm_cases currentBlockConfirmations chain txDataInfo number tx
    confirmer (refundHash : RefundHash) :
  (processEventConfirm currentBlockConfirmations chain txDataInfo number tx confirmer
     refundHash = (currentBlockConfirmations, refundHash)
   /\ forall confirmed, ~ confirmAcceptable chain txDataInfo number confirmer confirmed)
  \/ (exists confirmed,
        confirmAcceptable chain txDataInfo number confirmer confirmed /\
        processEventConfirm currentBlockConfirmations chain txDataInfo number tx confirmer
          refundHash
        = (currentBlockConfirmations ++
             [{| Signer := confirmer; BlockNumber := confirmed |}],
           <[Types.TxHash tx := {| Sender := confirmer; GasPrice := Types.GasPrice tx |}]>
             refundHash)).
Proof.
  unfold processEventConfirm.
  destruct (Z.gtb_spec (len txDataInfo) (Z.of_nat posEventConfirmNumber)) as [Hlen | Hlen].
  2:{ left. split; [reflexivity |].
      intros confirmed (text & hdr & hx & Htext & _).
      apply lookup_lt_Some in Htext. unfold len in Hlen. lia. }
  destruct (lookup_lt_is_Some_2 txDataInfo posEventConfirmNumber) as [text Htext].
  { unfold len in Hlen. lia. }
  unfold tok. rewrite Htext. simpl default.
  destruct (BigInt_UnmarshalText text) as [confirmed |] eqn:Hparse.
  2:{ left. split; [reflexivity |].
      intros confirmed (text' & hdr & hx & Htext' & Hparse' & _). congruence. }
  destruct (Z.gtb_spec (sub64 number (Big.Uint64 confirmed)) (Params.MaxSignerCount config))
    as [Hage | Hage]; simpl orb.
  { left. split; [reflexivity |].
    intros confirmed' (text' & hdr & hx & Htext' & Hparse' & Hage' & _).
    assert (confirmed' = confirmed) as -> by congruence. lia. }
  destruct (Z.ltb_spec (sub64 number (Big.Uint64 confirmed)) 0) as [Hneg | _].
  { pose proof (sub64_nonneg number (Big.Uint64 confirmed)). lia. }
  destruct (GetHeaderByNumber chain (Big.Uint64 confirmed)) as [hdr |] eqn:Hhdr.
  2:{ left. split; [reflexivity |].
      intros confirmed' (text' & hdr' & hx & Htext' & Hparse' & _ & Hhdr' & _).
      assert (confirmed' = confirmed) as -> by congruence. congruence. }
  destruct (Z.gtb_spec (Z.of_nat extraVanity + Z.of_nat extraSeal) (len (Types.Extra hdr)))
    as [Hshort | Hlong].
  { left. split; [reflexivity |].
    intros confirmed' (text' & hdr' & hx & Htext' & Hparse' & _ & Hhdr' & Hlong & _).
    assert (confirmed' = confirmed) as -> by congruence.
    assert (hdr' = hdr) as -> by congruence. unfold len in Hshort. lia. }
  destruct (decodeHeaderExtra config confirmed (extraPayload (Types.Extra hdr)))
    as [hx |] eqn:Hdec.
  2:{ left. split; [reflexivity |].
      intros confirmed' (text' & hdr' & hx & Htext' & Hparse' & _ & Hhdr' & _ & Hdec' & _).
      assert (confirmed' = confirmed) as -> by congruence.
      assert (hdr' = hdr) as -> by congruence. congruence. }
  rewrite confirmLoop_spec.
  destruct (decide (confirmer ∈ SignerQueue hx)) as [Hin | Hout].
  - right. exists confirmed. split; [| reflexivity].
    exists text, hdr, hx. unfold len in Hlong. repeat split; auto; lia.
  - left. split; [reflexivity |].
    intros confirmed' (text' & hdr' & hx' & Htext' & Hparse' & _ & Hhdr' & _ & Hdec' & Hin).
    assert (confirmed' = confirmed) as -> by congruence.
    assert (hdr' = hdr) as -> by congruence.
    assert (hx' = hx) as -> by congruence. contradiction.
Qed.

Lemma confirmAcceptable_unique chain txDataInfo number confirmer confirmed confirmed' :
  confirmAcceptable chain txDataInfo number confirmer confirmed ->
  confirmAcceptable chain txDataInfo number confirmer confirmed' ->
  confirmed = confirmed'.
Proof.
  intros (t & ? & ? & Ht & Hp & _) (t' & ? & ? & Ht' & Hp' & _). congruence.
Qed.


(** ** The signer set *)

Lemma adminSignerLoop_adds n to rest newSigners repeated :
  adminSignerLoop n dposAdminAddSigner to rest newSigners repeated
  = (newSigners ++ rest, repeated || bool_decide (to ∈ rest)).
Proof.
  revert newSigners repeated.
  induction rest as [| s rest IH]; intros newSigners repeated; cbn [adminSignerLoop].
  - rewrite app_nil_r, bool_decide_eq_false_2 by apply not_elem_of_nil.
    rewrite orb_false_r. reflexivity.
  - unfold Common.Str. change (streq dposAdminAddSigner dposAdminDelSigner) with false.
    change (streq dposAdminAddSigner dposAdminAddSigner) with true. cbn [andb].
    destruct (bool_decide_reflect (s = to)) as [-> | Hs].
    + rewrite IH, <- app_assoc. simpl app.
      rewrite (bool_decide_eq_true_2 (to ∈ to :: rest))
        by (apply elem_of_cons; left; reflexivity).
      rewrite orb_true_r. reflexivity.
    + rewrite IH, <- app_assoc. simpl app. f_equal. f_equal.
      apply bool_decide_ext. rewrite elem_of_cons. split; [auto |].
      intros [Heq | Hin]; [congruence | exact Hin].
Qed.

Lemma adminSignerLoop_dels n to rest newSigners repeated :
  adminSignerLoop n dposAdminDelSigner to rest newSigners repeated
  = (newSigners ++ (if n >? 1 then filter (fun s => s <> to) rest else rest), repeated).
Proof.
  revert newSigners.
  induction rest as [| s rest IH]; intros newSigners; cbn [adminSignerLoop].
  - destruct (n >? 1); rewrite ?filter_nil, app_nil_r; reflexivity.
  - unfold Common.Str. change (streq dposAdminDelSigner dposAdminDelSigner) with true.
    change (streq dposAdminDelSigner dposAdminAddSigner) with false. cbn [andb].
    destruct (bool_decide_reflect (s = to)) as [-> | Hs].
    + destruct (n >? 1) eqn:Hn.
      * rewrite IH, ?Hn. rewrite filter_cons_False by (intros Hne; apply Hne; reflexivity).
        reflexivity.
      * rewrite IH, ?Hn, <- app_assoc. reflexivity.
    + rewrite IH, <- app_assoc. simpl app.
      destruct (n >? 1); [| reflexivity].
      rewrite filter_cons_True by exact Hs. reflexivity.
Qed.

(** [adds]: the signers as they were when the target is among them or
    their number is not below [int(MaxSignerCount)], and followed by the
    target otherwise. *)
Lemma processAdminSigner_adds signers to :
  processAdminSigner signers dposAdminAddSigner to
  = if bool_decide (to ∈ signers) then signers
    else if len signers <? int_of_uint64 (Params.MaxSignerCount config)
         then signers ++ [to]
         else signers.
Proof.
  unfold processAdminSigner. rewrite adminSignerLoop_adds. simpl app. simpl orb.
  change (streq dposAdminAddSigner dposAdminAddSigner) with true.
  destruct (bool_decide (to ∈ signers)); simpl; [reflexivity |].
  destruct (len signers <? _); reflexivity.
Qed.

(** [dels]: every entry equal to the target goes when the slice has more
    than one entry, and nothing changes otherwise. *)
Lemma processAdminSigner_dels signers to :
  processAdminSigner signers dposAdminDelSigner to
  = if len signers >? 1 then filter (fun s => s <> to) signers else signers.
Proof.
  unfold processAdminSigner. rewrite adminSignerLoop_dels. simpl app.
  change (streq dposAdminDelSigner dposAdminAddSigner) with false.
  rewrite andb_false_r. simpl. reflexivity.
Qed.

(** Below 2^63 the conversion of [MaxSignerCount] to [int] is the
    identity, and on a slice without repetition the two commands do what
    the specification says: [adds] appends unless the target is present or
    the maximum is reached; [dels] removes the target unless it is the
    only signer; the other signers keep their order. *)
Lemma processAdminSigner_on_sets signers to :
  0 <= Params.MaxSignerCount config < 2 ^ 63 ->
  NoDup signers ->
  (to ∈ signers \/ Params.MaxSignerCount config <= len signers ->
   processAdminSigner signers dposAdminAddSigner to = signers) /\
  (to ∉ signers -> len signers < Params.MaxSignerCount config ->
   processAdminSigner signers dposAdminAddSigner to = signers ++ [to]) /\
  (signers = [to] -> processAdminSigner signers dposAdminDelSigner to = signers) /\
  (to ∉ signers -> processAdminSigner signers dposAdminDelSigner to = signers) /\
  (forall before after,
      signers = before ++ to :: after -> before ++ after <> [] ->
      processAdminSigner signers dposAdminDelSigner to = before ++ after).
Proof.
  intros Hmax Hnodup.
  assert (int_of_uint64 (Params.MaxSignerCount config) = Params.MaxSignerCount config)
    as Hint.
  { unfold int_of_uint64. destruct (Z.ltb_spec (Params.MaxSignerCount config) (2 ^ 63));
      [reflexivity | lia]. }
  assert (forall l : list Common.Address, to ∉ l -> filter (fun s => s <> to) l = l)
    as Hkeep.
  { intros l. induction l as [| s l IH]; intros Hout; [reflexivity |].
    apply not_elem_of_cons in Hout as [Hne Hout].
    rewrite filter_cons_True by congruence. rewrite IH by exact Hout. reflexivity. }
  rewrite !processAdminSigner_adds, !processAdminSigner_dels, Hint.
  repeat split.
  - intros [Hin | Hfull].
    + rewrite bool_decide_eq_true_2 by exact Hin. reflexivity.
    + destruct (bool_decide (to ∈ signers)); [reflexivity |].
      destruct (Z.ltb_spec (len signers) (Params.MaxSignerCount config));
        [lia | reflexivity].
  - intros Hout Hroom. rewrite bool_decide_eq_false_2 by exact Hout.
    destruct (Z.ltb_spec (len signers) (Params.MaxSignerCount config));
      [reflexivity | lia].
  - intros ->. reflexivity.
  - intros Hout. rewrite Hkeep by exact Hout. destruct (len signers >? 1); reflexivity.
  - intros before after -> Hrest.
    apply NoDup_app in Hnodup as (Hb & Hba & Ha).
    apply NoDup_cons in Ha as [Hta Ha].
    assert (to ∉ before) as Htb.
    { intros Hin. apply (Hba to Hin). apply elem_of_cons. left. reflexivity. }
    replace (len (before ++ to :: after) >? 1) with true.
    2:{ symmetry. apply Z.gtb_lt. unfold len. rewrite length_app. simpl.
        destruct before, after; simpl; try lia. contradiction. }
    rewrite filter_app, filter_cons_False by (intros Hne; apply Hne; reflexivity).
    rewrite !Hkeep by assumption. reflexivity.
Qed.

(** ** Encoder and decoder *)

(** Both directions use the one codec for every configuration and block
    number: what [encodeHeaderExtra] produces decodes under
    [decodeHeaderExtra] exactly when it decodes under the codec itself. *)
Lemma decode_encode_is_codec cfg number val b :
  encodeHeaderExtra cfg number val = Some b ->
  rlp_EncodeToBytes val = Some b /\ decodeHeaderExtra cfg number b = rlp_DecodeBytes b.
Proof. intros H. split; [exact H | reflexivity]. Qed.

(** ** More on the signer set *)

Lemma adminSignerLoop_other n op to rest newSigners repeated :
  streq op dposAdminAddSigner = false ->
  adminSignerLoop n op to rest newSigners repeated
  = (newSigners ++
       (if streq op dposAdminDelSigner && (n >? 1)
        then filter (fun s => s <> to) rest else rest),
     repeated).
Proof.
  intros Hop. revert newSigners.
  induction rest as [| s rest IH]; intros newSigners; cbn [adminSignerLoop].
  - destruct (_ && _); rewrite ?filter_nil, app_nil_r; reflexivity.
  - unfold Common.Str. rewrite Hop.
    destruct (bool_decide_reflect (s = to)) as [-> | Hs];
      destruct (streq op dposAdminDelSigner && (n >? 1)) eqn:Hdel;
      rewrite IH, ?Hdel.
    + rewrite filter_cons_False by (intros Hne; apply Hne; reflexivity). reflexivity.
    + rewrite <- app_assoc. reflexivity.
    + rewrite <- app_assoc, filter_cons_True by exact Hs. reflexivity.
    + rewrite <- app_assoc. reflexivity.
Qed.

(** Any operation that is not [adds]: the entries equal to the target go
    when the operation is [dels] and the slice has more than one entry. *)
Lemma processAdminSigner_other signers op to :
  streq op dposAdminAddSigner = false ->
  processAdminSigner signers op to
  = if streq op dposAdminDelSigner && (len signers >? 1)
    then filter (fun s => s <> to) signers else signers.
Proof.
  intros Hop. unfold processAdminSigner.
  rewrite adminSignerLoop_other by exact Hop. rewrite Hop, andb_false_r. reflexivity.
Qed.

Lemma streq_eq a b : streq a b = true -> a = b.
Proof. unfold streq. apply String.eqb_eq. Qed.

Lemma filter_other_id (to : Common.Address) (l : list Common.Address) :
  to ∉ l -> filter (fun s => s <> to) l = l.
Proof.
  induction l as [| s l IH]; intros Hout; [reflexivity |].
  apply not_elem_of_cons in Hout as [Hne Hout].
  rewrite filter_cons_True by congruence. rewrite IH by exact Hout. reflexivity.
Qed.

Lemma filter_other_twice (to : Common.Address) (l : list Common.Address) :
  filter (fun s => s <> to) (filter (fun s => s <> to) l) = filter (fun s => s <> to) l.
Proof.
  apply filter_other_id. rewrite list_elem_of_filter. intros [Hne _]. apply Hne. reflexivity.
Qed.

(** X1: whatever the operation, a signer slice without repeated entry
    comes back without repeated entry. *)
Theorem processAdminSigner_keeps_NoDup signers op to :
  NoDup signers -> NoDup (processAdminSigner signers op to).
Proof.
  intros Hnd. destruct (streq op dposAdminAddSigner) eqn:Hop.
  - apply streq_eq in Hop. subst op. rewrite processAdminSigner_adds.
    destruct (bool_decide_reflect (to ∈ signers)) as [Hin | Hout]; [exact Hnd |].
    destruct (len signers <? _); [| exact Hnd].
    apply NoDup_app. split; [exact Hnd |]. split; [| apply NoDup_singleton].
    intros x Hx Hx'. apply list_elem_of_singleton in Hx'. subst x. contradiction.
  - rewrite processAdminSigner_other by exact Hop.
    destruct (_ && _); [apply NoDup_filter |]; exact Hnd.
Qed.

(** X2: no operation returns more signers than the larger of the number
    it was given and [int(MaxSignerCount)], so [adds] does not grow a slice
    that is full; an operation other than [adds] never returns more
    signers than it was given; and [adds] returns at most one more. *)
Theorem processAdminSigner_length_bound signers op to :
  len (processAdminSigner signers op to)
  <= Z.max (len signers) (int_of_uint64 (Params.MaxSignerCount config))
  /\ (op <> dposAdminAddSigner -> len (processAdminSigner signers op to) <= len signers)
  /\ len (processAdminSigner signers op to) <= len signers + 1.
Proof.
  destruct (streq op dposAdminAddSigner) eqn:Hop.
  - apply streq_eq in Hop. subst op. rewrite processAdminSigner_adds.
    split; [| split]; [| intros Hother; contradiction |];
      (destruct (bool_decide (to ∈ signers)); [lia |]);
      (destruct (Z.ltb_spec (len signers) (int_of_uint64 (Params.MaxSignerCount config)));
       [| lia]);
      unfold len in *; rewrite length_app; simpl; lia.
  - rewrite processAdminSigner_other by exact Hop.
    pose proof (length_filter (fun s => s <> to) signers) as Hfilter.
    split; [| split]; [| intros _ |];
      (destruct (_ && _); [| lia]); unfold len; lia.
Qed.

(** X3: on a slice without repeated entry, [dels] never returns the empty
    slice for a non-empty one, and when it removes (more than one entry)
    the target is gone. *)
Theorem processAdminSigner_dels_keeps_one signers to :
  NoDup signers ->
  signers <> [] ->
  processAdminSigner signers dposAdminDelSigner to <> [] /\
  (1 < len signers -> to ∉ processAdminSigner signers dposAdminDelSigner to).
Proof.
  intros Hnd Hne. rewrite processAdminSigner_dels.
  destruct (Z.gtb_spec (len signers) 1) as [Hmany | Hfew].
  - split.
    + destruct signers as [| a [| b rest]];
        [contradiction | unfold len in Hmany; simpl in Hmany; lia |].
      apply NoDup_cons in Hnd as [Hab _].
      destruct (decide (a = to)) as [-> | Ha].
      * rewrite filter_cons_False by (intros H; apply H; reflexivity).
        rewrite filter_cons_True; [discriminate |].
        intros ->. apply Hab. apply elem_of_cons. left. reflexivity.
      * rewrite filter_cons_True by exact Ha. discriminate.
    + intros _. rewrite list_elem_of_filter. intros [H _]. apply H. reflexivity.
  - split; [exact Hne | lia].
Qed.

(** X4: whatever the operation and the slice, the signers other than the
    target come back as they were, in their order. *)
Theorem processAdminSigner_others_kept signers op to :
  filter (fun s => s <> to) (processAdminSigner signers op to)
  = filter (fun s => s <> to) signers.
Proof.
  destruct (streq op dposAdminAddSigner) eqn:Hop.
  - apply streq_eq in Hop. subst op. rewrite processAdminSigner_adds.
    destruct (bool_decide (to ∈ signers)); [reflexivity |].
    destruct (len signers <? _); [| reflexivity].
    rewrite filter_app, filter_cons_False by (intros H; apply H; reflexivity).
    rewrite filter_nil, app_nil_r. reflexivity.
  - rewrite processAdminSigner_other by exact Hop.
    destruct (_ && _); [apply filter_other_twice | reflexivity].
Qed.

(** X5: [adds] twice is [adds] once. *)
Theorem processAdminSigner_adds_idempotent signers to :
  processAdminSigner (processAdminSigner signers dposAdminAddSigner to)
    dposAdminAddSigner to
  = processAdminSigner signers dposAdminAddSigner to.
Proof.
  rewrite (processAdminSigner_adds signers).
  destruct (bool_decide_reflect (to ∈ signers)) as [Hin | Hout].
  - rewrite processAdminSigner_adds, bool_decide_eq_true_2 by exact Hin. reflexivity.
  - destruct (len signers <? _) eqn:Hroom.
    + rewrite processAdminSigner_adds, bool_decide_eq_true_2; [reflexivity |].
      apply elem_of_app. right. apply elem_of_cons. left. reflexivity.
    + rewrite processAdminSigner_adds, bool_decide_eq_false_2 by exact Hout.
      rewrite Hroom. reflexivity.
Qed.

(** X6: [dels] undoes [adds]: a target that was absent from a non-empty
    slice with room left is added and then removed again, and the slice is
    the one before. *)
Theorem processAdminSigner_dels_after_adds signers to :
  to ∉ signers ->
  signers <> [] ->
  len signers < int_of_uint64 (Params.MaxSignerCount config) ->
  processAdminSigner (processAdminSigner signers dposAdminAddSigner to)
    dposAdminDelSigner to
  = signers.
Proof.
  intros Hout Hne Hroom.
  rewrite processAdminSigner_adds, bool_decide_eq_false_2 by exact Hout.
  replace (len signers <? _) with true by (symmetry; apply Z.ltb_lt; exact Hroom).
  rewrite processAdminSigner_dels.
  replace (len (signers ++ [to]) >? 1) with true.
  2:{ symmetry. apply Z.gtb_lt. unfold len. rewrite length_app. simpl.
      destruct signers; [contradiction | simpl; lia]. }
  rewrite filter_app, filter_cons_False by (intros H; apply H; reflexivity).
  rewrite filter_nil, app_nil_r. apply filter_other_id. exact Hout.
Qed.

(** ** More on proposals *)

Lemma Atoi_range v n : Strconv.Atoi v = Some n -> - 2 ^ 63 <= n < 2 ^ 63.
Proof.
  unfold Strconv.Atoi. destruct (Strconv.signed v) as [m |]; [| discriminate].
  destruct (Z.leb_spec (- 2 ^ 63) m); destruct (Z.ltb_spec m (2 ^ 63));
    simpl; intros Hs; inversion Hs; subst; lia.
Qed.

Lemma uint64_of_int_small n : 0 <= n < 2 ^ 64 -> uint64_of_int n = n.
Proof. intros H. unfold uint64_of_int. apply Z.mod_small. exact H. Qed.

Lemma uint64_of_int_range n : 0 <= uint64_of_int n < 2 ^ 64.
Proof. unfold uint64_of_int. apply Z.mod_pos_bound. lia. Qed.

(** The two ways out of [processEventProposal]. *)
Lemma processEventProposal_cases currentBlockProposals txDataInfo state tx proposer snap :
  processEventProposal currentBlockProposals txDataInfo state tx proposer snap
  = (currentBlockProposals, state)
  \/ exists proposal pay,
       (5 < List.length txDataInfo)%nat /\
       proposalLoop (newProposal tx proposer)
         (keyValues (drop (posEventProposal + 1) txDataInfo)) = Some proposal /\
       proposalPay proposal snap = Some pay /\
       pay <= GetBalance state proposer /\
       processEventProposal currentBlockProposals txDataInfo state tx proposer snap
       = (currentBlockProposals ++ [proposal],
          SetBalance state proposer (GetBalance state proposer - pay)).
Proof.
  unfold processEventProposal.
  destruct (Z.leb_spec (len txDataInfo) (Z.of_nat posEventProposal + 2)) as [| Hlen];
    [left; reflexivity |].
  destruct (proposalLoop _ _) as [proposal |] eqn:Hloop; [| left; reflexivity].
  destruct (proposalPay proposal snap) as [pay |] eqn:Hpay; [| left; reflexivity].
  destruct (Z.ltb_spec (GetBalance state proposer) pay) as [| Hcover];
    [left; reflexivity |].
  right. exists proposal, pay.
  unfold len, posEventProposal in Hlen. repeat split; auto; lia.
Qed.

(** The values a proposal built by the key/value loop can hold: the
    numeric fields are within the range their validator admits, or still
    the default of the draft. *)
Definition proposalWithinBounds (draft p : Proposal) : Prop :=
  (minValidationLoopCnt <= ValidationLoopCnt p <= maxValidationLoopCnt) /\
  (minSCRentLength <= SCRentLength p <= maxSCRentLength) /\
  (0 < SCRentRate p < 2 ^ 63) /\
  (SCRentFee p = 0 \/ minSCRentFee <= SCRentFee p < 2 ^ 63) /\
  (MinerRewardPerThousand p = MinerRewardPerThousand draft
   \/ 0 < MinerRewardPerThousand p <= 1000) /\
  (MinVoterBalance p = MinVoterBalance draft \/ 0 < MinVoterBalance p < 2 ^ 63) /\
  (ProposalDeposit p = ProposalDeposit draft
   \/ 0 < ProposalDeposit p <= maxProposalDeposit) /\
  (0 <= ProposalType p < 2 ^ 64) /\
  (0 < SCBlockCountPerPeriod p < 2 ^ 64 \/ SCBlockCountPerPeriod p = 0) /\
  (0 <= SCBlockRewardPerPeriod p < 2 ^ 64).

Lemma newProposal_within_bounds tx proposer :
  proposalWithinBounds (newProposal tx proposer) (newProposal tx proposer).
Proof.
  unfold proposalWithinBounds, newProposal. simpl.
  unfold minValidationLoopCnt, maxValidationLoopCnt, defaultValidationLoopCnt,
    maxSCRentLength, defaultSCRentLength, minSCRentLength, proposalTypeCandidateAdd.
  repeat split; try lia; auto.
Qed.

Lemma proposalField_within_bounds draft p k v p' :
  proposalField p k v = Some p' ->
  proposalWithinBounds draft p -> proposalWithinBounds draft p'.
Proof.
  unfold proposalField, streq.
  repeat match goal with
         | |- context [String.eqb k ?s] =>
             let E := fresh "E" in
             destruct (String.eqb k s) eqn:E;
             [apply String.eqb_eq in E; subst k; simpl |]
         end;
    try (destruct (Strconv.Atoi v) as [n |] eqn:Hn;
         [apply Atoi_range in Hn | discriminate]);
    compare_bounds;
    intros Hsome Hb; inversion Hsome; subst; clear Hsome;
    unfold proposalWithinBounds in *; simpl;
    try pose proof (uint64_of_int_range n) as Hrange;
    try (rewrite uint64_of_int_small by lia);
    unfold minValidationLoopCnt, maxValidationLoopCnt, maxProposalDeposit, minSCRentFee,
      maxSCRentLength, defaultSCRentLength, minSCRentLength in *;
    destruct Hb as (Hb1 & Hb2 & Hb3 & Hb4 & Hb5 & Hb6 & Hb7 & Hb8 & Hb9 & Hb10);
    repeat apply conj;
    first [assumption | lia | right; lia | left; lia].
Qed.

Lemma proposalLoop_within_bounds draft kvs p p' :
  proposalLoop p kvs = Some p' ->
  proposalWithinBounds draft p -> proposalWithinBounds draft p'.
Proof.
  revert p. induction kvs as [| [k v] kvs IH]; intros p Hloop Hb; simpl in Hloop.
  - inversion Hloop; subst. exact Hb.
  - destruct (proposalField p k v) as [q |] eqn:Hf; [| discriminate Hloop].
    apply (IH q Hloop). eapply proposalField_within_bounds; eauto.
Qed.

Lemma proposalPay_at_least_deposit draft proposal snap pay :
  proposalWithinBounds draft proposal ->
  proposalPay proposal snap = Some pay ->
  proposalDeposit <= pay.
Proof.
  intros (_ & _ & _ & Hfee & _) Hpay. unfold proposalPay in Hpay.
  assert (0 <= SCRentFee proposal * e18) as Hnonneg.
  { apply Z.mul_nonneg_nonneg; [unfold minSCRentFee in Hfee; lia | unfold e18; lia]. }
  destruct (ProposalType proposal =? proposalTypeRentSideChain).
  - destruct (negb _); [discriminate |]. destruct (bool_decide _); [discriminate |].
    inversion Hpay. lia.
  - inversion Hpay. lia.
Qed.

Lemma proposalPay_rent proposal snap pay :
  proposalPay proposal snap = Some pay ->
  ProposalType proposal = proposalTypeRentSideChain ->
  isSideChainExist snap (SCHash proposal) = true /\
  TargetAddress proposal <> Common.zeroAddress.
Proof.
  intros Hpay Hty. rewrite proposalPay_spec in Hpay.
  destruct (decide (rentTargetKnown proposal snap)) as [Hk |]; [| discriminate].
  exact (Hk Hty).
Qed.

Lemma GetBalance_SetBalance_eq (state : StateDB) a v :
  GetBalance (SetBalance state a v) a = v.
Proof. unfold GetBalance, SetBalance. rewrite lookup_insert_eq. reflexivity. Qed.

Lemma GetBalance_SetBalance_ne (state : StateDB) a b v :
  a <> b -> GetBalance (SetBalance state a v) b = GetBalance state b.
Proof.
  intros Hne. unfold GetBalance, SetBalance. rewrite lookup_insert_ne by exact Hne.
  reflexivity.
Qed.

(** X7: whatever the command, [processEventProposal] appends at most one
    proposal behind the ones it was given, leaves the balance of every
    account but the proposer's as it was, never takes a balance that was
    not negative below zero, and debits at least the deposit when it
    appends. *)
Theorem processEventProposal_frame currentBlockProposals txDataInfo state tx proposer snap :
  (forall a, a <> proposer ->
     GetBalance
       (snd (processEventProposal currentBlockProposals txDataInfo state tx proposer snap))
       a = GetBalance state a) /\
  (0 <= GetBalance state proposer ->
   0 <= GetBalance
          (snd (processEventProposal currentBlockProposals txDataInfo state tx proposer
                  snap)) proposer) /\
  (processEventProposal currentBlockProposals txDataInfo state tx proposer snap
   = (currentBlockProposals, state)
   \/ exists proposal,
        fst (processEventProposal currentBlockProposals txDataInfo state tx proposer snap)
        = currentBlockProposals ++ [proposal] /\
        Proposer proposal = proposer /\
        Hash proposal = Types.TxHash tx /\
        GetBalance
          (snd (processEventProposal currentBlockProposals txDataInfo state tx proposer
                  snap)) proposer
        <= GetBalance state proposer - proposalDeposit).
Proof.
  destruct (processEventProposal_cases currentBlockProposals txDataInfo state tx proposer
              snap) as [-> | (proposal & pay & Hlen & Hloop & Hpay & Hcover & ->)].
  - split; [reflexivity |]. split; [auto |]. left. reflexivity.
  - simpl. split; [| split].
    + intros a Hne. apply GetBalance_SetBalance_ne. congruence.
    + intros _. rewrite GetBalance_SetBalance_eq. lia.
    + right. exists proposal.
      pose proof (proposalLoop_fixed _ _ _ Hloop) as Hfix.
      unfold proposalFixed in Hfix. simpl in Hfix. injection Hfix as Hh _ _ Hp _.
      pose proof (proposalLoop_within_bounds _ _ _ _ Hloop
                    (newProposal_within_bounds tx proposer)) as Hb.
      pose proof (proposalPay_at_least_deposit _ _ _ _ Hb Hpay).
      rewrite GetBalance_SetBalance_eq. repeat split; auto. lia.
Qed.

(** X8: two proposal commands of one proposer, the second processed on
    the list and the state the first left: when the balance is below twice
    the deposit, at most one of them is appended. *)
Theorem processEventProposal_no_double_spend currentBlockProposals txDataInfo1
    txDataInfo2 state tx1 tx2 proposer snap :
  GetBalance state proposer < 2 * proposalDeposit ->
  let first :=
    processEventProposal currentBlockProposals txDataInfo1 state tx1 proposer snap in
  let second :=
    processEventProposal (fst first) txDataInfo2 (snd first) tx2 proposer snap in
  (List.length (fst second) <= S (List.length currentBlockProposals))%nat.
Proof.
  intros Hpoor first second. subst first second.
  destruct (processEventProposal_cases currentBlockProposals txDataInfo1 state tx1
              proposer snap) as [-> | (p1 & pay1 & _ & Hloop1 & Hpay1 & Hcover1 & ->)];
    simpl fst; simpl snd.
  - destruct (processEventProposal_cases currentBlockProposals txDataInfo2 state tx2
                proposer snap) as [-> | (p2 & pay2 & _ & _ & _ & _ & ->)]; simpl.
    + lia.
    + rewrite length_app. simpl. lia.
  - match goal with
    | |- context [processEventProposal ?l ?t ?s ?x ?pr ?sn] =>
        destruct (processEventProposal_cases l t s x pr sn)
          as [-> | (p2 & pay2 & _ & Hloop2 & Hpay2 & Hcover2 & ->)]
    end; simpl.
    + rewrite length_app. simpl. lia.
    + exfalso. rewrite GetBalance_SetBalance_eq in Hcover2.
      pose proof (proposalPay_at_least_deposit _ _ _ _
                    (proposalLoop_within_bounds _ _ _ _ Hloop1
                       (newProposal_within_bounds tx1 proposer)) Hpay1).
      pose proof (proposalPay_at_least_deposit _ _ _ _
                    (proposalLoop_within_bounds _ _ _ _ Hloop2
                       (newProposal_within_bounds tx2 proposer)) Hpay2).
      lia.
Qed.

(** X9: a proposal that [processEventProposal] appends has its numeric
    fields within the ranges of the validators (or at the defaults of the
    draft), no declares and received number 0; when it is a
    rent-side-chain proposal its side chain is registered and its target
    is not the zero address. *)
Theorem processEventProposal_appended_within_bounds currentBlockProposals txDataInfo
    state tx proposer snap proposal :
  fst (processEventProposal currentBlockProposals txDataInfo state tx proposer snap)
  = currentBlockProposals ++ [proposal] ->
  proposalWithinBounds (newProposal tx proposer) proposal /\
  Declares proposal = [] /\
  ReceivedNumber proposal = 0 /\
  CurrentDeposit proposal = proposalDeposit /\
  (ProposalType proposal = proposalTypeRentSideChain ->
   isSideChainExist snap (SCHash proposal) = true /\
   TargetAddress proposal <> Common.zeroAddress).
Proof.
  intros Happ.
  destruct (processEventProposal_cases currentBlockProposals txDataInfo state tx proposer
              snap) as [Hsame | (p & pay & _ & Hloop & Hpay & _ & Hres)].
  - rewrite Hsame in Happ. simpl in Happ.
    rewrite <- (app_nil_r currentBlockProposals) in Happ at 1.
    apply app_inv_head in Happ. discriminate Happ.
  - rewrite Hres in Happ. simpl in Happ. apply app_inv_head in Happ.
    injection Happ as ->.
    pose proof (proposalLoop_fixed _ _ _ Hloop) as Hfix.
    unfold proposalFixed in Hfix. simpl in Hfix. injection Hfix as _ Hr Hd _ Hdecl.
    split; [| repeat split; auto; eapply proposalPay_rent; eauto].
    eapply proposalLoop_within_bounds; [exact Hloop |].
    apply newProposal_within_bounds.
Qed.

(** The keys the loop of [processEventProposal] has a case for. *)
Definition proposalKeys : list string :=
  ["vlcnt"; "schash"; "sccount"; "screward"; "proposal_type"; "candidate"; "mrpt"; "mvb";
   "mpd"; "scrt"; "scrf"; "scrr"; "scrl"].

Lemma proposalField_unknown p k v :
  k ∉ proposalKeys -> proposalField p k v = Some p.
Proof.
  intros Hk. unfold proposalKeys in Hk.
  repeat (apply not_elem_of_cons in Hk as [?%String.eqb_neq Hk]).
  unfold proposalField, streq.
  repeat match goal with
         | H : String.eqb k _ = false |- _ => rewrite H; clear H
         end.
  reflexivity.
Qed.

Lemma keyValues_app_even (l1 l2 : list string) (j : nat) :
  List.length l1 = (2 * j)%nat -> keyValues (l1 ++ l2) = keyValues l1 ++ keyValues l2.
Proof.
  revert l1. induction j as [| j IH]; intros l1 Hlen.
  - destruct l1; [reflexivity | discriminate Hlen].
  - destruct l1 as [| k [| v l1]]; simpl in Hlen; try lia.
    simpl. rewrite IH by lia. reflexivity.
Qed.

Lemma proposalLoop_app p kvs1 kvs2 :
  proposalLoop p (kvs1 ++ kvs2)
  = match proposalLoop p kvs1 with
    | Some p' => proposalLoop p' kvs2
    | None => None
    end.
Proof.
  revert p. induction kvs1 as [| [k v] kvs1 IH]; intros p; simpl; [reflexivity |].
  destruct (proposalField p k v); [apply IH | reflexivity].
Qed.

(** X10: a key/value pair whose key the loop has no case for is skipped:
    with it or without it the command has the same outcome, as long as the
    command without it still has more than five tokens. *)
Theorem processEventProposal_skips_unknown_key currentBlockProposals pre k v post state
    tx proposer snap (j : nat) :
  k ∉ proposalKeys ->
  List.length pre = (4 + 2 * j)%nat ->
  (5 < List.length (pre ++ post))%nat ->
  processEventProposal currentBlockProposals (pre ++ k :: v :: post) state tx proposer snap
  = processEventProposal currentBlockProposals (pre ++ post) state tx proposer snap.
Proof.
  intros Hk Hpre Hlen. unfold processEventProposal.
  assert ((len (pre ++ k :: v :: post) <=? Z.of_nat posEventProposal + 2) = false) as ->.
  { apply Z.leb_gt. unfold len, posEventProposal. rewrite length_app in *. simpl. lia. }
  assert ((len (pre ++ post) <=? Z.of_nat posEventProposal + 2) = false) as ->.
  { apply Z.leb_gt. unfold len, posEventProposal. lia. }
  assert (forall rest,
             keyValues (drop (posEventProposal + 1) (pre ++ rest))
             = keyValues (drop (posEventProposal + 1) pre) ++ keyValues rest) as Hsplit.
  { intros rest. unfold posEventProposal. rewrite drop_app_le by lia.
    apply (keyValues_app_even _ _ j). rewrite length_drop. lia. }
  rewrite (Hsplit (k :: v :: post)), (Hsplit post). simpl keyValues.
  rewrite !proposalLoop_app.
  destruct (proposalLoop _ (keyValues (drop _ pre))) as [p' |]; [| reflexivity].
  simpl. rewrite proposalField_unknown by exact Hk. reflexivity.
Qed.

(** ** Declares *)

Lemma declareField_Some d k v d' :
  declareField d k v = Some d' ->
  Declarer d' = Declarer d /\
  (streq k "decision" = true -> Decision d' = streq v "yes") /\
  (streq k "decision" = false -> Decision d' = Decision d).
Proof.
  unfold declareField, streq.
  destruct (String.eqb k "hash") eqn:Eh.
  - apply String.eqb_eq in Eh. subst k. simpl.
    intros H; inversion H; subst; simpl. repeat split; auto. discriminate.
  - destruct (String.eqb k "decision") eqn:Ed.
    + destruct (String.eqb v "yes") eqn:Ey.
      * intros H; inversion H; subst; simpl. repeat split; auto. discriminate.
      * destruct (String.eqb v "no"); [| discriminate].
        intros H; inversion H; subst; simpl. repeat split; auto. discriminate.
    + intros H; inversion H; subst. repeat split; auto. discriminate.
Qed.

Lemma declareField_None_iff d k v :
  declareField d k v = None <-> k = "decision" /\ v <> "yes" /\ v <> "no".
Proof.
  unfold declareField, streq.
  destruct (String.eqb k "hash") eqn:Eh.
  - apply String.eqb_eq in Eh. subst k. split; [discriminate |].
    intros [Hk _]. discriminate Hk.
  - destruct (String.eqb_spec k "decision") as [-> | Hk].
    + destruct (String.eqb_spec v "yes") as [-> | Hy].
      * split; [discriminate | intros (_ & H & _); contradiction].
      * destruct (String.eqb_spec v "no") as [-> | Hn].
        -- split; [discriminate | intros (_ & _ & H); contradiction].
        -- split; auto.
    + split; [discriminate | intros [H _]; contradiction].
Qed.

Lemma declareLoop_None d kvs (i : nat) v :
  kvs !! i = Some ("decision", v) -> v <> "yes" -> v <> "no" ->
  declareLoop d kvs = None.
Proof.
  revert d i. induction kvs as [| [k0 v0] kvs IH]; intros d i Hi Hy Hn.
  - discriminate Hi.
  - simpl. destruct i as [| i].
    + inversion Hi; subst.
      rewrite (proj2 (declareField_None_iff d "decision" v)); auto.
    + destruct (declareField d k0 v0); [| reflexivity]. eapply IH; eauto.
Qed.

Lemma declareLoop_Some d kvs :
  (forall (i : nat) v, kvs !! i = Some ("decision", v) -> v = "yes" \/ v = "no") ->
  exists d', declareLoop d kvs = Some d' /\ Declarer d' = Declarer d.
Proof.
  revert d. induction kvs as [| [k0 v0] kvs IH]; intros d Hok.
  - exists d. split; reflexivity.
  - simpl. destruct (declareField d k0 v0) as [d1 |] eqn:Hf.
    + destruct (IH d1) as (d' & Hloop & Hdecl).
      { intros i v Hi. apply (Hok (S i)). exact Hi. }
      exists d'. split; [exact Hloop |].
      rewrite Hdecl. apply (declareField_Some _ _ _ _ Hf).
    + apply declareField_None_iff in Hf as (-> & Hy & Hn).
      destruct (Hok 0%nat v0 eq_refl); contradiction.
Qed.

(** The decision after the loop: that of the last [decision] pair, and the
    one before the loop when there is none. *)
Lemma declareLoop_no_decision d kvs d' :
  declareLoop d kvs = Some d' ->
  (forall (i : nat) k v, kvs !! i = Some (k, v) -> k <> "decision") ->
  Decision d' = Decision d.
Proof.
  revert d. induction kvs as [| [k0 v0] kvs IH]; intros d Hloop Hno; simpl in Hloop.
  - inversion Hloop; reflexivity.
  - destruct (declareField d k0 v0) as [d1 |] eqn:Hf; [| discriminate Hloop].
    rewrite (IH d1 Hloop) by (intros i k v Hi; apply (Hno (S i) k v); exact Hi).
    apply (declareField_Some _ _ _ _ Hf). unfold streq.
    apply String.eqb_neq. apply (Hno 0%nat k0 v0). reflexivity.
Qed.

Lemma declareLoop_last_decision d kvs d' (i : nat) v :
  declareLoop d kvs = Some d' ->
  kvs !! i = Some ("decision", v) ->
  (forall (j : nat) k' v', (i < j)%nat -> kvs !! j = Some (k', v') -> k' <> "decision") ->
  Decision d' = streq v "yes".
Proof.
  revert d i. induction kvs as [| [k0 v0] kvs IH]; intros d i Hloop Hi Hlast.
  - discriminate Hi.
  - simpl in Hloop.
    destruct (declareField d k0 v0) as [d1 |] eqn:Hf; [| discriminate Hloop].
    destruct i as [| i].
    + inversion Hi; subst.
      rewrite (declareLoop_no_decision d1 kvs d' Hloop).
      * apply (declareField_Some _ _ _ _ Hf). reflexivity.
      * intros j k v' Hj. apply (Hlast (S j) k v'); [lia | exact Hj].
    + apply (IH d1 i Hloop Hi).
      intros j k' v' Hlt Hj. apply (Hlast (S j) k' v'); [lia | exact Hj].
Qed.

Lemma keyValues_declare_tokens (txDataInfo : list string) (i : nat) :
  keyValues (drop (posEventDeclare + 1) txDataInfo) !! i
  = if decide (5 + 2 * i < List.length txDataInfo)%nat
    then Some (tok txDataInfo (4 + 2 * i), tok txDataInfo (5 + 2 * i))
    else None.
Proof. exact (keyValues_tokens txDataInfo i). Qed.

(** X11: [processEventDeclare] appends one declare of the sender exactly
    when the command has more than five tokens and every [decision] key
    the loop reads is followed by [yes] or [no]; a shorter command, or one
    with another decision value, returns the list as given. *)
Theorem processEventDeclare_accepts_iff currentBlockDeclares txDataInfo tx declarer :
  ((List.length txDataInfo <= 5)%nat ->
   processEventDeclare currentBlockDeclares txDataInfo tx declarer = currentBlockDeclares)
  /\
  (forall i : nat,
      (5 + 2 * i < List.length txDataInfo)%nat ->
      tok txDataInfo (4 + 2 * i) = "decision" ->
      tok txDataInfo (5 + 2 * i) <> "yes" ->
      tok txDataInfo (5 + 2 * i) <> "no" ->
      processEventDeclare currentBlockDeclares txDataInfo tx declarer
      = currentBlockDeclares)
  /\
  ((5 < List.length txDataInfo)%nat ->
   (forall i : nat,
       (5 + 2 * i < List.length txDataInfo)%nat ->
       tok txDataInfo (4 + 2 * i) = "decision" ->
       tok txDataInfo (5 + 2 * i) = "yes" \/ tok txDataInfo (5 + 2 * i) = "no") ->
   exists declare,
     processEventDeclare currentBlockDeclares txDataInfo tx declarer
     = currentBlockDeclares ++ [declare]
     /\ Declarer declare = declarer).
Proof.
  unfold processEventDeclare. split; [| split].
  - intros Hlen.
    replace (len txDataInfo <=? Z.of_nat posEventDeclare + 2) with true; [reflexivity |].
    symmetry. apply Z.leb_le. unfold len, posEventDeclare. lia.
  - intros i Hi Hk Hy Hn.
    destruct (len txDataInfo <=? _); [reflexivity |].
    erewrite declareLoop_None; [reflexivity | | exact Hy | exact Hn].
    rewrite keyValues_declare_tokens, decide_True by exact Hi. rewrite Hk. reflexivity.
  - intros Hlen Hok.
    replace (len txDataInfo <=? Z.of_nat posEventDeclare + 2) with false
      by (symmetry; apply Z.leb_gt; unfold len, posEventDeclare; lia).
    destruct (declareLoop_Some
                {| ProposalHash := Common.zeroHash; Declarer := declarer; Decision := true |}
                (keyValues (drop (posEventDeclare + 1) txDataInfo)))
      as (declare & Hloop & Hdecl).
    { intros i v Hi. rewrite keyValues_declare_tokens in Hi.
      destruct (decide _) as [Hlt |]; [| discriminate Hi].
      injection Hi as Hk Hv. rewrite <- Hv. apply Hok; assumption. }
    rewrite Hloop. exists declare. split; [reflexivity | exact Hdecl].
Qed.

(** X12: the decision of an appended declare is that of the last
    [decision] pair of the command ([yes] for true), and true when the
    command has none. *)
Theorem processEventDeclare_last_decision_wins currentBlockDeclares txDataInfo tx
    declarer declare :
  processEventDeclare currentBlockDeclares txDataInfo tx declarer
  = currentBlockDeclares ++ [declare] ->
  ((forall j : nat,
       (5 + 2 * j < List.length txDataInfo)%nat ->
       tok txDataInfo (4 + 2 * j) <> "decision") ->
   Decision declare = true)
  /\
  (forall i : nat,
      (5 + 2 * i < List.length txDataInfo)%nat ->
      tok txDataInfo (4 + 2 * i) = "decision" ->
      (forall j : nat,
          (i < j)%nat -> (5 + 2 * j < List.length txDataInfo)%nat ->
          tok txDataInfo (4 + 2 * j) <> "decision") ->
      Decision declare = streq (tok txDataInfo (5 + 2 * i)) "yes").
Proof.
  unfold processEventDeclare. intros Happ.
  destruct (len txDataInfo <=? _).
  { rewrite <- (app_nil_r currentBlockDeclares) in Happ at 1.
    apply app_inv_head in Happ. discriminate Happ. }
  destruct (declareLoop _ _) as [d |] eqn:Hloop.
  2:{ rewrite <- (app_nil_r currentBlockDeclares) in Happ at 1.
      apply app_inv_head in Happ. discriminate Happ. }
  apply app_inv_head in Happ. injection Happ as ->.
  split.
  - intros Hno. apply (declareLoop_no_decision _ _ _ Hloop).
    intros i k v Hi. rewrite keyValues_declare_tokens in Hi.
    destruct (decide _) as [Hlt |]; [| discriminate Hi].
    injection Hi as <- _. apply Hno. exact Hlt.
  - intros i Hi Hk Hlast.
    apply (declareLoop_last_decision _ _ _ i _ Hloop).
    + rewrite keyValues_declare_tokens, decide_True by exact Hi. rewrite Hk. reflexivity.
    + intros j k' v' Hlt Hj. rewrite keyValues_declare_tokens in Hj.
      destruct (decide _) as [Hjlen |]; [| discriminate Hj].
      injection Hj as <- _. apply Hlast; assumption.
Qed.

(** ** Stake re-assertion *)

(** X13: [processPredecessorVoter] keeps the votes it was given and puts
    at most two behind them; each of these has the zero address as
    candidate, a voter known to the snapshot who is the sender or the
    recipient, and that voter's balance as stake; a transaction without
    value or without recipient adds none. *)
Theorem processPredecessorVoter_appends modifyPredecessorVotes state tx voter snap :
  exists added,
    processPredecessorVoter modifyPredecessorVotes state tx voter snap
    = modifyPredecessorVotes ++ added /\
    (List.length added <= 2)%nat /\
    (Types.Value tx <= 0 \/ Types.To tx = None -> added = []) /\
    (forall vote,
        vote ∈ added ->
        Candidate vote = Common.zeroAddress /\
        Stake vote = GetBalance state (Voter vote) /\
        isVoter snap (Voter vote) = true /\
        (Voter vote = voter \/ Types.To tx = Some (Voter vote))).
Proof.
  unfold processPredecessorVoter.
  destruct (Types.To tx) as [to |].
  2:{ exists []. rewrite app_nil_r. split; [reflexivity |]. split; [simpl; lia |].
      split; [reflexivity |]. intros vote Hin. apply elem_of_nil in Hin. contradiction. }
  destruct (Z.gtb_spec (Types.Value tx) 0) as [Hpos | Hzero].
  2:{ exists []. rewrite app_nil_r. split; [reflexivity |]. split; [simpl; lia |].
      split; [reflexivity |]. intros vote Hin. apply elem_of_nil in Hin. contradiction. }
  destruct (isVoter snap voter) eqn:Hv; destruct (isVoter snap to) eqn:Ht.
  - eexists [_; _]. rewrite <- app_assoc. split; [reflexivity |]. split; [simpl; lia |].
    split; [intros [H | H]; [lia | discriminate H] |].
    intros vote Hin. apply elem_of_cons in Hin as [-> | Hin]; simpl; [auto |].
    apply list_elem_of_singleton in Hin. subst vote. simpl. auto.
  - eexists [_]. split; [reflexivity |]. split; [simpl; lia |].
    split; [intros [H | H]; [lia | discriminate H] |].
    intros vote Hin. apply list_elem_of_singleton in Hin. subst vote. simpl. auto.
  - eexists [_]. split; [reflexivity |]. split; [simpl; lia |].
    split; [intros [H | H]; [lia | discriminate H] |].
    intros vote Hin. apply list_elem_of_singleton in Hin. subst vote. simpl. auto.
  - exists []. rewrite app_nil_r. split; [reflexivity |]. split; [simpl; lia |].
    split; [reflexivity |]. intros vote Hin. apply elem_of_nil in Hin. contradiction.
Qed.

(** ** More on the fold over a block *)

(** The fields no command of this file writes. *)
Definition passiveFields (h : HeaderExtra)
  : Z * list Common.Address * list Common.Address * Z * list SCConfirmation
    * list SCSetCoinbase * list SCConfirmation * list GasCharging :=
  (LoopStartTime h, SignerQueue h, SignerMissing h, ConfirmedBlockNumber h,
   SideChainConfirmations h, SideChainSetCoinbases h, SideChainNoticeConfirmed h,
   SideChainCharging h).

(** [processCustomTx] is a fold of [processTx] over the transactions, or
    the error of the snapshot lookup; which of the two does not depend on
    the transactions. *)
Lemma processCustomTx_fold headerExtra chain header state :
  (exists err, forall txs,
      processCustomTx headerExtra chain header state txs = (headerExtra, None, Some err))
  \/ (exists number snap,
        number = Big.Uint64 (Types.Number header) /\
        (number <= 1 -> snap = None) /\
        forall txs,
          processCustomTx headerExtra chain header state txs
          = (fold_left (processTx number snap state) txs headerExtra, Some ∅, None)).
Proof.
  unfold processCustomTx.
  destruct (Z.gtb_spec (Big.Uint64 (Types.Number header)) 1) as [Hgt | Hle].
  - destruct (snapshot _ _ _) as [snap | err].
    + right. exists (Big.Uint64 (Types.Number header)), (Some snap).
      split; [reflexivity |]. split; [lia | reflexivity].
    + left. exists err. reflexivity.
  - right. exists (Big.Uint64 (Types.Number header)), None.
    split; [reflexivity |]. split; reflexivity.
Qed.

Ltac split_branches :=
  repeat match goal with
         | |- context [if ?b then _ else _] => destruct b
         | |- context [match ?o with Some _ => _ | None => _ end] => destruct o
         end.

Lemma processData_passive headerExtra tx txSender :
  passiveFields (processData headerExtra tx txSender) = passiveFields headerExtra
  /\ ModifyPredecessorVotes (processData headerExtra tx txSender)
     = ModifyPredecessorVotes headerExtra.
Proof.
  unfold processData, processAdmin. split_branches; split; reflexivity.
Qed.

Lemma processTx_passive number snap state headerExtra tx :
  passiveFields (processTx number snap state headerExtra tx) = passiveFields headerExtra.
Proof.
  unfold processTx. destruct (Types.Sender tx) as [txSender |]; [| reflexivity].
  destruct (number >? 1); [destruct snap |]; apply processData_passive.
Qed.

(** X14: whatever the block, [processCustomTx] returns the loop start
    time, the signer queue, the missing signers, the confirmed block
    number and the four side-chain lists of the accumulator it was
    given. *)
Theorem processCustomTx_keeps_passive_fields headerExtra chain header state txs :
  passiveFields (accumulator (processCustomTx headerExtra chain header state txs))
  = passiveFields headerExtra.
Proof.
  destruct (processCustomTx_fold headerExtra chain header state)
    as [[err ->] | (number & snap & _ & _ & ->)]; [reflexivity |].
  unfold accumulator. simpl. revert headerExtra.
  induction txs as [| tx txs IH]; intros headerExtra; simpl; [reflexivity |].
  rewrite IH. apply processTx_passive.
Qed.

Lemma processPredecessorVoter_shape modifyPredecessorVotes state tx voter snap :
  exists added,
    processPredecessorVoter modifyPredecessorVotes state tx voter snap
    = modifyPredecessorVotes ++ added /\
    (List.length added <= 2)%nat /\
    Forall (fun vote => Candidate vote = Common.zeroAddress) added.
Proof.
  unfold processPredecessorVoter.
  destruct (Types.To tx) as [to |];
    [| exists []; rewrite app_nil_r; repeat split; auto; simpl; lia].
  destruct (Types.Value tx >? 0);
    [| exists []; rewrite app_nil_r; repeat split; auto; simpl; lia].
  destruct (isVoter snap voter); destruct (isVoter snap to).
  - eexists [_; _]. rewrite <- app_assoc. split; [reflexivity |].
    split; [simpl; lia |]. repeat constructor.
  - eexists [_]. split; [reflexivity |]. split; [simpl; lia |]. repeat constructor.
  - eexists [_]. split; [reflexivity |]. split; [simpl; lia |]. repeat constructor.
  - exists []. rewrite app_nil_r. split; [reflexivity |]. split; [simpl; lia |].
    constructor.
Qed.

Lemma processTx_predecessor_votes number snap state headerExtra tx :
  exists added,
    ModifyPredecessorVotes (processTx number snap state headerExtra tx)
    = ModifyPredecessorVotes headerExtra ++ added /\
    (List.length added <= 2)%nat /\
    (snap = None -> added = []) /\
    Forall (fun vote => Candidate vote = Common.zeroAddress) added.
Proof.
  unfold processTx.
  destruct (Types.Sender tx) as [txSender |];
    [| exists []; rewrite app_nil_r; repeat split; auto; simpl; lia].
  destruct (number >? 1); [destruct snap as [snap |] |].
  - simpl ModifyPredecessorVotes.
    destruct (processPredecessorVoter_shape
                (ModifyPredecessorVotes (processData headerExtra tx txSender)) state tx
                txSender snap) as (added & -> & Hlen & Hall).
    exists added. rewrite (proj2 (processData_passive headerExtra tx txSender)).
    split; [reflexivity |]. split; [exact Hlen |]. split; [discriminate | exact Hall].
  - exists []. rewrite app_nil_r, (proj2 (processData_passive headerExtra tx txSender)).
    repeat split; auto; simpl; lia.
  - exists []. rewrite app_nil_r, (proj2 (processData_passive headerExtra tx txSender)).
    repeat split; auto; simpl; lia.
Qed.

(** X15: the predecessor votes only grow: [processCustomTx] returns the
    ones it was given followed by at most two per transaction, each with
    the zero address as candidate, and by none at all in a block whose
    number is at most 1. *)
Theorem processCustomTx_predecessor_votes_grow headerExtra chain header state txs :
  exists added,
    ModifyPredecessorVotes
      (accumulator (processCustomTx headerExtra chain header state txs))
    = ModifyPredecessorVotes headerExtra ++ added /\
    (List.length added <= 2 * List.length txs)%nat /\
    (Big.Uint64 (Types.Number header) <= 1 -> added = []) /\
    Forall (fun vote => Candidate vote = Common.zeroAddress) added.
Proof.
  destruct (processCustomTx_fold headerExtra chain header state)
    as [[err ->] | (number & snap & -> & Hsnap & ->)].
  { exists []. rewrite app_nil_r. repeat split; auto; simpl; lia. }
  unfold accumulator. simpl fst.
  assert (forall h,
             exists added,
               ModifyPredecessorVotes
                 (fold_left (processTx (Big.Uint64 (Types.Number header)) snap state) txs h)
               = ModifyPredecessorVotes h ++ added /\
               (List.length added <= 2 * List.length txs)%nat /\
               (snap = None -> added = []) /\
               Forall (fun vote => Candidate vote = Common.zeroAddress) added) as Hfold.
  { induction txs as [| tx txs IH]; intros h; simpl.
    - exists []. rewrite app_nil_r. repeat split; auto.
    - destruct (IH (processTx (Big.Uint64 (Types.Number header)) snap state h tx))
        as (added2 & -> & Hlen2 & Hnone2 & Hall2).
      destruct (processTx_predecessor_votes (Big.Uint64 (Types.Number header)) snap state
                  h tx) as (added1 & -> & Hlen1 & Hnone1 & Hall1).
      exists (added1 ++ added2). rewrite app_assoc. split; [reflexivity |].
      split; [rewrite length_app; lia |].
      split; [intros Hs; rewrite (Hnone1 Hs), (Hnone2 Hs); reflexivity |].
      apply Forall_app. split; assumption. }
  destruct (Hfold headerExtra) as (added & Heq & Hlen & Hnone & Hall).
  exists added. repeat split; auto.
Qed.

(** X16: whether [processCustomTx] returns an error does not depend on
    the transactions, and with an error it returns the accumulator it was
    given and no refund map. *)
Theorem processCustomTx_error_ignores_txs headerExtra chain header state txs txs' :
  snd (processCustomTx headerExtra chain header state txs)
  = snd (processCustomTx headerExtra chain header state txs') /\
  (forall err,
      snd (processCustomTx headerExtra chain header state txs) = Some err ->
      processCustomTx headerExtra chain header state txs = (headerExtra, None, Some err)).
Proof.
  destruct (processCustomTx_fold headerExtra chain header state)
    as [[err Herr] | (number & snap & _ & _ & Hok)].
  - rewrite !Herr. split; [reflexivity |]. intros e He. simpl in He. rewrite He. reflexivity.
  - rewrite !Hok. split; [reflexivity |]. intros e He. discriminate He.
Qed.

Lemma Split_head_length sep s piece pieces :
  Strings.Split sep s = piece :: pieces -> (String.length piece <= String.length s)%nat.
Proof.
  revert piece pieces. induction s as [| c s IH]; intros piece pieces; simpl.
  - intros H. inversion H. simpl. lia.
  - destruct (Ascii.eqb c sep).
    + intros H. inversion H. simpl. lia.
    + destruct (Strings.Split sep s) as [| p ps] eqn:Hs.
      * intros H. inversion H. simpl. lia.
      * intros H. inversion H. simpl. specialize (IH p ps eq_refl). lia.
Qed.

(** The dispatch on a payload whose first four tokens are [dpos], [1],
    [admin] and [event]. *)
Lemma processData_admin headerExtra tx txSender event rest :
  Strings.Split ":" (Types.Data tx)
  = dposPrefix :: dposVersion :: dposCategoryAdmin :: event :: rest ->
  processData headerExtra tx txSender
  = processAdmin headerExtra
      (dposPrefix :: dposVersion :: dposCategoryAdmin :: event :: rest) tx txSender.
Proof.
  intros Hsplit. unfold processData.
  pose proof (Split_head_length _ _ _ _ Hsplit) as Hlen.
  replace (strlen (Types.Data tx) >=? strlen dposPrefix) with true.
  2:{ symmetry. apply Z.geb_le. unfold strlen. simpl in *. lia. }
  rewrite Hsplit.
  replace (len (dposPrefix :: dposVersion :: dposCategoryAdmin :: event :: rest)
           >=? dposMinSplitLen) with true.
  2:{ symmetry. apply Z.geb_le. unfold len, dposMinSplitLen. simpl List.length. lia. }
  reflexivity.
Qed.

(** One more transaction on a block that returns no error is one more
    turn of the loop. *)
Lemma processCustomTx_step headerExtra chain header state txs :
  snd (processCustomTx headerExtra chain header state txs) = None ->
  exists number snap,
    forall txs',
      accumulator (processCustomTx headerExtra chain header state (txs ++ txs'))
      = fold_left (processTx number snap state) txs'
          (accumulator (processCustomTx headerExtra chain header state txs)).
Proof.
  intros Hok.
  destruct (processCustomTx_fold headerExtra chain header state)
    as [[err Herr] | (number & snap & _ & _ & Hfold)].
  - rewrite Herr in Hok. discriminate Hok.
  - exists number, snap. intros txs'. rewrite !Hfold. unfold accumulator. simpl.
    apply fold_left_app.
Qed.

(** X17: the admin hands over within the block. After [modadmin] from the
    admin to another address, the accumulator names that address as admin,
    and a command the old admin sends next in the same block no longer
    changes the candidate signers, the admin, the reward or the ratio. *)
Theorem processCustomTx_admin_handover headerExtra chain header state txs tx1 tx2
    newAdmin rest :
  snd (processCustomTx headerExtra chain header state txs) = None ->
  Types.Sender tx1
  = Some (SignerAdmin (accumulator (processCustomTx headerExtra chain header state txs))) ->
  Types.To tx1 = Some newAdmin ->
  Strings.Split ":" (Types.Data tx1)
  = dposPrefix :: dposVersion :: dposCategoryAdmin :: dposAdminModifyAdmin :: rest ->
  SignerAdmin
    (accumulator (processCustomTx headerExtra chain header state (txs ++ [tx1])))
  = newAdmin
  /\ (Types.Sender tx2
      = Some (SignerAdmin
                (accumulator (processCustomTx headerExtra chain header state txs))) ->
      SignerAdmin (accumulator (processCustomTx headerExtra chain header state txs))
      <> newAdmin ->
      adminFields
        (accumulator (processCustomTx headerExtra chain header state (txs ++ [tx1; tx2])))
      = adminFields
          (accumulator (processCustomTx headerExtra chain header state (txs ++ [tx1])))).
Proof.
  intros Hok Hs1 Hto1 Hsplit.
  destruct (processCustomTx_step headerExtra chain header state txs Hok)
    as (number & snap & Hstep).
  rewrite (Hstep [tx1]), (Hstep [tx1; tx2]). simpl fold_left.
  set (acc := accumulator (processCustomTx headerExtra chain header state txs)) in *.
  assert (SignerAdmin (processTx number snap state acc tx1) = newAdmin) as Hadmin.
  { pose proof (processTx_adminFields_after_data number snap state acc tx1 _ Hs1) as Hf.
    unfold adminFields in Hf. injection Hf as _ -> _ _.
    rewrite (processData_admin _ _ _ _ _ Hsplit). unfold processAdmin.
    rewrite bool_decide_eq_true_2 by reflexivity. rewrite Hto1.
    unfold tok. simpl.
    destruct (bool_decide_reflect (SignerAdmin acc = newAdmin)) as [He | Hne];
      simpl; [exact He | reflexivity]. }
  split; [exact Hadmin |].
  intros Hs2 Hne.
  rewrite (processTx_adminFields_after_data number snap state _ tx2 _ Hs2).
  rewrite processData_not_admin; [reflexivity |].
  unfold Common.Str. rewrite Hadmin. exact Hne.
Qed.

Lemma processData_changed headerExtra tx txSender :
  adminFields (processData headerExtra tx txSender) <> adminFields headerExtra ->
  txSender = SignerAdmin headerExtra /\
  (exists to, Types.To tx = Some to) /\
  (4 <= List.length (Strings.Split ":" (Types.Data tx)))%nat /\
  tok (Strings.Split ":" (Types.Data tx)) posPrefix = dposPrefix /\
  tok (Strings.Split ":" (Types.Data tx)) posVersion = dposVersion /\
  tok (Strings.Split ":" (Types.Data tx)) posCategory = dposCategoryAdmin /\
  tok (Strings.Split ":" (Types.Data tx)) posAdminEvent
  ∈ [dposAdminAddSigner; dposAdminDelSigner; dposAdminModifyAdmin;
     dposAdminModifyMinerReward; dposAdminModifyMinerRatio].
Proof.
  unfold processData. intros Hch.
  destruct (strlen (Types.Data tx) >=? strlen dposPrefix); [| contradiction].
  destruct (len _ >=? dposMinSplitLen) eqn:Hlen; [| contradiction].
  destruct (streq (tok _ posPrefix) dposPrefix) eqn:H0; [| contradiction].
  destruct (streq (tok _ posVersion) dposVersion) eqn:H1; [| contradiction].
  destruct (streq (tok _ posCategory) dposCategoryAdmin) eqn:H2; [| contradiction].
  apply streq_eq in H0, H1, H2. apply Z.geb_le in Hlen.
  unfold processAdmin, Common.Str in Hch.
  destruct (bool_decide_reflect (txSender = SignerAdmin headerExtra)) as [Hs | Hs];
    [| contradiction].
  destruct (Types.To tx) as [to |]; [| contradiction].
  split; [exact Hs |]. split; [eexists; reflexivity |].
  split; [unfold len, dposMinSplitLen in Hlen; lia |].
  repeat (split; [assumption |]).
  destruct (streq (tok _ posAdminEvent) dposAdminAddSigner) eqn:Ha.
  { apply streq_eq in Ha. rewrite Ha. apply elem_of_cons. left. reflexivity. }
  destruct (streq (tok _ posAdminEvent) dposAdminDelSigner) eqn:Hd.
  { apply streq_eq in Hd. rewrite Hd. do 1 (apply elem_of_cons; right).
    apply elem_of_cons. left. reflexivity. }
  simpl orb in Hch. cbv iota in Hch.
  destruct (streq (tok _ posAdminEvent) dposAdminModifyAdmin) eqn:Hm.
  { apply streq_eq in Hm. rewrite Hm. do 2 (apply elem_of_cons; right).
    apply elem_of_cons. left. reflexivity. }
  destruct (streq (tok _ posAdminEvent) dposAdminModifyMinerReward) eqn:Hr.
  { apply streq_eq in Hr. rewrite Hr. do 3 (apply elem_of_cons; right).
    apply elem_of_cons. left. reflexivity. }
  destruct (streq (tok _ posAdminEvent) dposAdminModifyMinerRatio) eqn:Hq.
  { apply streq_eq in Hq. rewrite Hq. do 4 (apply elem_of_cons; right).
    apply elem_of_cons. left. reflexivity. }
  contradiction.
Qed.

(** X18: a transaction changes the candidate signers, the admin, the
    reward or the ratio only if its sender is the admin of the accumulator
    built so far, it has a recipient, and its payload splits into at least
    four tokens that start [dpos], [1], [admin] and one of [adds], [dels],
    [modadmin], [modreward], [modratio]. *)
Theorem processCustomTx_admin_change_needs headerExtra chain header state txs tx :
  adminFields (accumulator (processCustomTx headerExtra chain header state (txs ++ [tx])))
  <> adminFields (accumulator (processCustomTx headerExtra chain header state txs)) ->
  Types.Sender tx
  = Some (SignerAdmin (accumulator (processCustomTx headerExtra chain header state txs)))
  /\ (exists to, Types.To tx = Some to)
  /\ (4 <= List.length (Strings.Split ":" (Types.Data tx)))%nat
  /\ tok (Strings.Split ":" (Types.Data tx)) posPrefix = dposPrefix
  /\ tok (Strings.Split ":" (Types.Data tx)) posVersion = dposVersion
  /\ tok (Strings.Split ":" (Types.Data tx)) posCategory = dposCategoryAdmin
  /\ tok (Strings.Split ":" (Types.Data tx)) posAdminEvent
     ∈ [dposAdminAddSigner; dposAdminDelSigner; dposAdminModifyAdmin;
        dposAdminModifyMinerReward; dposAdminModifyMinerRatio].
Proof.
  intros Hch.
  destruct (processCustomTx_snoc headerExtra chain header state txs tx)
    as (number & snap & [Hstep | [H1 H2]]).
  2:{ rewrite H1, H2 in Hch. contradiction. }
  rewrite Hstep in Hch.
  destruct (Types.Sender tx) as [txSender |] eqn:Hs.
  2:{ unfold processTx in Hch. rewrite Hs in Hch. contradiction. }
  rewrite (processTx_adminFields_after_data _ _ _ _ _ _ Hs) in Hch.
  destruct (processData_changed _ _ _ Hch) as (-> & Hrest).
  split; [reflexivity | exact Hrest].
Qed.

(** X19: [modratio] from the admin, with a recipient: the ratio becomes
    the decimal value of the fifth token when that is an [int] that is not
    negative, stored as it is (no wrap-around, no upper bound), and stays
    when the token is missing, is no decimal [int] or is negative; signers,
    admin and reward stay. *)
Theorem processCustomTx_modratio headerExtra chain header state txs tx to rest :
  snd (processCustomTx headerExtra chain header state txs) = None ->
  Types.Sender tx
  = Some (SignerAdmin (accumulator (processCustomTx headerExtra chain header state txs))) ->
  Types.To tx = Some to ->
  Strings.Split ":" (Types.Data tx)
  = dposPrefix :: dposVersion :: dposCategoryAdmin :: dposAdminModifyMinerRatio :: rest ->
  adminFields (accumulator (processCustomTx headerExtra chain header state (txs ++ [tx])))
  = (CandidateSigners (accumulator (processCustomTx headerExtra chain header state txs)),
     SignerAdmin (accumulator (processCustomTx headerExtra chain header state txs)),
     PerBlockReward (accumulator (processCustomTx headerExtra chain header state txs)),
     match rest with
     | v :: _ =>
         match Strconv.Atoi v with
         | Some n =>
             if n <? 0
             then MinerRewardRatio
                    (accumulator (processCustomTx headerExtra chain header state txs))
             else n
         | None =>
             MinerRewardRatio
               (accumulator (processCustomTx headerExtra chain header state txs))
         end
     | [] =>
         MinerRewardRatio (accumulator (processCustomTx headerExtra chain header state txs))
     end).
Proof.
  intros Hok Hs Hto Hsplit.
  destruct (processCustomTx_step headerExtra chain header state txs Hok)
    as (number & snap & Hstep).
  rewrite (Hstep [tx]). simpl fold_left.
  set (acc := accumulator (processCustomTx headerExtra chain header state txs)) in *.
  rewrite (processTx_adminFields_after_data number snap state acc tx _ Hs).
  rewrite (processData_admin _ _ _ _ _ Hsplit). unfold processAdmin.
  rewrite bool_decide_eq_true_2 by reflexivity. rewrite Hto.
  unfold tok, processAdminMinerRatio. simpl.
  destruct rest as [| v rest]; [reflexivity |].
  replace (len (dposPrefix :: dposVersion :: dposCategoryAdmin
                  :: dposAdminModifyMinerRatio :: v :: rest) <=? dposMinSplitLen)
    with false
    by (symmetry; apply Z.leb_gt; unfold len, dposMinSplitLen; simpl List.length; lia).
  unfold tok. simpl.
  destruct (Strconv.Atoi v) as [n |] eqn:Hn; [| reflexivity].
  apply Atoi_range in Hn.
  destruct (Z.ltb_spec n 0) as [Hneg | Hpos]; [reflexivity |].
  replace (n >=? 0) with true by (symmetry; apply Z.geb_le; lia).
  unfold adminFields. simpl. rewrite uint64_of_int_small by lia. reflexivity.
Qed.

(** X20: [modreward] from the admin, with a recipient: the reward becomes
    the value of the fifth token when that is a decimal integer of any
    size and sign, and stays when the token is missing or is none;
    signers, admin and ratio stay. *)
Theorem processCustomTx_modreward headerExtra chain header state txs tx to rest :
  snd (processCustomTx headerExtra chain header state txs) = None ->
  Types.Sender tx
  = Some (SignerAdmin (accumulator (processCustomTx headerExtra chain header state txs))) ->
  Types.To tx = Some to ->
  Strings.Split ":" (Types.Data tx)
  = dposPrefix :: dposVersion :: dposCategoryAdmin :: dposAdminModifyMinerReward :: rest ->
  adminFields (accumulator (processCustomTx headerExtra chain header state (txs ++ [tx])))
  = (CandidateSigners (accumulator (processCustomTx headerExtra chain header state txs)),
     SignerAdmin (accumulator (processCustomTx headerExtra chain header state txs)),
     match rest with
     | v :: _ =>
         default
           (PerBlockReward
              (accumulator (processCustomTx headerExtra chain header state txs)))
           (Big.SetString10 v)
     | [] =>
         PerBlockReward (accumulator (processCustomTx headerExtra chain header state txs))
     end,
     MinerRewardRatio (accumulator (processCustomTx headerExtra chain header state txs))).
Proof.
  intros Hok Hs Hto Hsplit.
  destruct (processCustomTx_step headerExtra chain header state txs Hok)
    as (number & snap & Hstep).
  rewrite (Hstep [tx]). simpl fold_left.
  set (acc := accumulator (processCustomTx headerExtra chain header state txs)) in *.
  rewrite (processTx_adminFields_after_data number snap state acc tx _ Hs).
  rewrite (processData_admin _ _ _ _ _ Hsplit). unfold processAdmin.
  rewrite bool_decide_eq_true_2 by reflexivity. rewrite Hto.
  unfold tok, processAdminPerBlockReward. simpl.
  destruct rest as [| v rest]; [reflexivity |].
  replace (len (dposPrefix :: dposVersion :: dposCategoryAdmin
                  :: dposAdminModifyMinerReward :: v :: rest) <=? dposMinSplitLen)
    with false
    by (symmetry; apply Z.leb_gt; unfold len, dposMinSplitLen; simpl List.length; lia).
  unfold tok. simpl.
  destruct (Big.SetString10 v); reflexivity.
Qed.

(** ** The refund ledger with its pointers

    [RefundGas] maps an address to a [*big.Int]. [refundAddGas] stores the
    pointer it is given on the first refund of an address and adds in place
    on the next ones, so two entries may share one number. Here a pointer
    is a [nat], the heap maps pointers to the integers they hold, and the
    ledger maps addresses to pointers; [refundAddGasRef] is [refundAddGas]
    on this heap and ledger, its [value] the pointer the caller passes. *)

Definition heapAt (heap : gmap nat Z) (p : nat) : Z := default 0 (heap !! p).

(** The refund an address is owed: the integer behind its pointer, 0 for
    an address without entry. *)
Definition refundOwed (heap : gmap nat Z) (ledger : gmap Common.Address nat)
    (address : Common.Address) : Z :=
  match ledger !! address with
  | Some p => heapAt heap p
  | None => 0
  end.

Definition refundAddGasRef (heap : gmap nat Z) (ledger : gmap Common.Address nat)
    (address : Common.Address) (value : nat) : gmap nat Z * gmap Common.Address nat :=
  match ledger !! address with
  | Some p => (<[p := heapAt heap p + heapAt heap value]> heap, ledger)
  | None => (heap, <[address := value]> ledger)
  end.

Lemma heapAt_insert_eq (heap : gmap nat Z) p v : heapAt (<[p := v]> heap) p = v.
Proof. unfold heapAt. rewrite lookup_insert_eq. reflexivity. Qed.

Lemma heapAt_insert_ne (heap : gmap nat Z) p q v :
  p <> q -> heapAt (<[p := v]> heap) q = heapAt heap q.
Proof. intros Hne. unfold heapAt. rewrite lookup_insert_ne by exact Hne. reflexivity. Qed.

(** X21: after [refundAddGas] the address is owed what it was owed before
    (0 without entry) plus the value; another address is owed what it was
    owed before unless its entry is the pointer stored for the first. *)
Theorem refundAddGasRef_adds heap ledger address value :
  let after := refundAddGasRef heap ledger address value in
  refundOwed (fst after) (snd after) address
  = refundOwed heap ledger address + heapAt heap value
  /\ (forall other,
         other <> address ->
         ledger !! other = None \/ ledger !! other <> ledger !! address ->
         refundOwed (fst after) (snd after) other = refundOwed heap ledger other).
Proof.
  unfold refundAddGasRef, refundOwed.
  destruct (ledger !! address) as [p |] eqn:Hp; simpl.
  - rewrite Hp. split; [apply heapAt_insert_eq |].
    intros other Hne Hsep.
    destruct (ledger !! other) as [q |] eqn:Hq; [| reflexivity].
    destruct Hsep as [Hnone | Hdiff]; [discriminate Hnone |].
    apply heapAt_insert_ne. congruence.
  - rewrite lookup_insert_eq. split; [lia |].
    intros other Hne _. rewrite lookup_insert_ne by congruence. reflexivity.
Qed.

(** X22: the pointer of the first refund stays shared. When two addresses
    without entry are refunded with the same [*big.Int], a later refund to
    the first is added to what the second is owed as well, and to the
    number the caller passed. *)
Theorem refundAddGasRef_shares heap ledger a b value more :
  a <> b ->
  ledger !! a = None ->
  ledger !! b = None ->
  let s1 := refundAddGasRef heap ledger a value in
  let s2 := refundAddGasRef (fst s1) (snd s1) b value in
  let s3 := refundAddGasRef (fst s2) (snd s2) a more in
  refundOwed (fst s2) (snd s2) b = heapAt heap value /\
  refundOwed (fst s3) (snd s3) b = heapAt heap value + heapAt heap more /\
  heapAt (fst s3) value = heapAt heap value + heapAt heap more.
Proof.
  intros Hab Ha Hb s1 s2 s3.
  assert (s1 = (heap, <[a := value]> ledger)) as H1.
  { unfold s1, refundAddGasRef. rewrite Ha. reflexivity. }
  assert (s2 = (heap, <[b := value]> (<[a := value]> ledger))) as H2.
  { unfold s2, refundAddGasRef. rewrite H1. simpl.
    rewrite lookup_insert_ne, Hb by exact Hab. reflexivity. }
  assert (s3 = (<[value := heapAt heap value + heapAt heap more]> heap,
                <[b := value]> (<[a := value]> ledger))) as H3.
  { unfold s3, refundAddGasRef. rewrite H2. simpl.
    rewrite lookup_insert_ne, lookup_insert_eq by congruence. reflexivity. }
  rewrite H2, H3. unfold refundOwed. simpl. rewrite !lookup_insert_eq.
  rewrite !heapAt_insert_eq. repeat split; reflexivity.
Qed.

(** ** More on confirmations *)

Lemma Uint64_range x : 0 <= Big.Uint64 x < 2 ^ 64.
Proof. unfold Big.Uint64. apply Z.mod_pos_bound. lia. Qed.

Lemma processEventConfirm_acceptable currentBlockConfirmations chain txDataInfo number tx
    confirmer (refundHash : RefundHash) confirmed :
  confirmAcceptable chain txDataInfo number confirmer confirmed ->
  processEventConfirm currentBlockConfirmations chain txDataInfo number tx confirmer
    refundHash
  = (currentBlockConfirmations ++ [{| Signer := confirmer; BlockNumber := confirmed |}],
     <[Types.TxHash tx := {| Sender := confirmer; GasPrice := Types.GasPrice tx |}]>
       refundHash).
Proof.
  intros Hacc.
  destruct (processEventConfirm_cases currentBlockConfirmations chain txDataInfo number tx
              confirmer refundHash) as [[_ Hnone] | (confirmed' & Hacc' & ->)].
  - destruct (Hnone confirmed Hacc).
  - rewrite (confirmAcceptable_unique _ _ _ _ _ _ Hacc Hacc'). reflexivity.
Qed.

(** X23: a confirmation of a block ahead of the current one is dropped
    through the wrap-around of the unsigned age: with the confirmed number
    above the current number, the age is their difference plus 2^64, and
    the command is dropped whenever that exceeds [MaxSignerCount]. *)
Theorem processEventConfirm_future_block currentBlockConfirmations chain txDataInfo
    number tx confirmer (refundHash : RefundHash) text confirmed :
  txDataInfo !! posEventConfirmNumber = Some text ->
  BigInt_UnmarshalText text = Some confirmed ->
  0 <= number < Big.Uint64 confirmed ->
  Params.MaxSignerCount config + Big.Uint64 confirmed < 2 ^ 64 + number ->
  processEventConfirm currentBlockConfirmations chain txDataInfo number tx confirmer
    refundHash = (currentBlockConfirmations, refundHash).
Proof.
  intros Htext Hparse Hahead Hmax.
  destruct (processEventConfirm_cases currentBlockConfirmations chain txDataInfo number tx
              confirmer refundHash) as [[-> _] | (confirmed' & Hacc & _)];
    [reflexivity |].
  exfalso. destruct Hacc as (text' & _ & _ & Htext' & Hparse' & Hage & _).
  assert (confirmed' = confirmed) as -> by congruence.
  pose proof (Uint64_range confirmed) as Hc.
  assert (sub64 number (Big.Uint64 confirmed) = number - Big.Uint64 confirmed + 2 ^ 64)
    as Hwrap.
  { unfold sub64, wrap64. symmetry.
    apply (Z.mod_unique _ _ (-1)); [left; lia | lia]. }
  lia.
Qed.

(** X24: the confirmed number is cut to 64 bits, and its sign is dropped,
    for the age and the header lookup, and recorded as it was parsed: when
    a command is acceptable for a number, a command whose number has the
    same [Uint64()] (the number plus a multiple of 2^64, or its negative)
    is accepted as well, and the confirmation appended carries that
    number. *)
Theorem processEventConfirm_truncates currentBlockConfirmations chain txDataInfo
    txDataInfo' number tx confirmer (refundHash : RefundHash) text' confirmed confirmed' :
  confirmAcceptable chain txDataInfo number confirmer confirmed ->
  txDataInfo' !! posEventConfirmNumber = Some text' ->
  BigInt_UnmarshalText text' = Some confirmed' ->
  Big.Uint64 confirmed' = Big.Uint64 confirmed ->
  processEventConfirm currentBlockConfirmations chain txDataInfo' number tx confirmer
    refundHash
  = (currentBlockConfirmations ++ [{| Signer := confirmer; BlockNumber := confirmed' |}],
     <[Types.TxHash tx := {| Sender := confirmer; GasPrice := Types.GasPrice tx |}]>
       refundHash).
Proof.
  intros (text & hdr & hx & _ & _ & Hage & Hhdr & Hlong & Hdec & Hin) Htext' Hparse' Hsame.
  apply processEventConfirm_acceptable.
  exists text', hdr, hx. rewrite Hsame. repeat split; auto.
Qed.

(** ** Side-chain records *)

(** [strings.Join(pieces, sep)] for a separator of one byte. *)
Fixpoint joinWith (sep : ascii) (pieces : list string) : string :=
  match pieces with
  | [] => EmptyString
  | [piece] => piece
  | piece :: rest => (piece ++ String sep (joinWith sep rest))%string
  end.

(** No byte of the string is the separator. *)
Fixpoint freeOf (sep : ascii) (s : string) : bool :=
  match s with
  | EmptyString => true
  | String c rest => negb (Ascii.eqb c sep) && freeOf sep rest
  end.

Lemma Split_join sep s :
  joinWith sep (Strings.Split sep s) = s
  /\ Strings.Split sep s <> []
  /\ Forall (fun piece => freeOf sep piece = true) (Strings.Split sep s).
Proof.
  induction s as [| c s (IHjoin & IHne & IHfree)]; cbn [Strings.Split].
  - split; [reflexivity |]. split; [discriminate | repeat constructor].
  - destruct (Ascii.eqb c sep) eqn:Hc.
    + apply Ascii.eqb_eq in Hc. subst c.
      destruct (Strings.Split sep s) as [| p ps] eqn:Hs; [contradiction |].
      split.
      * change (joinWith sep (EmptyString :: p :: ps))
          with (String sep (joinWith sep (p :: ps))).
        rewrite IHjoin. reflexivity.
      * split; [discriminate |]. constructor; [reflexivity | exact IHfree].
    + destruct (Strings.Split sep s) as [| p ps] eqn:Hs; [contradiction |].
      apply Forall_cons in IHfree as [Hp Hps].
      split.
      * rewrite <- IHjoin. destruct ps as [| q ps]; reflexivity.
      * split; [discriminate |]. constructor; [| exact Hps].
        simpl. rewrite Hc. exact Hp.
Qed.

(** X25: [processSCEventConfirm] keeps the confirmations it was given and
    puts one behind them that carries the hash, the number and the sender
    it was given and whose loop info is a non-empty list of pieces that
    hold no [#] and, joined by [#], are the text it was given; it records
    the sender and the gas price under the transaction hash and leaves the
    other entries of the refund map. [processSCEventNoticeConfirm] appends
    a record of the same description (hash, number, sender, pieces) for a
    charging text that is not empty, and returns the list it was given for
    the empty text. *)
Theorem processSCEvent_records_loop_info scEventConfirmaions hash number loopInfo tx
    txSender (refundHash : RefundHash) :
  (exists record,
      processSCEventConfirm scEventConfirmaions hash number loopInfo tx txSender refundHash
      = (scEventConfirmaions ++ [record],
         <[Types.TxHash tx := {| Sender := txSender; GasPrice := Types.GasPrice tx |}]>
           refundHash)
      /\ SCC_Hash record = hash /\ SCC_Coinbase record = txSender
      /\ SCC_Number record = number
      /\ joinWith "#" (SCC_LoopInfo record) = loopInfo
      /\ SCC_LoopInfo record <> []
      /\ Forall (fun piece => freeOf "#" piece = true) (SCC_LoopInfo record))
  /\ processSCEventNoticeConfirm scEventConfirmaions hash number "" txSender
     = scEventConfirmaions
  /\ (loopInfo <> "" ->
      exists record,
        processSCEventNoticeConfirm scEventConfirmaions hash number loopInfo txSender
        = scEventConfirmaions ++ [record]
        /\ SCC_Hash record = hash /\ SCC_Coinbase record = txSender
        /\ SCC_Number record = number
        /\ joinWith "#" (SCC_LoopInfo record) = loopInfo
        /\ SCC_LoopInfo record <> []
        /\ Forall (fun piece => freeOf "#" piece = true) (SCC_LoopInfo record)).
Proof.
  destruct (Split_join "#" loopInfo) as (Hjoin & Hne & Hfree).
  split; [| split].
  - eexists. unfold processSCEventConfirm. split; [reflexivity |]. simpl.
    split; [reflexivity |]. split; [reflexivity |]. split; [reflexivity |].
    split; [exact Hjoin |]. split; [exact Hne | exact Hfree].
  - reflexivity.
  - intros Hinfo. unfold processSCEventNoticeConfirm, streq.
    rewrite (proj2 (String.eqb_neq loopInfo "")) by exact Hinfo. simpl.
    eexists. split; [reflexivity |]. simpl.
    split; [reflexivity |]. split; [reflexivity |]. split; [reflexivity |].
    split; [exact Hjoin |]. split; [exact Hne | exact Hfree].
Qed.

(** ** The payload of a side-chain confirmation *)

(** [scHash.Hex()], left open. *)
Variable Hash_Hex : Common.Hash -> string.

(** [%d] of a [uint64]. *)
Definition formatUint64 (n : Z) : string := NilZero.string_of_uint (N.to_uint (Z.to_N n)).

Definition buildSCEventConfirmData (scHash : Common.Hash) (headerNumber headerTime : Z)
    (lastLoopInfo chargingInfo : string) : string :=
  (dposPrefix ++ ":" ++ dposVersion ++ ":" ++ dposCategorySC ++ ":" ++ dposEventConfirm
   ++ ":" ++ Hash_Hex scHash ++ ":" ++ formatUint64 (Big.Uint64 headerNumber)
   ++ ":" ++ formatUint64 (Big.Uint64 headerTime) ++ ":" ++ lastLoopInfo
   ++ ":" ++ chargingInfo)%string.

(** The separators of a string. *)
Fixpoint countOf (sep : ascii) (s : string) : nat :=
  match s with
  | EmptyString => 0
  | String c rest => (if Ascii.eqb c sep then 1 else 0) + countOf sep rest
  end.

Lemma Split_length sep s : List.length (Strings.Split sep s) = S (countOf sep s).
Proof.
  induction s as [| c s IH]; simpl; [reflexivity |].
  destruct (Ascii.eqb c sep); simpl.
  - rewrite IH. reflexivity.
  - destruct (Strings.Split sep s); simpl in *; [discriminate IH | exact IH].
Qed.

Lemma countOf_app sep a b :
  countOf sep (a ++ b)%string = (countOf sep a + countOf sep b)%nat.
Proof. induction a as [| c a IH]; simpl; [reflexivity | rewrite IH; lia]. Qed.

Lemma Split_cons_sep sep s :
  Strings.Split sep (String sep s) = EmptyString :: Strings.Split sep s.
Proof. simpl. rewrite Ascii.eqb_refl. reflexivity. Qed.

Lemma Split_sc_header tail :
  Strings.Split ":" ("dpos:1:sc:confirm:" ++ tail)%string
  = dposPrefix :: dposVersion :: dposCategorySC :: dposEventConfirm
      :: Strings.Split ":" tail.
Proof.
  cbv beta iota fix delta [String.append]. simpl.
  destruct (Strings.Split ":" tail) as [| p ps] eqn:Hs; [| reflexivity].
  pose proof (Split_length ":" tail) as Hl. rewrite Hs in Hl. discriminate Hl.
Qed.

(** X26: the payload [buildSCEventConfirmData] builds splits at the
    colons into at least nine tokens that begin [dpos], [1], [sc],
    [confirm]; a transaction that carries it passes the prefix and version
    checks of [processCustomTx] and, being of category [sc], changes
    neither the candidate signers nor the admin, the reward or the ratio,
    whoever sends it. *)
Theorem buildSCEventConfirmData_well_formed scHash headerNumber headerTime lastLoopInfo
    chargingInfo headerExtra chain header state txs tx :
  Types.Data tx
  = buildSCEventConfirmData scHash headerNumber headerTime lastLoopInfo chargingInfo ->
  (exists rest,
      Strings.Split ":" (Types.Data tx)
      = dposPrefix :: dposVersion :: dposCategorySC :: dposEventConfirm :: rest
      /\ (5 <= List.length rest)%nat)
  /\ adminFields
       (accumulator (processCustomTx headerExtra chain header state (txs ++ [tx])))
     = adminFields (accumulator (processCustomTx headerExtra chain header state txs)).
Proof.
  intros Hdata.
  assert (exists rest,
             Strings.Split ":" (Types.Data tx)
             = dposPrefix :: dposVersion :: dposCategorySC :: dposEventConfirm :: rest
             /\ (5 <= List.length rest)%nat) as (rest & Hsplit & Hrest).
  { rewrite Hdata. unfold buildSCEventConfirmData.
    eexists. split; [apply Split_sc_header |].
    rewrite Split_length. repeat (rewrite countOf_app; simpl countOf). lia. }
  split; [exists rest; split; assumption |].
  destruct (processCustomTx_snoc headerExtra chain header state txs tx)
    as (number & snap & [Hstep | [H1 H2]]); [| rewrite H1, H2; reflexivity].
  rewrite Hstep.
  destruct (Types.Sender tx) as [txSender |] eqn:Hs;
    [| unfold processTx; rewrite Hs; reflexivity].
  rewrite (processTx_adminFields_after_data _ _ _ _ _ _ Hs).
  unfold processData. rewrite Hsplit. unfold tok. simpl.
  split_branches; reflexivity.
Qed.

End Alien.

Arguments accumulator {error} r.

(** ** The statements on sample blocks *)

(** A vote of [bob] for [carol] in block 1: the accumulator comes back with
    no vote in it, although [processEventVote] on the same transaction
    yields the vote of [bob]'s 100. This is the input on which the code
    departs from C3 (the record of an event command is merged). *)
Lemma processCustomTx_vote_not_merged :
  let voteTx := sampleTx 7%N bob (Some carol) "dpos:1:event:vote" in
  let vote := {| Voter := bob; Candidate := carol; Stake := 100 |} in
  processEventVote [] sampleState voteTx bob = Some [vote] /\
  CurrentBlockVotes
    (accumulator
       (processCustomTx (sampleConfig 21) unit noSnapshot (sampleExtra []) sampleChain
          firstHeader sampleState [voteTx])) = [] /\
  ~ In vote
      (CurrentBlockVotes
         (accumulator
            (processCustomTx (sampleConfig 21) unit noSnapshot (sampleExtra []) sampleChain
               firstHeader sampleState [voteTx]))).
Proof.
  split; [reflexivity |]. split; [reflexivity |]. intros [].
Qed.

(** A proposal command without any key/value pair: every pair validates
    (there is none), the proposal would be of the default type, and
    [alice]'s 50 cover the deposit of 20; all the same nothing is appended
    and nothing is debited. This is the sample that separates C2 as worded
    from the code. *)
Lemma processEventProposal_bare_command_dropped :
  let txDataInfo := ["dpos"; "1"; "event"; "proposal"] in
  let tx := sampleTx 9%N alice (Some alice) "dpos:1:event:proposal" in
  fieldsValid txDataInfo /\
  proposalCost 20 (newProposal 20 600 (10000 * e18) tx alice) <= GetBalance sampleState alice /\
  rentTargetKnown (newProposal 20 600 (10000 * e18) tx alice) sampleSnapshot /\
  processEventProposal 20 600 (10000 * e18) keepHash keepAddress [] txDataInfo sampleState
    tx alice sampleSnapshot = ([], sampleState).
Proof.
  split; [| split; [| split]].
  - intros i Hi. simpl in Hi. lia.
  - vm_compute. discriminate.
  - intros Hty. vm_compute in Hty. discriminate Hty.
  - reflexivity.
Qed.

(** C6 on a configuration whose [MaxSignerCount] is 2^63: the empty set
    has not reached it and does not hold [carol], and [adds] returns the
    empty set. *)
Theorem processAdminSigner_adds_wide_maximum :
  let config := sampleConfig (2 ^ 63) in
  (carol ∉ ([] : list Common.Address)) /\
  len ([] : list Common.Address) < Params.MaxSignerCount config /\
  processAdminSigner config [] dposAdminAddSigner carol = [].
Proof.
  split; [apply not_elem_of_nil |]. split; [| reflexivity].
  vm_compute. reflexivity.
Qed.

(** [dels] on a slice that lists its only signer twice empties it. *)
Example processAdminSigner_dels_repeated_signer :
  processAdminSigner (sampleConfig 21) [alice; alice] dposAdminDelSigner alice = [].
Proof. reflexivity. Qed.

(** Scenarios A and B of the specification. *)
Example processAdminSigner_scenario_A :
  processAdminSigner (sampleConfig 21) [alice] dposAdminAddSigner bob = [alice; bob].
Proof. reflexivity. Qed.

Example processAdminSigner_scenario_B :
  processAdminSigner (sampleConfig 21) [alice] dposAdminDelSigner alice = [alice].
Proof. reflexivity. Qed.

(** C1 on scenario D: [mrpt:1500] is beyond the cap of 1000. *)
Lemma processEventProposal_rejects_invalid_field_witness :
  let txDataInfo := ["dpos"; "1"; "event"; "proposal"; "mrpt"; "1500"] in
  let tx := sampleTx 9%N alice (Some alice) "dpos:1:event:proposal:mrpt:1500" in
  ((5 + 2 * 0 < List.length txDataInfo)%nat /\
   fieldValid (tok txDataInfo (4 + 2 * 0)) (tok txDataInfo (5 + 2 * 0)) = false) /\
  processEventProposal 20 600 (10000 * e18) keepHash keepAddress [] txDataInfo sampleState
    tx alice sampleSnapshot = ([], sampleState) /\
  GetBalance
    (snd (processEventProposal 20 600 (10000 * e18) keepHash keepAddress [] txDataInfo
            sampleState tx alice sampleSnapshot)) alice
  = GetBalance sampleState alice.
Proof.
  split.
  - split; [simpl; lia | reflexivity].
  - apply (processEventProposal_rejects_invalid_field 20 600 (10000 * e18) keepHash
             keepAddress [] ["dpos"; "1"; "event"; "proposal"; "mrpt"; "1500"] sampleState
             (sampleTx 9%N alice (Some alice) "dpos:1:event:proposal:mrpt:1500") alice
             sampleSnapshot 0%nat).
    + simpl. lia.
    + reflexivity.
Defined.

(** C2 on the rent-side-chain command of [alice]: type 8, side chain 7
    registered, target [carol], rent fee 100. The command has twelve
    tokens and its four pairs validate. *)
Lemma processEventProposal_deposit_check_witness :
  ((5 < List.length rentCommand)%nat /\ fieldsValid rentCommand) /\
  exists proposal,
    proposalLoop readHash readAddress (newProposal 20 600 (10000 * e18) rentTx alice)
      (keyValues (drop (posEventProposal + 1) rentCommand)) = Some proposal /\
    Hash proposal = Types.TxHash rentTx /\
    Proposer proposal = alice /\
    CurrentDeposit proposal = 20 /\
    (rentTargetKnown proposal rentSnapshot
     /\ proposalCost 20 proposal <= GetBalance rentState alice ->
     processEventProposal 20 600 (10000 * e18) readHash readAddress [] rentCommand
       rentState rentTx alice rentSnapshot
     = ([] ++ [proposal],
        SetBalance rentState alice (GetBalance rentState alice - proposalCost 20 proposal))
     /\ GetBalance
          (snd (processEventProposal 20 600 (10000 * e18) readHash readAddress []
                  rentCommand rentState rentTx alice rentSnapshot)) alice
        = GetBalance rentState alice - proposalCost 20 proposal
     /\ 0 <= GetBalance rentState alice - proposalCost 20 proposal) /\
    (~ (rentTargetKnown proposal rentSnapshot
        /\ proposalCost 20 proposal <= GetBalance rentState alice) ->
     processEventProposal 20 600 (10000 * e18) readHash readAddress [] rentCommand
       rentState rentTx alice rentSnapshot = ([], rentState)).
Proof.
  assert (fieldsValid rentCommand) as Hvalid.
  { intros i Hi. destruct i as [| [| [| [| i]]]]; [reflexivity .. |]. simpl in Hi. lia. }
  split.
  - split; [simpl; lia | exact Hvalid].
  - apply (proj2 (processEventProposal_deposit_check 20 600 (10000 * e18) readHash
                    readAddress [] rentCommand rentState rentTx alice rentSnapshot)).
    + simpl. lia.
    + exact Hvalid.
Defined.

(** The rent-side-chain command, evaluated: with 150 units the proposal
    of type 8 is appended and [alice] pays the deposit of 20 and the fee of
    100 units; with 100 units she cannot pay and nothing changes; with a
    snapshot that does not know side chain 7 nothing changes either. *)
Example processEventProposal_rent_side_chain :
  let run state snap :=
    processEventProposal 20 600 (10000 * e18) readHash readAddress [] rentCommand state
      rentTx alice snap in
  (fun p => (ProposalType p, SCHash p, TargetAddress p, SCRentFee p))
    <$> fst (run rentState rentSnapshot) = [(8, 7%N, carol, 100)]
  /\ GetBalance (snd (run rentState rentSnapshot)) alice = 50 * e18 - 20
  /\ run {[ alice := 100 * e18 ]} rentSnapshot = ([], {[ alice := 100 * e18 ]})
  /\ run rentState sampleSnapshot = ([], rentState).
Proof. repeat split; vm_compute; reflexivity. Qed.

(** C2 on scenario C: a balance of 50 and a deposit of 20 leave 30, and
    the same command cut to five tokens leaves the 50. *)
Example processEventProposal_short_command :
  let run txDataInfo :=
    processEventProposal 20 600 (10000 * e18) keepHash keepAddress [] txDataInfo sampleState
      (sampleTx 9%N alice (Some alice) "dpos:1:event:proposal:proposal_type:1") alice
      sampleSnapshot in
  GetBalance (snd (run ["dpos"; "1"; "event"; "proposal"; "proposal_type"; "1"])) alice = 30
  /\ run ["dpos"; "1"; "event"; "proposal"; "proposal_type"] = ([], sampleState).
Proof. split; reflexivity. Qed.

(** Scenario C, evaluated. *)
Example processEventProposal_scenario_C :
  let r := processEventProposal 20 600 (10000 * e18) keepHash keepAddress []
             ["dpos"; "1"; "event"; "proposal"; "proposal_type"; "1"] sampleState
             (sampleTx 9%N alice (Some alice) "dpos:1:event:proposal:proposal_type:1")
             alice sampleSnapshot in
  CurrentDeposit <$> fst r = [20] /\ GetBalance (snd r) alice = 30.
Proof. split; reflexivity. Qed.

(** C8 on the vote of [bob] for [carol]. *)
Lemma processEventVote_appends_one_witness :
  let voteTx := sampleTx 7%N bob (Some carol) "dpos:1:event:vote" in
  Types.To voteTx = Some carol /\
  processEventVote [] sampleState voteTx bob
  = Some ([] ++ [{| Voter := bob; Candidate := carol; Stake := GetBalance sampleState bob |}]).
Proof.
  split; [reflexivity |].
  apply (processEventVote_appends_one [] sampleState
           (sampleTx 7%N bob (Some carol) "dpos:1:event:vote") bob carol).
  reflexivity.
Defined.

(** C9 on a block holding a vote and a confirmation. *)
Lemma processCustomTx_refund_empty_witness :
  let txs := [sampleTx 7%N bob (Some carol) "dpos:1:event:vote";
              sampleTx 8%N alice (Some alice) "dpos:1:event:confirm:3"] in
  processCustomTx (sampleConfig 21) unit noSnapshot (sampleExtra []) sampleChain firstHeader
    sampleState txs = (sampleExtra [], Some ∅, None) /\
  ((Some ∅ : option RefundGas) = Some ∅ /\
   forall m : RefundGas, Some ∅ = Some m -> size m = 0%nat).
Proof.
  split; [reflexivity |].
  apply (processCustomTx_refund_empty (sampleConfig 21) unit noSnapshot (sampleExtra [])
           sampleChain firstHeader sampleState
           [sampleTx 7%N bob (Some carol) "dpos:1:event:vote";
            sampleTx 8%N alice (Some alice) "dpos:1:event:confirm:3"]
           (sampleExtra []) (Some ∅)).
  reflexivity.
Defined.

(** C5 on [bob], who is not the admin, sending [adds] for [carol]. *)
Lemma processCustomTx_foreign_sender_frame_witness :
  let tx := sampleTx 8%N bob (Some carol) "dpos:1:admin:adds" in
  (forall txSender,
      Types.Sender tx = Some txSender ->
      Common.Str txSender
      <> Common.Str
           (SignerAdmin
              (accumulator
                 (processCustomTx (sampleConfig 21) unit noSnapshot (sampleExtra [])
                    sampleChain firstHeader sampleState [])))) /\
  adminFields
    (accumulator
       (processCustomTx (sampleConfig 21) unit noSnapshot (sampleExtra []) sampleChain
          firstHeader sampleState ([] ++ [tx])))
  = adminFields
      (accumulator
         (processCustomTx (sampleConfig 21) unit noSnapshot (sampleExtra []) sampleChain
            firstHeader sampleState [])).
Proof.
  assert (forall txSender,
             Types.Sender (sampleTx 8%N bob (Some carol) "dpos:1:admin:adds") = Some txSender ->
             Common.Str txSender
             <> Common.Str
                  (SignerAdmin
                     (accumulator
                        (processCustomTx (sampleConfig 21) unit noSnapshot (sampleExtra [])
                           sampleChain firstHeader sampleState [])))) as Hforeign.
  { intros txSender Hs. injection Hs as <-. discriminate. }
  split; [exact Hforeign |].
  apply (processCustomTx_foreign_sender_frame (sampleConfig 21) unit noSnapshot
           (sampleExtra []) sampleChain firstHeader sampleState []
           (sampleTx 8%N bob (Some carol) "dpos:1:admin:adds")).
  exact Hforeign.
Defined.

(** The same command from the admin does change the candidate signers. *)
Example processCustomTx_admin_adds :
  CandidateSigners
    (accumulator
       (processCustomTx (sampleConfig 21) unit noSnapshot (sampleExtra []) sampleChain
          firstHeader sampleState [sampleTx 8%N alice (Some carol) "dpos:1:admin:adds"]))
  = [alice; carol].
Proof. reflexivity. Qed.

(** C10 on the admin sending [modreward] without recipient. *)
Lemma processCustomTx_nil_recipient_frame_witness :
  let tx := sampleTx 8%N alice None "dpos:1:admin:modreward:5" in
  Types.To tx = None /\
  adminFields
    (accumulator
       (processCustomTx (sampleConfig 21) unit noSnapshot (sampleExtra []) sampleChain
          firstHeader sampleState ([] ++ [tx])))
  = adminFields
      (accumulator
         (processCustomTx (sampleConfig 21) unit noSnapshot (sampleExtra []) sampleChain
            firstHeader sampleState [])).
Proof.
  split; [reflexivity |].
  apply (processCustomTx_nil_recipient_frame (sampleConfig 21) unit noSnapshot
           (sampleExtra []) sampleChain firstHeader sampleState []
           (sampleTx 8%N alice None "dpos:1:admin:modreward:5")).
  reflexivity.
Defined.

(** With a recipient the same command sets the reward. *)
Example processCustomTx_admin_modreward :
  PerBlockReward
    (accumulator
       (processCustomTx (sampleConfig 21) unit noSnapshot (sampleExtra []) sampleChain
          firstHeader sampleState
          [sampleTx 8%N alice (Some alice) "dpos:1:admin:modreward:5"]))
  = 5.
Proof. reflexivity. Qed.


(** Scenario E: [carol] is not in that queue. *)
Example processEventConfirm_scenario_E :
  processEventConfirm (sampleConfig 21) 32 65 Strconv.signed sampleDecode [] sampleChain
    ["dpos"; "1"; "event"; "confirm"; "3"] 5
    (sampleTx 8%N carol (Some carol) "dpos:1:event:confirm:3") carol ∅
  = ([], ∅).
Proof. reflexivity. Qed.

(** A confirmation older than [MaxSignerCount] blocks is dropped. *)
Example processEventConfirm_too_old :
  processEventConfirm (sampleConfig 21) 32 65 Strconv.signed sampleDecode [] sampleChain
    ["dpos"; "1"; "event"; "confirm"; "3"] 25
    (sampleTx 8%N bob (Some bob) "dpos:1:event:confirm:3") bob ∅
  = ([], ∅).
Proof. reflexivity. Qed.

(** ** The further statements on sample data *)

Lemma alice_bob_NoDup : NoDup [alice; bob].
Proof.
  apply NoDup_cons. split; [| apply NoDup_singleton].
  intros H. apply list_elem_of_singleton in H. discriminate H.
Defined.

(** X1 on [adds] of [carol] to the signers [alice] and [bob]. *)
Lemma processAdminSigner_keeps_NoDup_witness :
  NoDup [alice; bob] /\
  NoDup (processAdminSigner (sampleConfig 21) [alice; bob] dposAdminAddSigner carol).
Proof.
  split; [exact alice_bob_NoDup |].
  apply (processAdminSigner_keeps_NoDup (sampleConfig 21) [alice; bob] dposAdminAddSigner
           carol).
  exact alice_bob_NoDup.
Defined.

(** X3 on [dels] of [alice] from the signers [alice] and [bob]. *)
Lemma processAdminSigner_dels_keeps_one_witness :
  (NoDup [alice; bob] /\ [alice; bob] <> []) /\
  processAdminSigner (sampleConfig 21) [alice; bob] dposAdminDelSigner alice <> [] /\
  (1 < len [alice; bob] ->
   alice ∉ processAdminSigner (sampleConfig 21) [alice; bob] dposAdminDelSigner alice).
Proof.
  split; [split; [exact alice_bob_NoDup | discriminate] |].
  apply (processAdminSigner_dels_keeps_one (sampleConfig 21) [alice; bob] alice).
  - exact alice_bob_NoDup.
  - discriminate.
Defined.

(** X6 on [carol], added to the signer [alice] and removed again. *)
Lemma processAdminSigner_dels_after_adds_witness :
  ((carol ∉ [alice]) /\ [alice] <> []
   /\ len [alice] < int_of_uint64 (Params.MaxSignerCount (sampleConfig 21))) /\
  processAdminSigner (sampleConfig 21)
    (processAdminSigner (sampleConfig 21) [alice] dposAdminAddSigner carol)
    dposAdminDelSigner carol = [alice].
Proof.
  assert (carol ∉ [alice]) as Hout.
  { intros H. apply list_elem_of_singleton in H. discriminate H. }
  assert (len [alice] < int_of_uint64 (Params.MaxSignerCount (sampleConfig 21))) as Hroom.
  { vm_compute. reflexivity. }
  split; [split; [exact Hout | split; [discriminate | exact Hroom]] |].
  apply (processAdminSigner_dels_after_adds (sampleConfig 21) [alice] carol).
  - exact Hout.
  - discriminate.
  - exact Hroom.
Defined.

(** X8 on two default proposals of [alice], who owns 50, at a deposit of
    30. *)
Lemma processEventProposal_no_double_spend_witness :
  let txDataInfo := ["dpos"; "1"; "event"; "proposal"; "proposal_type"; "1"] in
  let tx := sampleTx 9%N alice (Some alice) "dpos:1:event:proposal:proposal_type:1" in
  GetBalance sampleState alice < 2 * 30 /\
  (List.length
     (fst (processEventProposal 30 600 (10000 * e18) keepHash keepAddress
             (fst (processEventProposal 30 600 (10000 * e18) keepHash keepAddress []
                     txDataInfo sampleState tx alice sampleSnapshot))
             txDataInfo
             (snd (processEventProposal 30 600 (10000 * e18) keepHash keepAddress []
                     txDataInfo sampleState tx alice sampleSnapshot))
             tx alice sampleSnapshot))
   <= 1)%nat.
Proof.
  split; [vm_compute; reflexivity |].
  apply (processEventProposal_no_double_spend 30 600 (10000 * e18) keepHash keepAddress []
           ["dpos"; "1"; "event"; "proposal"; "proposal_type"; "1"]
           ["dpos"; "1"; "event"; "proposal"; "proposal_type"; "1"] sampleState
           (sampleTx 9%N alice (Some alice) "dpos:1:event:proposal:proposal_type:1")
           (sampleTx 9%N alice (Some alice) "dpos:1:event:proposal:proposal_type:1")
           alice sampleSnapshot).
  vm_compute. reflexivity.
Defined.

(** X9 on the proposal of scenario C. *)
Lemma processEventProposal_appended_within_bounds_witness :
  let txDataInfo := ["dpos"; "1"; "event"; "proposal"; "proposal_type"; "1"] in
  let tx := sampleTx 9%N alice (Some alice) "dpos:1:event:proposal:proposal_type:1" in
  let proposal := newProposal 20 600 (10000 * e18) tx alice in
  fst (processEventProposal 20 600 (10000 * e18) keepHash keepAddress [] txDataInfo
         sampleState tx alice sampleSnapshot) = [] ++ [proposal] /\
  (proposalWithinBounds (newProposal 20 600 (10000 * e18) tx alice) proposal /\
   Declares proposal = [] /\
   ReceivedNumber proposal = 0 /\
   CurrentDeposit proposal = 20 /\
   (ProposalType proposal = proposalTypeRentSideChain ->
    isSideChainExist sampleSnapshot (SCHash proposal) = true /\
    TargetAddress proposal <> Common.zeroAddress)).
Proof.
  split; [reflexivity |].
  apply (processEventProposal_appended_within_bounds 20 600 (10000 * e18) keepHash
           keepAddress [] ["dpos"; "1"; "event"; "proposal"; "proposal_type"; "1"]
           sampleState
           (sampleTx 9%N alice (Some alice) "dpos:1:event:proposal:proposal_type:1")
           alice sampleSnapshot).
  reflexivity.
Defined.

(** X10 on a [memo] pair in front of [proposal_type:1]. *)
Lemma processEventProposal_skips_unknown_key_witness :
  let pre := ["dpos"; "1"; "event"; "proposal"] in
  let post := ["proposal_type"; "1"] in
  let tx := sampleTx 9%N alice (Some alice) "dpos:1:event:proposal:memo:x:proposal_type:1" in
  (("memo" ∉ proposalKeys) /\ List.length pre = (4 + 2 * 0)%nat
   /\ (5 < List.length (pre ++ post))%nat) /\
  processEventProposal 20 600 (10000 * e18) keepHash keepAddress []
    (pre ++ "memo" :: "x" :: post) sampleState tx alice sampleSnapshot
  = processEventProposal 20 600 (10000 * e18) keepHash keepAddress [] (pre ++ post)
      sampleState tx alice sampleSnapshot.
Proof.
  assert ("memo" ∉ proposalKeys) as Hk.
  { unfold proposalKeys. intros H.
    repeat (apply elem_of_cons in H as [H | H]; [discriminate H |]).
    apply elem_of_nil in H. exact H. }
  split; [split; [exact Hk | split; [reflexivity | simpl; lia]] |].
  apply (processEventProposal_skips_unknown_key 20 600 (10000 * e18) keepHash keepAddress
           [] ["dpos"; "1"; "event"; "proposal"] "memo" "x" ["proposal_type"; "1"]
           sampleState
           (sampleTx 9%N alice (Some alice) "dpos:1:event:proposal:memo:x:proposal_type:1")
           alice sampleSnapshot 0%nat).
  - exact Hk.
  - reflexivity.
  - simpl. lia.
Defined.

(** X12 on a declare that says [yes] and then [no]. *)
Lemma processEventDeclare_last_decision_wins_witness :
  let txDataInfo := ["dpos"; "1"; "event"; "declare"; "decision"; "yes"; "decision"; "no"] in
  let tx := sampleTx 9%N bob (Some bob) "dpos:1:event:declare:decision:yes:decision:no" in
  let declare :=
    {| ProposalHash := Common.zeroHash; Declarer := bob; Decision := false |} in
  processEventDeclare keepHash [] txDataInfo tx bob = [] ++ [declare] /\
  ((forall j : nat,
       (5 + 2 * j < List.length txDataInfo)%nat ->
       tok txDataInfo (4 + 2 * j) <> "decision") ->
   Decision declare = true) /\
  (forall i : nat,
      (5 + 2 * i < List.length txDataInfo)%nat ->
      tok txDataInfo (4 + 2 * i) = "decision" ->
      (forall j : nat,
          (i < j)%nat -> (5 + 2 * j < List.length txDataInfo)%nat ->
          tok txDataInfo (4 + 2 * j) <> "decision") ->
      Decision declare = streq (tok txDataInfo (5 + 2 * i)) "yes").
Proof.
  split; [reflexivity |].
  apply (processEventDeclare_last_decision_wins keepHash []
           ["dpos"; "1"; "event"; "declare"; "decision"; "yes"; "decision"; "no"]
           (sampleTx 9%N bob (Some bob) "dpos:1:event:declare:decision:yes:decision:no")
           bob).
  reflexivity.
Defined.


(** X17 on [alice] handing the admin to [bob] and then sending [adds]. *)
Lemma processCustomTx_admin_handover_witness :
  let tx1 := sampleTx 8%N alice (Some bob) "dpos:1:admin:modadmin" in
  let tx2 := sampleTx 9%N alice (Some carol) "dpos:1:admin:adds" in
  let run txs :=
    processCustomTx (sampleConfig 21) unit noSnapshot (sampleExtra []) sampleChain
      firstHeader sampleState txs in
  (snd (run []) = None /\
   Types.Sender tx1 = Some (SignerAdmin (accumulator (run []))) /\
   Types.To tx1 = Some bob /\
   Strings.Split ":" (Types.Data tx1)
   = dposPrefix :: dposVersion :: dposCategoryAdmin :: dposAdminModifyAdmin :: []) /\
  SignerAdmin (accumulator (run ([] ++ [tx1]))) = bob /\
  (Types.Sender tx2 = Some (SignerAdmin (accumulator (run []))) ->
   SignerAdmin (accumulator (run [])) <> bob ->
   adminFields (accumulator (run ([] ++ [tx1; tx2])))
   = adminFields (accumulator (run ([] ++ [tx1])))).
Proof.
  split; [repeat split |].
  apply (processCustomTx_admin_handover (sampleConfig 21) unit noSnapshot (sampleExtra [])
           sampleChain firstHeader sampleState []
           (sampleTx 8%N alice (Some bob) "dpos:1:admin:modadmin")
           (sampleTx 9%N alice (Some carol) "dpos:1:admin:adds") bob []);
    reflexivity.
Defined.

(** X18 on [adds] of [carol] by the admin, which changes the signers. *)
Lemma processCustomTx_admin_change_needs_witness :
  let tx := sampleTx 8%N alice (Some carol) "dpos:1:admin:adds" in
  let run txs :=
    processCustomTx (sampleConfig 21) unit noSnapshot (sampleExtra []) sampleChain
      firstHeader sampleState txs in
  adminFields (accumulator (run ([] ++ [tx]))) <> adminFields (accumulator (run [])) /\
  (Types.Sender tx = Some (SignerAdmin (accumulator (run [])))
   /\ (exists to, Types.To tx = Some to)
   /\ (4 <= List.length (Strings.Split ":" (Types.Data tx)))%nat
   /\ tok (Strings.Split ":" (Types.Data tx)) posPrefix = dposPrefix
   /\ tok (Strings.Split ":" (Types.Data tx)) posVersion = dposVersion
   /\ tok (Strings.Split ":" (Types.Data tx)) posCategory = dposCategoryAdmin
   /\ tok (Strings.Split ":" (Types.Data tx)) posAdminEvent
      ∈ [dposAdminAddSigner; dposAdminDelSigner; dposAdminModifyAdmin;
         dposAdminModifyMinerReward; dposAdminModifyMinerRatio]).
Proof.
  assert (adminFields
            (accumulator
               (processCustomTx (sampleConfig 21) unit noSnapshot (sampleExtra [])
                  sampleChain firstHeader sampleState
                  ([] ++ [sampleTx 8%N alice (Some carol) "dpos:1:admin:adds"])))
          <> adminFields
               (accumulator
                  (processCustomTx (sampleConfig 21) unit noSnapshot (sampleExtra [])
                     sampleChain firstHeader sampleState []))) as Hch.
  { intros H. vm_compute in H. discriminate H. }
  split; [exact Hch |].
  apply (processCustomTx_admin_change_needs (sampleConfig 21) unit noSnapshot
           (sampleExtra []) sampleChain firstHeader sampleState []
           (sampleTx 8%N alice (Some carol) "dpos:1:admin:adds")).
  exact Hch.
Defined.

(** X19 on [modratio:55] by the admin. *)
Lemma processCustomTx_modratio_witness :
  let tx := sampleTx 8%N alice (Some alice) "dpos:1:admin:modratio:55" in
  let run txs :=
    processCustomTx (sampleConfig 21) unit noSnapshot (sampleExtra []) sampleChain
      firstHeader sampleState txs in
  (snd (run []) = None /\
   Types.Sender tx = Some (SignerAdmin (accumulator (run []))) /\
   Types.To tx = Some alice /\
   Strings.Split ":" (Types.Data tx)
   = dposPrefix :: dposVersion :: dposCategoryAdmin :: dposAdminModifyMinerRatio
       :: ["55"]) /\
  adminFields (accumulator (run ([] ++ [tx]))) = ([alice], alice, 8 * e18, 55).
Proof.
  split; [repeat split |].
  apply (processCustomTx_modratio (sampleConfig 21) unit noSnapshot (sampleExtra [])
           sampleChain firstHeader sampleState []
           (sampleTx 8%N alice (Some alice) "dpos:1:admin:modratio:55") alice ["55"]);
    reflexivity.
Defined.

(** X20 on [modreward:-5] by the admin: the reward becomes negative. *)
Lemma processCustomTx_modreward_witness :
  let tx := sampleTx 8%N alice (Some alice) "dpos:1:admin:modreward:-5" in
  let run txs :=
    processCustomTx (sampleConfig 21) unit noSnapshot (sampleExtra []) sampleChain
      firstHeader sampleState txs in
  (snd (run []) = None /\
   Types.Sender tx = Some (SignerAdmin (accumulator (run []))) /\
   Types.To tx = Some alice /\
   Strings.Split ":" (Types.Data tx)
   = dposPrefix :: dposVersion :: dposCategoryAdmin :: dposAdminModifyMinerReward
       :: ["-5"]) /\
  adminFields (accumulator (run ([] ++ [tx]))) = ([alice], alice, -5, 40).
Proof.
  split; [repeat split |].
  apply (processCustomTx_modreward (sampleConfig 21) unit noSnapshot (sampleExtra [])
           sampleChain firstHeader sampleState []
           (sampleTx 8%N alice (Some alice) "dpos:1:admin:modreward:-5") alice ["-5"]);
    reflexivity.
Defined.

(** X22 on [alice] and [bob] refunded with the number behind pointer 0,
    which holds 7, and [alice] then with the 5 behind pointer 1. *)
Lemma refundAddGasRef_shares_witness :
  let heap : gmap nat Z := {[ 0%nat := 7; 1%nat := 5 ]} in
  let ledger : gmap Common.Address nat := ∅ in
  (alice <> bob /\ ledger !! alice = None /\ ledger !! bob = None) /\
  let s1 := refundAddGasRef heap ledger alice 0%nat in
  let s2 := refundAddGasRef (fst s1) (snd s1) bob 0%nat in
  let s3 := refundAddGasRef (fst s2) (snd s2) alice 1%nat in
  refundOwed (fst s2) (snd s2) bob = heapAt heap 0%nat /\
  refundOwed (fst s3) (snd s3) bob = heapAt heap 0%nat + heapAt heap 1%nat /\
  heapAt (fst s3) 0%nat = heapAt heap 0%nat + heapAt heap 1%nat.
Proof.
  split; [repeat split; discriminate |].
  apply (refundAddGasRef_shares {[ 0%nat := 7; 1%nat := 5 ]} ∅ alice bob 0%nat 1%nat).
  - discriminate.
  - reflexivity.
  - reflexivity.
Defined.

(** X23 on a confirmation of block 9 sent in block 5. *)
Lemma processEventConfirm_future_block_witness :
  let txDataInfo := ["dpos"; "1"; "event"; "confirm"; "9"] in
  let tx := sampleTx 8%N bob (Some bob) "dpos:1:event:confirm:9" in
  (txDataInfo !! posEventConfirmNumber = Some "9" /\
   Strconv.signed "9" = Some 9 /\
   0 <= 5 < Big.Uint64 9 /\
   Params.MaxSignerCount (sampleConfig 21) + Big.Uint64 9 < 2 ^ 64 + 5) /\
  processEventConfirm (sampleConfig 21) 32 65 Strconv.signed sampleDecode [] sampleChain
    txDataInfo 5 tx bob ∅ = ([], ∅).
Proof.
  assert (0 <= 5 < Big.Uint64 9) as Hahead by (vm_compute; split; [discriminate | reflexivity]).
  assert (Params.MaxSignerCount (sampleConfig 21) + Big.Uint64 9 < 2 ^ 64 + 5) as Hmax
    by (vm_compute; reflexivity).
  split; [split; [reflexivity | split; [reflexivity | split; assumption]] |].
  apply (processEventConfirm_future_block (sampleConfig 21) 32 65 Strconv.signed
           sampleDecode [] sampleChain ["dpos"; "1"; "event"; "confirm"; "9"] 5
           (sampleTx 8%N bob (Some bob) "dpos:1:event:confirm:9") bob ∅ "9" 9).
  - reflexivity.
  - reflexivity.
  - exact Hahead.
  - exact Hmax.
Defined.

(** X24 on [bob] confirming block [-3] from block 5: the header of block 3
    is consulted, the confirmation says [-3]. *)
Lemma processEventConfirm_truncates_witness :
  let txDataInfo := ["dpos"; "1"; "event"; "confirm"; "3"] in
  let txDataInfo' := ["dpos"; "1"; "event"; "confirm"; "-3"] in
  let tx := sampleTx 8%N bob (Some bob) "dpos:1:event:confirm:-3" in
  (confirmAcceptable (sampleConfig 21) 32 65 Strconv.signed sampleDecode sampleChain
     txDataInfo 5 bob 3 /\
   txDataInfo' !! posEventConfirmNumber = Some "-3" /\
   Strconv.signed "-3" = Some (-3) /\
   Big.Uint64 (-3) = Big.Uint64 3) /\
  processEventConfirm (sampleConfig 21) 32 65 Strconv.signed sampleDecode [] sampleChain
    txDataInfo' 5 tx bob ∅
  = ([] ++ [{| Signer := bob; BlockNumber := -3 |}],
     <[Types.TxHash tx := {| Sender := bob; GasPrice := Types.GasPrice tx |}]> ∅).
Proof.
  assert (confirmAcceptable (sampleConfig 21) 32 65 Strconv.signed sampleDecode sampleChain
            ["dpos"; "1"; "event"; "confirm"; "3"] 5 bob 3) as Hacc.
  { exists "3", thirdHeader, (sampleExtra [alice; bob]).
    split; [reflexivity |]. split; [reflexivity |].
    split; [vm_compute; discriminate |]. split; [reflexivity |].
    split; [simpl; lia |]. split; [reflexivity |].
    apply elem_of_cons. right. apply elem_of_cons. left. reflexivity. }
  split; [split; [exact Hacc | repeat split] |].
  apply (processEventConfirm_truncates (sampleConfig 21) 32 65 Strconv.signed sampleDecode
           [] sampleChain ["dpos"; "1"; "event"; "confirm"; "3"]
           ["dpos"; "1"; "event"; "confirm"; "-3"] 5
           (sampleTx 8%N bob (Some bob) "dpos:1:event:confirm:-3") bob ∅ "-3" 3 (-3)).
  - exact Hacc.
  - reflexivity.
  - reflexivity.
  - reflexivity.
Defined.

(** X26 on the payload for block 5 at time 7. *)
Lemma buildSCEventConfirmData_well_formed_witness :
  let hex (h : Common.Hash) := "0x00" in
  let tx := sampleTx 8%N alice (Some alice) (buildSCEventConfirmData hex 0%N 5 7 "a" "b") in
  let run txs :=
    processCustomTx (sampleConfig 21) unit noSnapshot (sampleExtra []) sampleChain
      firstHeader sampleState txs in
  Types.Data tx = buildSCEventConfirmData hex 0%N 5 7 "a" "b" /\
  (exists rest,
      Strings.Split ":" (Types.Data tx)
      = dposPrefix :: dposVersion :: dposCategorySC :: dposEventConfirm :: rest
      /\ (5 <= List.length rest)%nat) /\
  adminFields (accumulator (run ([] ++ [tx]))) = adminFields (accumulator (run [])).
Proof.
  split; [reflexivity |].
  apply (buildSCEventConfirmData_well_formed (sampleConfig 21) unit noSnapshot
           (fun _ => "0x00") 0%N 5 7 "a" "b" (sampleExtra []) sampleChain firstHeader
           sampleState []
           (sampleTx 8%N alice (Some alice)
              (buildSCEventConfirmData (fun _ => "0x00") 0%N 5 7 "a" "b"))).
  reflexivity.
Defined.

(** The payload itself. *)
Example buildSCEventConfirmData_sample :
  buildSCEventConfirmData (fun _ => "0x00") 0%N 5 7 "a" "b" = "dpos:1:sc:confirm:0x00:5:7:a:b".
Proof. reflexivity. Qed.

(** * Fork scheduling of [params/config.go]

    A [*big.Int] that may be nil is an [option Z]. *)

Module Forks.

Record ChainConfig := {
  ChainId : option Z;
  HomesteadBlock : option Z;
  EIP150Block : option Z;
  EIP150Hash : Common.Hash;
  EIP155Block : option Z;
  EIP158Block : option Z;
  ByzantiumBlock : option Z;
  ConstantinopleBlock : option Z
}.

Record ConfigCompatError := {
  What : string;
  StoredConfig : option Z;
  NewConfig : option Z;
  RewindTo : Z
}.

Definition isForked (s head : option Z) : bool :=
  match s, head with
  | Some s, Some head => s <=? head
  | _, _ => false
  end.

Definition configNumEqual (x y : option Z) : bool :=
  match x, y with
  | None, None => true
  | None, Some _ => false
  | Some _, None => false
  | Some x, Some y => x =? y
  end.

Definition isForkIncompatible (s1 s2 head : option Z) : bool :=
  (isForked s1 head || isForked s2 head) && negb (configNumEqual s1 s2).

Definition newCompatError (what : string) (storedblock newblock : option Z)
  : ConfigCompatError :=
  let rew :=
    match storedblock, newblock with
    | None, _ => newblock
    | Some s, None => storedblock
    | Some s, Some n => if s <? n then storedblock else newblock
    end in
  {| What := what;
     StoredConfig := storedblock;
     NewConfig := newblock;
     RewindTo :=
       match rew with
       | Some r => if 0 <? r then sub64 (Big.Uint64 r) 1 else 0
       | None => 0
       end |}.

Definition IsHomestead (c : ChainConfig) (num : option Z) : bool :=
  isForked (HomesteadBlock c) num.
Definition IsEIP150 (c : ChainConfig) (num : option Z) : bool :=
  isForked (EIP150Block c) num.
Definition IsEIP155 (c : ChainConfig) (num : option Z) : bool :=
  isForked (EIP155Block c) num.
Definition IsEIP158 (c : ChainConfig) (num : option Z) : bool :=
  isForked (EIP158Block c) num.
Definition IsByzantium (c : ChainConfig) (num : option Z) : bool :=
  isForked (ByzantiumBlock c) num.
Definition IsConstantinople (c : ChainConfig) (num : option Z) : bool :=
  isForked (ConstantinopleBlock c) num.

Definition checkCompatible (c newcfg : ChainConfig) (head : option Z)
  : option ConfigCompatError :=
  if isForkIncompatible (HomesteadBlock c) (HomesteadBlock newcfg) head then
    Some (newCompatError "Homestead fork block" (HomesteadBlock c) (HomesteadBlock newcfg))
  else if isForkIncompatible (EIP150Block c) (EIP150Block newcfg) head then
    Some (newCompatError "EIP150 fork block" (EIP150Block c) (EIP150Block newcfg))
  else if isForkIncompatible (EIP155Block c) (EIP155Block newcfg) head then
    Some (newCompatError "EIP155 fork block" (EIP155Block c) (EIP155Block newcfg))
  else if isForkIncompatible (EIP158Block c) (EIP158Block newcfg) head then
    Some (newCompatError "EIP158 fork block" (EIP158Block c) (EIP158Block newcfg))
  else if IsEIP158 c head && negb (configNumEqual (ChainId c) (ChainId newcfg)) then
    Some (newCompatError "EIP158 chain ID" (EIP158Block c) (EIP158Block newcfg))
  else if isForkIncompatible (ByzantiumBlock c) (ByzantiumBlock newcfg) head then
    Some (newCompatError "Byzantium fork block" (ByzantiumBlock c) (ByzantiumBlock newcfg))
  else if isForkIncompatible (ConstantinopleBlock c) (ConstantinopleBlock newcfg) head then
    Some (newCompatError "Constantinople fork block" (ConstantinopleBlock c)
            (ConstantinopleBlock newcfg))
  else None.

(** The loop of [CheckCompatible], [fuel] turns of it: [bhead] is the head
    looked at, [lasterr] the last conflict found. [None] stands for a loop
    that has not ended within the fuel. *)
Fixpoint compatLoop (fuel : nat) (c newcfg : ChainConfig) (bhead : Z)
    (lasterr : option ConfigCompatError) : option (option ConfigCompatError) :=
  match fuel with
  | O => None
  | S fuel' =>
      match checkCompatible c newcfg (Some bhead) with
      | None => Some lasterr
      | Some err =>
          match lasterr with
          | Some last =>
              if RewindTo err =? RewindTo last then Some lasterr
              else compatLoop fuel' c newcfg (RewindTo err) (Some err)
          | None => compatLoop fuel' c newcfg (RewindTo err) (Some err)
          end
      end
  end.

Definition CheckCompatible (fuel : nat) (c newcfg : ChainConfig) (height : Z)
  : option (option ConfigCompatError) :=
  compatLoop fuel c newcfg height None.

(** ** Properties *)

Lemma configNumEqual_refl x : configNumEqual x x = true.
Proof. destruct x; simpl; [apply Z.eqb_refl | reflexivity]. Qed.

Lemma isForkIncompatible_refl s head : isForkIncompatible s s head = false.
Proof.
  unfold isForkIncompatible. rewrite configNumEqual_refl. apply andb_false_r.
Qed.

(** X27: a configuration is compatible with itself at every head, so
    [CheckCompatible] of a configuration against itself returns no error,
    in its first turn. *)
Theorem CheckCompatible_self (fuel : nat) c height :
  checkCompatible c c (Some height) = None
  /\ CheckCompatible (S fuel) c c height = Some None.
Proof.
  assert (checkCompatible c c (Some height) = None) as Hself.
  { unfold checkCompatible. rewrite !isForkIncompatible_refl, configNumEqual_refl.
    rewrite andb_false_r. reflexivity. }
  split; [exact Hself |].
  unfold CheckCompatible. simpl. rewrite Hself. reflexivity.
Qed.

(** The rewind target of a conflict between two schedules of which one is
    active at a head within [uint64] lies at or below the head, and below it
    when the head is not 0. *)
Lemma newCompatError_rewind what s1 s2 head :
  0 <= head < 2 ^ 64 ->
  isForked s1 (Some head) || isForked s2 (Some head) = true ->
  0 <= RewindTo (newCompatError what s1 s2) <= head /\
  (0 < head -> RewindTo (newCompatError what s1 s2) < head).
Proof.
  intros Hhead Hforked. unfold newCompatError. simpl.
  assert (forall r, 0 < r <= head -> sub64 (Big.Uint64 r) 1 = r - 1) as Hsub.
  { intros r Hr. unfold sub64, wrap64, Big.Uint64.
    rewrite Z.abs_eq by lia. rewrite (Z.mod_small r) by lia. apply Z.mod_small. lia. }
  destruct s1 as [a |], s2 as [b |]; simpl in Hforked.
  - destruct (Z.ltb_spec a b).
    + destruct (Z.ltb_spec 0 a); [| lia].
      destruct (Z.leb_spec a head); [rewrite Hsub by lia; lia |].
      destruct (Z.leb_spec b head); [rewrite Hsub by lia; lia | discriminate].
    + destruct (Z.ltb_spec 0 b); [| lia].
      destruct (Z.leb_spec b head); [rewrite Hsub by lia; lia |].
      destruct (Z.leb_spec a head); [rewrite Hsub by lia; lia | discriminate].
  - rewrite orb_false_r in Hforked. apply Z.leb_le in Hforked.
    destruct (Z.ltb_spec 0 a); [rewrite Hsub by lia; lia | lia].
  - apply Z.leb_le in Hforked.
    destruct (Z.ltb_spec 0 b); [rewrite Hsub by lia; lia | lia].
  - discriminate Hforked.
Qed.

Lemma isForkIncompatible_forked s1 s2 head :
  isForkIncompatible s1 s2 head = true -> isForked s1 head || isForked s2 head = true.
Proof. unfold isForkIncompatible. intros H. apply andb_true_iff in H as [H _]. exact H. Qed.

(** Every conflict [checkCompatible] reports at a head asks to rewind to
    the head or below, and below it when the head is not 0. *)
Lemma checkCompatible_rewind c newcfg head err :
  0 <= head < 2 ^ 64 ->
  checkCompatible c newcfg (Some head) = Some err ->
  0 <= RewindTo err <= head /\ (0 < head -> RewindTo err < head).
Proof.
  intros Hhead. unfold checkCompatible.
  repeat match goal with
         | |- context [if isForkIncompatible ?a ?b ?h then _ else _] =>
             let E := fresh "E" in
             destruct (isForkIncompatible a b h) eqn:E;
             [intros Herr; inversion Herr; subst;
              apply newCompatError_rewind;
              [exact Hhead | apply isForkIncompatible_forked; exact E]
             |]
         end.
  - destruct (IsEIP158 c (Some head) && negb (configNumEqual (ChainId c) (ChainId newcfg)))
      eqn:Hid.
    + intros Herr; inversion Herr; subst.
      apply andb_true_iff in Hid as [H158 _]. unfold IsEIP158 in H158.
      apply newCompatError_rewind; [exact Hhead | rewrite H158; reflexivity].
    + repeat match goal with
             | |- context [if isForkIncompatible ?a ?b ?h then _ else _] =>
                 let E := fresh "E" in
                 destruct (isForkIncompatible a b h) eqn:E;
                 [intros Herr; inversion Herr; subst;
                  apply newCompatError_rewind;
                  [exact Hhead | apply isForkIncompatible_forked; exact E]
                 |]
             end.
      discriminate.
Qed.


(** A conflict is settled when the check at its rewind target finds
    nothing, or only a conflict with the same target. *)
Definition settled (c newcfg : ChainConfig) (e : ConfigCompatError) : Prop :=
  match checkCompatible c newcfg (Some (RewindTo e)) with
  | None => True
  | Some e' => RewindTo e' = RewindTo e
  end.

(** The loop with a conflict in hand: it ends within [bhead + 1] turns with
    a settled conflict found at some head at or below [top]. *)
Lemma compatLoop_ends c newcfg top : forall fuel bhead last,
  0 <= bhead < 2 ^ 64 ->
  bhead <= top ->
  RewindTo last = bhead ->
  (exists h, 0 <= h <= top /\ checkCompatible c newcfg (Some h) = Some last) ->
  (Z.to_nat bhead < fuel)%nat ->
  exists e, compatLoop fuel c newcfg bhead (Some last) = Some (Some e)
            /\ 0 <= RewindTo e <= bhead
            /\ (exists h, 0 <= h <= top /\ checkCompatible c newcfg (Some h) = Some e)
            /\ settled c newcfg e.
Proof.
  induction fuel as [| fuel IH]; intros bhead last Hb Htop Hlast Hfrom Hfuel; [lia |].
  cbn [compatLoop].
  destruct (checkCompatible c newcfg (Some bhead)) as [err |] eqn:Hcheck.
  - destruct (Z.eqb_spec (RewindTo err) (RewindTo last)) as [Heq | Hne].
    + exists last. repeat split; try lia; [exact Hfrom |].
      unfold settled. rewrite Hlast, Hcheck. lia.
    + destruct (checkCompatible_rewind _ _ _ _ Hb Hcheck) as [Hrange Hbelow].
      assert (RewindTo err < bhead) as Hlt by lia.
      destruct (IH (RewindTo err) err) as (e & Hrun & Hre & Hfound & Hsettled);
        [lia | lia | reflexivity | exists bhead; split; [lia | exact Hcheck] | lia |].
      exists e. repeat split; try assumption; lia.
  - exists last. repeat split; try lia; [exact Hfrom |].
    unfold settled. rewrite Hlast, Hcheck. exact I.
Qed.

(** X28: for a height within uint64 the loop of [CheckCompatible] ends
    within [height + 2] turns, whatever the two configurations are, and it
    returns no error exactly when the check at the height itself finds no
    conflict. *)
Theorem CheckCompatible_terminates (fuel : nat) c newcfg height :
  0 <= height < 2 ^ 64 ->
  (Z.to_nat height + 2 <= fuel)%nat ->
  exists r, CheckCompatible fuel c newcfg height = Some r
            /\ (r = None <-> checkCompatible c newcfg (Some height) = None).
Proof.
  intros Hheight Hfuel. unfold CheckCompatible.
  destruct fuel as [| fuel]; [lia |]. cbn [compatLoop].
  destruct (checkCompatible c newcfg (Some height)) as [err |] eqn:Hcheck.
  - destruct (checkCompatible_rewind _ _ _ _ Hheight Hcheck) as [Hrange _].
    destruct (compatLoop_ends c newcfg height fuel (RewindTo err) err)
      as (e & Hrun & _); [lia | lia | reflexivity | | lia |].
    + exists height. split; [lia | exact Hcheck].
    + exists (Some e). split; [exact Hrun |]. split; discriminate.
  - exists None. split; [reflexivity |]. split; reflexivity.
Qed.

(** X29: an error returned by [CheckCompatible] is a conflict that
    [checkCompatible] reports at some head at or below the height, its rewind
    target is at or below the height, and it is settled: the check at the
    rewind target finds nothing, or a conflict with the same target. *)
Theorem CheckCompatible_lowest_conflict (fuel : nat) c newcfg height e :
  0 <= height < 2 ^ 64 ->
  CheckCompatible fuel c newcfg height = Some (Some e) ->
  (exists h, 0 <= h <= height /\ checkCompatible c newcfg (Some h) = Some e)
  /\ 0 <= RewindTo e <= height
  /\ settled c newcfg e.
Proof.
  intros Hheight. unfold CheckCompatible.
  destruct fuel as [| fuel]; [discriminate |]. cbn [compatLoop].
  destruct (checkCompatible c newcfg (Some height)) as [err |] eqn:Hcheck;
    [| discriminate].
  destruct (checkCompatible_rewind _ _ _ _ Hheight Hcheck) as [Hrange _].
  assert (forall n bhead last,
             0 <= bhead < 2 ^ 64 -> bhead <= height -> RewindTo last = bhead ->
             (exists h, 0 <= h <= height /\ checkCompatible c newcfg (Some h) = Some last) ->
             compatLoop n c newcfg bhead (Some last) = Some (Some e) ->
             (exists h, 0 <= h <= height /\ checkCompatible c newcfg (Some h) = Some e)
             /\ 0 <= RewindTo e <= height /\ settled c newcfg e) as Hloop.
  { induction n as [| n IH]; intros bhead last Hb Htop Hlast Hfrom; [discriminate |].
    cbn [compatLoop].
    destruct (checkCompatible c newcfg (Some bhead)) as [err' |] eqn:Hcheck'.
    - destruct (Z.eqb_spec (RewindTo err') (RewindTo last)) as [Heq | Hne].
      + intros Hrun. inversion Hrun; subst e.
        split; [exact Hfrom |]. split; [lia |].
        unfold settled. rewrite Hlast, Hcheck'. lia.
      + destruct (checkCompatible_rewind _ _ _ _ Hb Hcheck') as [Hrange' _].
        apply IH; [lia | lia | reflexivity |].
        exists bhead. split; [lia | exact Hcheck'].
    - intros Hrun. inversion Hrun; subst e.
      split; [exact Hfrom |]. split; [lia |].
      unfold settled. rewrite Hlast, Hcheck'. exact I. }
  apply Hloop; [lia | lia | reflexivity |].
  exists height. split; [lia | exact Hcheck].
Qed.

Lemma isForked_mono s h h' :
  h <= h' -> isForked s (Some h) = true -> isForked s (Some h') = true.
Proof.
  destruct s as [s |]; simpl; [| discriminate].
  intros Hle Hs. apply Z.leb_le in Hs. apply Z.leb_le. lia.
Qed.

Lemma isForkIncompatible_mono s1 s2 h h' :
  h <= h' ->
  isForkIncompatible s1 s2 (Some h) = true -> isForkIncompatible s1 s2 (Some h') = true.
Proof.
  unfold isForkIncompatible. intros Hle Hinc.
  apply andb_true_iff in Hinc as [Hforked Hdiff]. rewrite Hdiff, andb_true_r.
  apply orb_true_iff in Hforked as [Hs | Hs];
    rewrite (isForked_mono _ _ _ Hle Hs); [reflexivity | apply orb_true_r].
Qed.

(** Whether some check of [checkCompatible] fires at a head. *)
Definition conflictAt (c newcfg : ChainConfig) (head : option Z) : bool :=
  isForkIncompatible (HomesteadBlock c) (HomesteadBlock newcfg) head
  || isForkIncompatible (EIP150Block c) (EIP150Block newcfg) head
  || isForkIncompatible (EIP155Block c) (EIP155Block newcfg) head
  || isForkIncompatible (EIP158Block c) (EIP158Block newcfg) head
  || IsEIP158 c head && negb (configNumEqual (ChainId c) (ChainId newcfg))
  || isForkIncompatible (ByzantiumBlock c) (ByzantiumBlock newcfg) head
  || isForkIncompatible (ConstantinopleBlock c) (ConstantinopleBlock newcfg) head.

Lemma checkCompatible_None c newcfg head :
  checkCompatible c newcfg head = None <-> conflictAt c newcfg head = false.
Proof.
  unfold checkCompatible, conflictAt.
  repeat match goal with
         | |- context [if ?b then _ else _] =>
             destruct b; [simpl; rewrite ?orb_true_r; split; discriminate |]
         end.
  simpl. split; reflexivity.
Qed.

Lemma conflictAt_mono c newcfg h h' :
  h <= h' -> conflictAt c newcfg (Some h) = true -> conflictAt c newcfg (Some h') = true.
Proof.
  intros Hle. unfold conflictAt. rewrite !orb_true_iff.
  intros Hany.
  repeat match type of Hany with
         | _ \/ _ => destruct Hany as [Hany | Hany]
         end;
    try apply (isForkIncompatible_mono _ _ _ _ Hle) in Hany; auto 10.
  apply andb_true_iff in Hany as [H158 Hid].
  apply (isForked_mono _ _ _ Hle) in H158. unfold IsEIP158.
  rewrite H158, Hid. auto 10.
Qed.

(** X30: a conflict does not go away as the chain grows: when
    [checkCompatible] reports a conflict at a head it reports one at every
    later head, so two configurations compatible at a head are compatible
    at every earlier one. *)
Theorem checkCompatible_conflict_persists c newcfg h h' :
  h <= h' ->
  checkCompatible c newcfg (Some h) <> None ->
  checkCompatible c newcfg (Some h') <> None.
Proof.
  intros Hle Hconflict Hnone. apply Hconflict.
  apply checkCompatible_None. apply checkCompatible_None in Hnone.
  destruct (conflictAt c newcfg (Some h)) eqn:Hat; [| reflexivity].
  rewrite (conflictAt_mono _ _ _ _ Hle Hat) in Hnone. discriminate.
Qed.

End Forks.


(** ** Fork schedules: worked inputs *)

Definition storedSchedule : Forks.ChainConfig :=
  {| Forks.ChainId := Some 1;
     Forks.HomesteadBlock := Some 10;
     Forks.EIP150Block := Some 3;
     Forks.EIP150Hash := 0%N;
     Forks.EIP155Block := None;
     Forks.EIP158Block := None;
     Forks.ByzantiumBlock := None;
     Forks.ConstantinopleBlock := None |}.

Definition newSchedule : Forks.ChainConfig :=
  {| Forks.ChainId := Some 1;
     Forks.HomesteadBlock := Some 5;
     Forks.EIP150Block := Some 2;
     Forks.EIP150Hash := 0%N;
     Forks.EIP155Block := None;
     Forks.EIP158Block := None;
     Forks.ByzantiumBlock := None;
     Forks.ConstantinopleBlock := None |}.

Lemma CheckCompatible_terminates_witness :
  exists r, Forks.CheckCompatible 32 storedSchedule newSchedule 30 = Some r
            /\ (r = None <->
                Forks.checkCompatible storedSchedule newSchedule (Some 30) = None).
Proof.
  apply (Forks.CheckCompatible_terminates 32 storedSchedule newSchedule 30);
    [lia | simpl; lia].
Defined.

Lemma CheckCompatible_lowest_conflict_witness :
  (exists h, 0 <= h <= 30 /\
             Forks.checkCompatible storedSchedule newSchedule (Some h)
             = Some (Forks.newCompatError "EIP150 fork block" (Some 3) (Some 2)))
  /\ 0 <= Forks.RewindTo (Forks.newCompatError "EIP150 fork block" (Some 3) (Some 2)) <= 30
  /\ Forks.settled storedSchedule newSchedule
       (Forks.newCompatError "EIP150 fork block" (Some 3) (Some 2)).
Proof.
  apply (Forks.CheckCompatible_lowest_conflict 3 storedSchedule newSchedule 30);
    [lia | reflexivity].
Defined.

Lemma checkCompatible_conflict_persists_witness :
  Forks.checkCompatible storedSchedule newSchedule (Some 7) <> None.
Proof.
  apply (Forks.checkCompatible_conflict_persists storedSchedule newSchedule 2 7);
    [lia | discriminate].
Defined.
